(** * CalculadoraAgentes: the agent-based expression evaluator

    A shallow embedding of [CalculadoraAgentes.py]: the message broker, the
    five operation agents, the IO agent (tokenizer, parenthesis handling,
    precedence tiers, request/response dispatch) and the calculator model
    with its statistics, followed by the properties proved about them.

    Python values are modelled as follows.
    - [str] is [string], one [ascii] for each character: the model is
      of the ASCII strings ([PyStr.is_ascii]).  On them the digits of
      [\d], [isdigit] and [float] are [0] to [9]; the other Unicode
      decimal digits, which Python accepts in all three, are outside the
      model, and a statement that depends on what a digit is carries the
      hypothesis that the string is ASCII.
    - [float] is IEEE binary64, Rocq's primitive [float]; [float(s)] and
      [str(x)] are written out (correct rounding, shortest round-trip
      output).
    - [operator.pow] is a parameter: it is the C library's [pow].
    - a method is a function of the model returning an outcome, a value
      or a raised exception with its class and message, and the model as
      the method left it: what was written before a [raise] stays
      written. *)

From Stdlib Require Import ZArith List String Ascii Bool Lia DecimalString.
From Stdlib Require Import Permutation.
From Stdlib Require Import PrimFloat FloatOps SpecFloat.
Import ListNotations.

Open Scope string_scope.

(** ** Python strings *)

Module PyStr.

(** The strings the model is of: every character below 128. *)
Definition is_ascii_char (c : ascii) : bool := (nat_of_ascii c <? 128)%nat.

Fixpoint is_ascii (s : string) : bool :=
  match s with
  | EmptyString => true
  | String c r => is_ascii_char c && is_ascii r
  end.

(** The decimal digits among the ASCII characters. *)
Definition is_digit (c : ascii) : bool :=
  ((48 <=? nat_of_ascii c) && (nat_of_ascii c <=? 57))%nat.

(** The whitespace [float] strips from an ASCII string: the space and
    the characters 9 to 13. *)
Definition is_space (c : ascii) : bool :=
  let n := nat_of_ascii c in
  ((n =? 32) || ((9 <=? n) && (n <=? 13)))%nat.

Fixpoint lstrip (s : string) : string :=
  match s with
  | EmptyString => EmptyString
  | String c r => if is_space c then lstrip r else s
  end.

Fixpoint rstrip (s : string) : string :=
  match s with
  | EmptyString => EmptyString
  | String c r =>
      match rstrip r with
      | EmptyString => if is_space c then EmptyString else String c EmptyString
      | r' => String c r'
      end
  end.

Definition strip (s : string) : string := rstrip (lstrip s).

Fixpoint contains (c : ascii) (s : string) : bool :=
  match s with
  | EmptyString => false
  | String d r => Ascii.eqb d c || contains c r
  end.

Fixpoint all_digits (s : string) : bool :=
  match s with
  | EmptyString => true
  | String c r => is_digit c && all_digits r
  end.

(** [s.isdigit()] for an ASCII string: non-empty and made of digits
    only. *)
Definition isdigit (s : string) : bool :=
  match s with
  | EmptyString => false
  | _ => all_digits s
  end.

(** [s.replace(c, '')] for a one-character [c]. *)
Fixpoint remove_char (c : ascii) (s : string) : string :=
  match s with
  | EmptyString => EmptyString
  | String d r =>
      if Ascii.eqb d c then remove_char c r else String d (remove_char c r)
  end.

(** [sep.join(l)] *)
Fixpoint join (sep : string) (l : list string) : string :=
  match l with
  | [] => ""
  | [x] => x
  | x :: r => x ++ sep ++ join sep r
  end.

Definition double_quote : ascii := ascii_of_nat 34.

Definition hex_digit (n : nat) : ascii :=
  ascii_of_nat (if (n <? 10)%nat then 48 + n else 87 + n).

(** One character of [repr(s)] between the quotes [quote]. *)
Definition repr_char (quote c : ascii) : string :=
  let n := nat_of_ascii c in
  if Ascii.eqb c quote || Ascii.eqb c "\"%char then String "\"%char (String c "")
  else if (n =? 9)%nat then "\t"
  else if (n =? 10)%nat then "\n"
  else if (n =? 13)%nat then "\r"
  else if ((n <? 32) || (n =? 127))%nat
       then String "\"%char
              (String "x"%char
                 (String (hex_digit (n / 16)) (String (hex_digit (n mod 16)) "")))
  else String c "".

Fixpoint repr_chars (quote : ascii) (s : string) : string :=
  match s with
  | EmptyString => EmptyString
  | String c r => repr_char quote c ++ repr_chars quote r
  end.

(** [repr(s)] of an ASCII string: single quotes, unless the string holds
    a single quote and no double quote; the quote in use and the
    backslash are escaped, and so are the control characters. *)
Definition repr_str (s : string) : string :=
  let quote :=
    if contains "'"%char s && negb (contains double_quote s)
    then double_quote else "'"%char in
  String quote (repr_chars quote s ++ String quote "").

(** [repr(l)] / [str(l)] for a list of strings. *)
Definition repr_list (l : list string) : string :=
  "[" ++ join ", " (map repr_str l) ++ "]".

(** [s * n] *)
Fixpoint repeat_str (s : string) (n : nat) : string :=
  match n with
  | O => ""
  | S k => s ++ repeat_str s k
  end.

Definition newline : string := String (ascii_of_nat 10) "".

Definition to_lower (c : ascii) : ascii :=
  let n := nat_of_ascii c in
  if ((65 <=? n) && (n <=? 90))%nat then ascii_of_nat (n + 32) else c.

Fixpoint lower (s : string) : string :=
  match s with
  | EmptyString => EmptyString
  | String c r => String (to_lower c) (lower r)
  end.

Definition string_of_Z (z : Z) : string := NilZero.string_of_int (Z.to_int z).

End PyStr.

(** ** Python floats: [float(s)] and [str(x)] *)

Module PyFloat.
Import PyStr.

Definition digit_val (c : ascii) : Z := Z.of_nat (nat_of_ascii c) - 48.

(** The longest prefix of digits, and what follows it. *)
Fixpoint span_digits (s : string) : string * string :=
  match s with
  | EmptyString => ("", "")
  | String c r =>
      if is_digit c
      then let (d, rest) := span_digits r in (String c d, rest)
      else ("", s)
  end.

Fixpoint digits_value (acc : Z) (s : string) : Z :=
  match s with
  | EmptyString => acc
  | String c r => digits_value (10 * acc + digit_val c) r
  end.

(** The binary64 nearest to [m * 10^e] (ties to even, overflow to
    infinity), for [m >= 0]: what [float] returns for a decimal
    literal. *)
Definition round_decimal (neg : bool) (m e : Z) : float :=
  match m with
  | Zpos p =>
      if (0 <=? e)%Z
      then SF2Prim (binary_round prec emax neg (p * Z.to_pos (10 ^ e)) 0)
      else SF2Prim (SFdiv prec emax (S754_finite neg p 0)
                      (S754_finite false (Z.to_pos (10 ^ (- e))) 0))
  | _ => if neg then neg_zero else zero
  end.

(** An optional exponent part [e], [e+dd] or [e-dd] closing the literal. *)
Definition parse_exponent (s : string) : option Z :=
  match s with
  | EmptyString => Some 0%Z
  | String c r =>
      if Ascii.eqb (to_lower c) "e"%char then
        let '(sg, digs) :=
          match r with
          | String "+"%char r' => (false, r')
          | String "-"%char r' => (true, r')
          | _ => (false, r)
          end in
        if isdigit digs
        then Some (if sg then - digits_value 0 digs else digits_value 0 digs)%Z
        else None
      else None
  end.

(** What [float] reads once whitespace and underscores are gone: an
    optional sign, then [inf], [infinity], [nan] or a decimal literal
    with an optional fraction and exponent. *)
Definition float_literal (s : string) : option float :=
  let '(neg, body) :=
    match s with
    | String "+"%char r => (false, r)
    | String "-"%char r => (true, r)
    | _ => (false, s)
    end in
  let lb := lower body in
  if (lb =? "inf") || (lb =? "infinity")
  then Some (if neg then neg_infinity else infinity)
  else if lb =? "nan" then Some nan
  else
    let (ip, r1) := span_digits body in
    let (fp, r2) :=
      match r1 with
      | String "."%char r => span_digits r
      | _ => ("", r1)
      end in
    match ip ++ fp with
    | EmptyString => None
    | ds =>
        match parse_exponent r2 with
        | Some ex =>
            Some (round_decimal neg (digits_value 0 ds)
                    (ex - Z.of_nat (String.length fp)))
        | None => None
        end
    end.

(** An underscore is allowed between two digits and nowhere else;
    [prev] is the character before [s]. *)
Fixpoint underscores_between_digits (prev : ascii) (s : string) : bool :=
  match s with
  | EmptyString => negb (Ascii.eqb prev "_"%char)
  | String c r =>
      (if Ascii.eqb c "_"%char then is_digit prev
       else negb (Ascii.eqb prev "_"%char) || is_digit c)
      && underscores_between_digits c r
  end.

(** [float(s)] for an ASCII string: surrounding whitespace is stripped,
    underscores between digits are dropped, and the rest is read as a
    literal.  [None] is the [ValueError]. *)
Definition float_of_string (s : string) : option float :=
  let t := strip s in
  if underscores_between_digits Ascii.zero t
  then float_literal (remove_char "_"%char t)
  else None.

(** *** Shortest round-tripping output, [repr] *)

(** A positive finite float [m * 2^e] as a fraction. *)
Definition fraction_of (m : positive) (e : Z) : Z * Z :=
  if (0 <=? e)%Z then (Zpos m * 2 ^ e, 1)%Z else (Zpos m, 2 ^ (- e))%Z.

(** [num/den * 10^j] as a fraction. *)
Definition scale10 (nd : Z * Z) (j : Z) : Z * Z :=
  let (num, den) := nd in
  if (0 <=? j)%Z then (num * 10 ^ j, den)%Z else (num, den * 10 ^ (- j))%Z.

Definition ndigits (z : Z) : Z := Z.of_nat (String.length (string_of_Z z)).

(** [k] with [10^k <= num/den < 10^(k+1)]. *)
Definition floor_log10 (nd : Z * Z) : Z :=
  let (num, den) := nd in
  let k0 := (ndigits num - ndigits den)%Z in
  let (n', d') := scale10 nd (- k0) in
  if (d' <=? n')%Z then k0 else (k0 - 1)%Z.

(** The [p]-digit decimal that reads back as [x], if there is one: the
    candidates are the two [p]-digit neighbours of the exact value and
    the nearer wins.  The result is the digits as an integer and the
    power of ten it is scaled by. *)
Definition candidate (x : float) (nd : Z * Z) (k : Z) (p : Z)
  : option (Z * Z) :=
  let j := (p - 1 - k)%Z in
  let (n', d') := scale10 nd j in
  let lo := (n' / d')%Z in
  let r := (n' mod d')%Z in
  let hi := (lo + 1)%Z in
  let back d := PrimFloat.eqb (round_decimal false d (- j)) x in
  if (r =? 0)%Z then Some (lo, (- j)%Z)
  else
    match back lo, back hi with
    | true, true =>
        match (2 * r ?= d')%Z with
        | Lt => Some (lo, (- j)%Z)
        | Gt => Some (hi, (- j)%Z)
        | Eq => Some (if Z.even lo then lo else hi, (- j)%Z)
        end
    | true, false => Some (lo, (- j)%Z)
    | false, true => Some (hi, (- j)%Z)
    | false, false => None
    end.

(** Try 1, 2, ... digits; seventeen always suffice for binary64. *)
Fixpoint shortest (x : float) (nd : Z * Z) (k : Z) (p : Z) (fuel : nat)
  : Z * Z :=
  match fuel with
  | O =>
      let (n', d') := scale10 nd (p - 1 - k) in
      (if (2 * (n' mod d') <? d')%Z then n' / d' else n' / d' + 1,
       - (p - 1 - k))%Z
  | S f =>
      match candidate x nd k p with
      | Some c => c
      | None => shortest x nd k (p + 1) f
      end
  end.

(** Drop the trailing zeros of a digit string, counting them. *)
Fixpoint strip_zeros (s : string) : string * Z :=
  match s with
  | EmptyString => ("", 0%Z)
  | String c r =>
      let (r', n) := strip_zeros r in
      match r' with
      | EmptyString =>
          if Ascii.eqb c "0"%char then ("", (n + 1)%Z) else (String c "", n)
      | _ => (String c r', n)
      end
  end.

Definition pad2 (s : string) : string :=
  match s with
  | String c EmptyString => String "0"%char s
  | _ => s
  end.

(** Lay out the digits [ds] of [0.ds * 10^decpt] the way [repr] does:
    scientific notation when [decpt <= -4] or [decpt > 16]; [dot0] asks
    for the [.0] that [float] output carries and [complex] parts do
    not. *)
Definition layout (dot0 : bool) (ds : string) (decpt : Z) : string :=
  let n := Z.of_nat (String.length ds) in
  if ((decpt <=? -4) || (16 <? decpt))%Z then
    let ex := (decpt - 1)%Z in
    match ds with
    | String c r =>
        String c (match r with EmptyString => "" | _ => "." ++ r end)
        ++ "e" ++ (if (ex <? 0)%Z then "-" else "+")
        ++ pad2 (string_of_Z (Z.abs ex))
    | EmptyString => "0"
    end
  else if (decpt <=? 0)%Z then
    "0." ++ repeat_str "0" (Z.to_nat (- decpt)) ++ ds
  else if (n <=? decpt)%Z then
    ds ++ repeat_str "0" (Z.to_nat (decpt - n)) ++ (if dot0 then ".0" else "")
  else
    substring 0 (Z.to_nat decpt) ds ++ "."
    ++ substring (Z.to_nat decpt) (Z.to_nat (n - decpt)) ds.

Definition format_float (dot0 plus : bool) (x : float) : string :=
  match Prim2SF x with
  | S754_nan => (if plus then "+" else "") ++ "nan"
  | S754_infinity s => (if s then "-" else if plus then "+" else "") ++ "inf"
  | S754_zero s =>
      (if s then "-" else if plus then "+" else "")
      ++ "0" ++ (if dot0 then ".0" else "")
  | S754_finite s m e =>
      let nd := fraction_of m e in
      let (d, e10) := shortest (abs x) nd (floor_log10 nd) 1 17 in
      let (ds, z) := strip_zeros (string_of_Z d) in
      (if s then "-" else if plus then "+" else "")
      ++ layout dot0 ds (Z.of_nat (String.length ds) + z + e10)
  end.

(** [str(x)] and [repr(x)] of a float. *)
Definition str_float (x : float) : string := format_float true false x.

End PyFloat.

(** ** Values and exceptions *)

(** What an operation hands back: a float, or the complex number that
    [**] produces for a negative base and a fractional exponent. *)
Inductive pyval : Type :=
| PyFloat (x : float)
| PyComplex (re im : float).

(** [str(v)] *)
Definition str_value (v : pyval) : string :=
  match v with
  | PyFloat x => PyFloat.str_float x
  | PyComplex re im =>
      if is_zero re && negb (get_sign re)
      then PyFloat.format_float false false im ++ "j"
      else "(" ++ PyFloat.format_float false false re
           ++ PyFloat.format_float false true im ++ "j)"
  end.

Inductive exn : Type :=
| ValueError (msg : string)
| RuntimeError (msg : string)
| ZeroDivisionError (msg : string)
| OverflowError (msg : string)
| KeyError (key : string).

(** [str(e)] *)
Definition str_exn (e : exn) : string :=
  match e with
  | ValueError m | RuntimeError m | ZeroDivisionError m | OverflowError m => m
  | KeyError k => PyStr.repr_str k
  end.

(** [float(tok)], raising as Python does. *)
Definition float_of_token (tok : string) : exn + float :=
  match PyFloat.float_of_string tok with
  | Some x => inr x
  | None =>
      inl (ValueError ("could not convert string to float: "
                       ++ PyStr.repr_str tok))
  end.

(** A function to put in the place of the parameter [float_pow] when a
    statement of the development below is read at a concrete input.
    It is not [operator.pow]: for a natural exponent below 1024 it is
    the repeated product, which is the power where the product is exact
    (as for [2 ** 3] and [8 ** 2]) and may differ from it in the last
    place, or at an overflow, elsewhere; for any other exponent it is
    [nan].  No general statement is about it. *)
Fixpoint product_pow (x : float) (n : nat) : float :=
  match n with
  | O => 1%float
  | S k => (product_pow x k * x)%float
  end.

Definition small_nat_of_float (y : float) : option nat :=
  match Prim2SF y with
  | S754_zero _ => Some O
  | S754_finite false m e =>
      if ((0 <=? e) && (Zpos m * 2 ^ e <? 1024))%Z
      then Some (Z.to_nat (Zpos m * 2 ^ e))
      else if ((e <? 0) && (-53 <? e)
               && (Zpos m mod 2 ^ (- e) =? 0)
               && (Zpos m / 2 ^ (- e) <? 1024))%Z
      then Some (Z.to_nat (Zpos m / 2 ^ (- e)))
      else None
  | _ => None
  end.

Definition repeated_product_pow (x y : float) : exn + pyval :=
  match small_nat_of_float y with
  | Some n => inr (PyFloat (product_pow x n))
  | None => inr (PyFloat nan)
  end.

(** ** Regular-expression scan: [re.findall] *)

(** One match of [(\d+\.?\d*|\+|\-|\*\*|\*|\/|\(|\))] at the head of
    an ASCII string [s], where [\d] is [0] to [9]: the matched text and
    what follows it.  The alternatives are tried in the order written;
    the numeral is greedy. *)
Definition match_token (s : string) : option (string * string) :=
  match s with
  | EmptyString => None
  | String c r =>
      if PyStr.is_digit c then
        let (ip, r1) := PyFloat.span_digits s in
        match r1 with
        | String c1 r2 =>
            if Ascii.eqb c1 "."%char then
              let (fp, r3) := PyFloat.span_digits r2 in
              Some (ip ++ "." ++ fp, r3)
            else Some (ip, r1)
        | EmptyString => Some (ip, r1)
        end
      else if Ascii.eqb c "+"%char then Some ("+", r)
      else if Ascii.eqb c "-"%char then Some ("-", r)
      else if Ascii.eqb c "*"%char then
        match r with
        | String c1 r' =>
            if Ascii.eqb c1 "*"%char then Some ("**", r') else Some ("*", r)
        | EmptyString => Some ("*", r)
        end
      else if Ascii.eqb c "/"%char then Some ("/", r)
      else if Ascii.eqb c "("%char then Some ("(", r)
      else if Ascii.eqb c ")"%char then Some (")", r)
      else None
  end.

(** [re.findall(pattern, s)]: the matches from left to right; a
    character at which nothing matches is passed over. *)
Fixpoint findall_from (fuel : nat) (s : string) : list string :=
  match fuel with
  | O => []
  | S f =>
      match s with
      | EmptyString => []
      | String _ r =>
          match match_token s with
          | Some (tok, rest) => tok :: findall_from f rest
          | None => findall_from f r
          end
      end
  end.

Definition findall (s : string) : list string :=
  findall_from (String.length s) s.

(** ** Messages and the broker *)

Inductive Content : Type :=
| Operands (operand1 operand2 : float)   (* {'operands': (a, b)} *)
| Result (result : pyval).               (* {'result': r} *)

(** [timestamp] is always [None] and left out. *)
Record Message : Type := {
  sender : string;
  receiver : string;
  content : Content;
  msg_type : string
}.

Record MessageBroker : Type := {
  message_queue : list Message;
  message_history : list Message;
  log_enabled : bool
}.

(** ** The model: broker, log and agents *)

(** The five [OperationAgent] subclasses.  What their constructors fix
    ([unique_id], [operation_name], [symbol], [operation_func]) is a
    function of the class; what changes is [operations_performed]. *)
Inductive AgentClass : Type :=
| SumaAgent | RestaAgent | MultiplicacionAgent | DivisionAgent | PotenciaAgent.

Record OperationAgent : Type := { operations_performed : nat }.

(** [result_attr] is the attribute [self.result]. *)
Record IOAgent : Type := {
  current_expression : option string;
  result_attr : option float;
  processing : bool
}.

Record CalculatorModel : Type := {
  broker : MessageBroker;
  log_messages : list string;
  suma_agent : OperationAgent;
  resta_agent : OperationAgent;
  multiplicacion_agent : OperationAgent;
  division_agent : OperationAgent;
  potencia_agent : OperationAgent;
  io_agent : IOAgent
}.

Definition unique_id (a : AgentClass) : string :=
  match a with
  | SumaAgent => "suma_agent"
  | RestaAgent => "resta_agent"
  | MultiplicacionAgent => "multiplicacion_agent"
  | DivisionAgent => "division_agent"
  | PotenciaAgent => "potencia_agent"
  end.

Definition operation_name (a : AgentClass) : string :=
  match a with
  | SumaAgent => "SUMA"
  | RestaAgent => "RESTA"
  | MultiplicacionAgent => "MULTIPLICACIÓN"
  | DivisionAgent => "DIVISIÓN"
  | PotenciaAgent => "POTENCIA"
  end.

Definition symbol (a : AgentClass) : string :=
  match a with
  | SumaAgent => "+"
  | RestaAgent => "-"
  | MultiplicacionAgent => "*"
  | DivisionAgent => "/"
  | PotenciaAgent => "**"
  end.

Definition io_agent_id : string := "io_agent".

Definition agent (a : AgentClass) (m : CalculatorModel) : OperationAgent :=
  match a with
  | SumaAgent => suma_agent m
  | RestaAgent => resta_agent m
  | MultiplicacionAgent => multiplicacion_agent m
  | DivisionAgent => division_agent m
  | PotenciaAgent => potencia_agent m
  end.

Definition set_agent (a : AgentClass) (o : OperationAgent)
  (m : CalculatorModel) : CalculatorModel :=
  match a with
  | SumaAgent =>
      Build_CalculatorModel (broker m) (log_messages m) o (resta_agent m)
        (multiplicacion_agent m) (division_agent m) (potencia_agent m)
        (io_agent m)
  | RestaAgent =>
      Build_CalculatorModel (broker m) (log_messages m) (suma_agent m) o
        (multiplicacion_agent m) (division_agent m) (potencia_agent m)
        (io_agent m)
  | MultiplicacionAgent =>
      Build_CalculatorModel (broker m) (log_messages m) (suma_agent m)
        (resta_agent m) o (division_agent m) (potencia_agent m) (io_agent m)
  | DivisionAgent =>
      Build_CalculatorModel (broker m) (log_messages m) (suma_agent m)
        (resta_agent m) (multiplicacion_agent m) o (potencia_agent m)
        (io_agent m)
  | PotenciaAgent =>
      Build_CalculatorModel (broker m) (log_messages m) (suma_agent m)
        (resta_agent m) (multiplicacion_agent m) (division_agent m) o
        (io_agent m)
  end.

Definition set_broker (b : MessageBroker) (m : CalculatorModel)
  : CalculatorModel :=
  Build_CalculatorModel b (log_messages m) (suma_agent m) (resta_agent m)
    (multiplicacion_agent m) (division_agent m) (potencia_agent m)
    (io_agent m).

Definition set_log_messages (l : list string) (m : CalculatorModel)
  : CalculatorModel :=
  Build_CalculatorModel (broker m) l (suma_agent m) (resta_agent m)
    (multiplicacion_agent m) (division_agent m) (potencia_agent m)
    (io_agent m).

Definition set_io_agent (io : IOAgent) (m : CalculatorModel)
  : CalculatorModel :=
  Build_CalculatorModel (broker m) (log_messages m) (suma_agent m)
    (resta_agent m) (multiplicacion_agent m) (division_agent m)
    (potencia_agent m) io.

(** [CalculatorModel.__init__] *)
Definition CalculatorModel_init : CalculatorModel := {|
  broker := {| message_queue := []; message_history := [];
               log_enabled := true |};
  log_messages := [];
  suma_agent := {| operations_performed := 0 |};
  resta_agent := {| operations_performed := 0 |};
  multiplicacion_agent := {| operations_performed := 0 |};
  division_agent := {| operations_performed := 0 |};
  potencia_agent := {| operations_performed := 0 |};
  io_agent := {| current_expression := None; result_attr := None;
                 processing := false |}
|}.

(** ** Computations on the model

    A method is a function of the model that yields a returned value or
    a raised exception, and the model as it left it.  [OutOfFuel] is
    not a Python outcome: it marks a loop of the embedding that was cut
    short, and is shown below never to come out of [calculate]. *)

Inductive outcome (A : Type) : Type :=
| Return (a : A)
| Raise (e : exn)
| OutOfFuel.
Arguments Return {A} a.
Arguments Raise {A} e.
Arguments OutOfFuel {A}.

Definition M (A : Type) : Type := CalculatorModel -> outcome A * CalculatorModel.

Definition ret {A} (a : A) : M A := fun m => (Return a, m).
Definition raise {A} (e : exn) : M A := fun m => (Raise e, m).
Definition out_of_fuel {A} : M A := fun m => (OutOfFuel, m).

Definition bind {A B} (c : M A) (k : A -> M B) : M B :=
  fun m =>
    match c m with
    | (Return a, m') => k a m'
    | (Raise e, m') => (Raise e, m')
    | (OutOfFuel, m') => (OutOfFuel, m')
    end.

(** [try: c  except Exception as e: h(e)] *)
Definition try_except {A} (c : M A) (h : exn -> M A) : M A :=
  fun m =>
    match c m with
    | (Raise e, m') => h e m'
    | r => r
    end.

(** [try: c  finally: f] *)
Definition try_finally {A} (c : M A) (f : CalculatorModel -> CalculatorModel)
  : M A :=
  fun m => let (r, m') := c m in (r, f m').

Definition modify (f : CalculatorModel -> CalculatorModel) : M unit :=
  fun m => (Return tt, f m).

Definition lift {A} (r : exn + A) : M A :=
  match r with
  | inl e => raise e
  | inr a => ret a
  end.

Declare Scope calc_scope.
Delimit Scope calc_scope with calc.
Notation "x <- c ;; k" := (bind c (fun x => k))
  (at level 61, c at next level, right associativity) : calc_scope.
Notation "c ;;; k" := (bind c (fun _ => k))
  (at level 61, right associativity) : calc_scope.
Open Scope calc_scope.

(** ** [MessageBroker] *)

Definition in_list (x : string) (l : list string) : bool :=
  existsb (String.eqb x) l.

Definition send_message (msg : Message) : M unit :=
  modify (fun m =>
    let b := broker m in
    set_broker
      {| message_queue := message_queue b ++ [msg];
         message_history :=
           if log_enabled b then message_history b ++ [msg]
           else message_history b;
         log_enabled := log_enabled b |} m).

Definition get_messages_for (agent_id : string) : M (list Message) :=
  fun m =>
    let b := broker m in
    (Return (filter (fun x => receiver x =? agent_id) (message_queue b)),
     set_broker
       {| message_queue :=
            filter (fun x => negb (receiver x =? agent_id)) (message_queue b);
          message_history := message_history b;
          log_enabled := log_enabled b |} m).

Definition clear_history : M unit :=
  modify (fun m =>
    let b := broker m in
    set_broker
      {| message_queue := message_queue b; message_history := [];
         log_enabled := log_enabled b |} m).

(** ** [CalculatorModel] logging *)

Definition add_log (message : string) : M unit :=
  modify (fun m => set_log_messages (log_messages m ++ [message]) m).

Definition clear_logs : M unit := modify (set_log_messages []).

(** ** The tokenizer, [IOAgent.tokenize] *)

Definition fold_context : list string := ["("; "+"; "-"; "*"; "/"; "**"].

(** The condition under which the loop folds the [-] at index [i] into
    the numeral after it. *)
Definition folds_at (tokens : list string) (i : nat) : bool :=
  (nth i tokens "" =? "-")
  && ((i =? 0)%nat || in_list (nth (i - 1) tokens "") fold_context)
  && ((i + 1 <? List.length tokens)%nat
      && PyStr.isdigit (PyStr.remove_char "."%char (nth (i + 1) tokens ""))).

(** The [while i < len(tokens)] loop that builds [processed_tokens]. *)
Fixpoint tokenize_loop (fuel : nat) (tokens : list string) (i : nat)
  (processed_tokens : list string) : list string :=
  match fuel with
  | O => processed_tokens
  | S f =>
      if (i <? List.length tokens)%nat then
        if folds_at tokens i
        then tokenize_loop f tokens (i + 2)
               (processed_tokens ++ ["-" ++ nth (i + 1) tokens ""])
        else tokenize_loop f tokens (i + 1)
               (processed_tokens ++ [nth i tokens ""])
      else processed_tokens
  end.

Definition tokenize (expression : string) : list string :=
  let tokens := findall expression in
  tokenize_loop (List.length tokens) tokens 0 [].

(** ** Token-list surgery used by the evaluator *)

(** [l[a:b]] for [0 <= a]. *)
Definition slice (a b : nat) (l : list string) : list string :=
  firstn (b - a) (skipn a l).

(** The scan for the last ["("]: [start] after the [for] loop. *)
Fixpoint last_open (tokens : list string) (i : nat) (start : option nat)
  : option nat :=
  match tokens with
  | [] => start
  | t :: r => last_open r (S i) (if t =? "(" then Some i else start)
  end.

(** The scan for the first [")"] among [l], whose head has index [i]. *)
Fixpoint first_close (l : list string) (i : nat) : option nat :=
  match l with
  | [] => None
  | t :: r => if t =? ")" then Some i else first_close r (S i)
  end.

Definition operator_map (operator : string) : option string :=
  if operator =? "+" then Some "suma_agent"
  else if operator =? "-" then Some "resta_agent"
  else if operator =? "*" then Some "multiplicacion_agent"
  else if operator =? "/" then Some "division_agent"
  else if operator =? "**" then Some "potencia_agent"
  else None.

(** [schedule._agents.get(agent_id)], the scheduler's dictionary from
    identifier to agent: an operation agent ([Some]), the IO agent
    ([None] inside), or no agent at all. *)
Definition schedule_agents_get (agent_id : string)
  : option (option AgentClass) :=
  if agent_id =? "suma_agent" then Some (Some SumaAgent)
  else if agent_id =? "resta_agent" then Some (Some RestaAgent)
  else if agent_id =? "multiplicacion_agent" then Some (Some MultiplicacionAgent)
  else if agent_id =? "division_agent" then Some (Some DivisionAgent)
  else if agent_id =? "potencia_agent" then Some (Some PotenciaAgent)
  else if agent_id =? "io_agent" then Some None
  else None.

Section Calculator.

(** [operator.pow] on two floats is the C library's [pow] behind
    CPython's case analysis: a float, a complex number, or a
    [ZeroDivisionError] or [OverflowError].  The development holds for
    whatever it computes. *)
Variable float_pow : float -> float -> exn + pyval.

(** ** [OperationAgent] *)

Definition safe_div (a b : float) : exn + pyval :=
  if (b =? 0)%float
  then inl (ValueError "División por cero no permitida")
  else inr (PyFloat (a / b)%float).

Definition operation_func (a : AgentClass) (x y : float) : exn + pyval :=
  match a with
  | SumaAgent => inr (PyFloat (x + y)%float)
  | RestaAgent => inr (PyFloat (x - y)%float)
  | MultiplicacionAgent => inr (PyFloat (x * y)%float)
  | DivisionAgent => safe_div x y
  | PotenciaAgent => float_pow x y
  end.

Definition perform_operation (self : AgentClass) (operand1 operand2 : float)
  : M pyval :=
  try_except
    (result <- lift (operation_func self operand1 operand2) ;;
     modify (fun m =>
       set_agent self
         {| operations_performed := operations_performed (agent self m) + 1 |}
         m) ;;;
     add_log ("[" ++ operation_name self ++ "] "
              ++ PyFloat.str_float operand1 ++ " " ++ symbol self ++ " "
              ++ PyFloat.str_float operand2 ++ " = " ++ str_value result) ;;;
     ret result)
    (fun e =>
       add_log ("[" ++ operation_name self ++ "] Error: " ++ str_exn e) ;;;
       raise e).

(** The body of [for msg in messages] in [OperationAgent.step]. *)
Fixpoint step_messages (self : AgentClass) (messages : list Message) : M unit :=
  match messages with
  | [] => ret tt
  | msg :: rest =>
      (if msg_type msg =? "operation" then
         match content msg with
         | Operands operand1 operand2 =>
             result <- perform_operation self operand1 operand2 ;;
             send_message {| sender := unique_id self;
                             receiver := sender msg;
                             content := Result result;
                             msg_type := "result" |}
         | Result _ => raise (KeyError "operands")
         end
       else ret tt) ;;;
      step_messages self rest
  end.

Definition step (self : AgentClass) : M unit :=
  messages <- get_messages_for (unique_id self) ;;
  step_messages self messages.

(** ** [IOAgent] *)

Definition request_operation (operator : string) (operand1 operand2 : float)
  : M pyval :=
  match operator_map operator with
  | None => raise (ValueError ("Operador no soportado: " ++ operator))
  | Some agent_id =>
      send_message {| sender := io_agent_id;
                      receiver := agent_id;
                      content := Operands operand1 operand2;
                      msg_type := "operation" |} ;;;
      add_log ("[IO] → Enviando a " ++ agent_id ++ ": "
               ++ PyFloat.str_float operand1 ++ " " ++ operator ++ " "
               ++ PyFloat.str_float operand2) ;;;
      match schedule_agents_get agent_id with
      | Some (Some a) => step a
      | Some None => ret tt          (* IOAgent.step: pass *)
      | None => ret tt
      end ;;;
      response <- get_messages_for io_agent_id ;;
      match response with
      | r0 :: _ =>
          match content r0 with
          | Result result =>
              add_log ("[IO] ← Recibido de " ++ agent_id ++ ": "
                       ++ str_value result) ;;;
              ret result
          | Operands _ _ => raise (KeyError "result")
          end
      | [] =>
          raise (RuntimeError
                   ("No se recibió respuesta del agente " ++ agent_id))
      end
  end.

(** The [while i < len(tokens)] loop of [evaluate_operator], entered at
    index [i]. *)
Fixpoint evaluate_operator_from (fuel : nat) (tokens operators : list string)
  (i : nat) : M (list string) :=
  if (i <? List.length tokens)%nat then
    match fuel with
    | O => out_of_fuel
    | S f =>
        let tok := nth i tokens "" in
        if in_list tok operators then
          if ((i =? 0) || (i =? List.length tokens - 1))%nat then
            raise (ValueError ("Operador " ++ tok ++ " en posición inválida"))
          else
            operand1 <- lift (float_of_token (nth (i - 1) tokens "")) ;;
            operand2 <- lift (float_of_token (nth (i + 1) tokens "")) ;;
            result <- request_operation tok operand1 operand2 ;;
            evaluate_operator_from f
              (firstn (i - 1) tokens ++ [str_value result]
               ++ skipn (i + 2) tokens)
              operators i
        else evaluate_operator_from f tokens operators (i + 1)
    end
  else ret tokens.

Definition evaluate_operator (tokens operators : list string)
  : M (list string) :=
  evaluate_operator_from (List.length tokens) tokens operators 0.

(** The three tiers and the final check of [evaluate_expression], after
    the parentheses are gone. *)
Definition evaluate_tiers (tokens : list string) : M float :=
  tokens <- evaluate_operator tokens ["**"] ;;
  tokens <- evaluate_operator tokens ["*"; "/"] ;;
  tokens <- evaluate_operator tokens ["+"; "-"] ;;
  match tokens with
  | [t] => lift (float_of_token t)
  | _ =>
      raise (ValueError ("Error en evaluación: tokens restantes = "
                         ++ PyStr.repr_list tokens))
  end.

(** [evaluate_expression] and [handle_parentheses] call each other; the
    fuel bounds the nesting of the calls and the passes of the
    [while '(' in tokens] loop together. *)
Fixpoint evaluate_expression_fuel (fuel : nat) (tokens : list string)
  : M float :=
  match fuel with
  | O => out_of_fuel
  | S f =>
      tokens <- handle_parentheses_fuel f tokens ;;
      evaluate_tiers tokens
  end
with handle_parentheses_fuel (fuel : nat) (tokens : list string)
  : M (list string) :=
  if in_list "(" tokens then
    match fuel with
    | O => out_of_fuel
    | S f =>
        match last_open tokens 0 None with
        | None => ret tokens
        | Some start =>
            match first_close (skipn (start + 1) tokens) (start + 1) with
            | None => raise (ValueError "Paréntesis no balanceados")
            | Some end_ =>
                let sub_tokens := slice (start + 1) end_ tokens in
                add_log ("[IO] Evaluando paréntesis: "
                         ++ PyStr.join " " sub_tokens) ;;;
                result <- evaluate_expression_fuel f sub_tokens ;;
                handle_parentheses_fuel f
                  (firstn start tokens ++ [PyFloat.str_float result]
                   ++ skipn (end_ + 1) tokens)
            end
        end
    end
  else ret tokens.

Definition expression_fuel (tokens : list string) : nat :=
  2 * List.length tokens + 2.

Definition evaluate_expression (tokens : list string) : M float :=
  evaluate_expression_fuel (expression_fuel tokens) tokens.

Definition handle_parentheses (tokens : list string) : M (list string) :=
  handle_parentheses_fuel (expression_fuel tokens) tokens.

Definition set_io (f : IOAgent -> IOAgent) : M unit :=
  modify (fun m => set_io_agent (f (io_agent m)) m).

Definition process_expression (expression : string) : M float :=
  set_io (fun io => {| current_expression := Some expression;
                       result_attr := result_attr io;
                       processing := true |}) ;;;
  add_log (PyStr.newline ++ PyStr.repeat_str "=" 60) ;;;
  add_log ("[IO] Nueva expresión: " ++ expression) ;;;
  add_log (PyStr.repeat_str "=" 60) ;;;
  try_finally
    (try_except
       (let expression := PyStr.remove_char " "%char expression in
        let tokens := tokenize expression in
        add_log ("[IO] Tokens: " ++ PyStr.repr_list tokens) ;;;
        result <- evaluate_expression tokens ;;
        set_io (fun io => {| current_expression := current_expression io;
                             result_attr := Some result;
                             processing := processing io |}) ;;;
        add_log ("[IO] ✓ Resultado final: " ++ PyFloat.str_float result) ;;;
        add_log (PyStr.repeat_str "=" 60 ++ PyStr.newline) ;;;
        ret result)
       (fun e =>
          add_log ("[IO] ✗ Error al procesar expresión: " ++ str_exn e) ;;;
          set_io (fun io => {| current_expression := current_expression io;
                               result_attr := None;
                               processing := processing io |}) ;;;
          raise e))
    (fun m => set_io_agent
                {| current_expression := current_expression (io_agent m);
                   result_attr := result_attr (io_agent m);
                   processing := false |} m).

(** ** [CalculatorModel] *)

Definition calculate (expression : string) : M float :=
  clear_logs ;;;
  clear_history ;;;
  process_expression expression.

Definition get_statistics (m : CalculatorModel) : list (string * nat) :=
  [ ("Sumas", operations_performed (suma_agent m));
    ("Restas", operations_performed (resta_agent m));
    ("Multiplicaciones", operations_performed (multiplicacion_agent m));
    ("Divisiones", operations_performed (division_agent m));
    ("Potencias", operations_performed (potencia_agent m)) ].

Definition reset_statistics (m : CalculatorModel) : CalculatorModel :=
  set_agent SumaAgent {| operations_performed := 0 |}
    (set_agent RestaAgent {| operations_performed := 0 |}
       (set_agent MultiplicacionAgent {| operations_performed := 0 |}
          (set_agent DivisionAgent {| operations_performed := 0 |}
             (set_agent PotenciaAgent {| operations_performed := 0 |} m)))).

(** What [evaluate(expression)] gives on a fresh calculator. *)
Definition evaluate (expression : string) : outcome float :=
  fst (calculate expression CalculatorModel_init).

(** ** The tokenizer's fold, in the words of its description

    A second definition, independent of the loop above, to compare the
    loop with: a [-] token is folded into the following numeral when it
    appears at position 0 or immediately after another operator or [(],
    and the following token is purely numeric. *)

Definition is_operator (t : string) : bool :=
  in_list t ["+"; "-"; "*"; "/"; "**"].

Fixpoint has_digit (s : string) : bool :=
  match s with
  | EmptyString => false
  | String c r => PyStr.is_digit c || has_digit r
  end.

Fixpoint digits_and_points (s : string) : bool :=
  match s with
  | EmptyString => true
  | String c r => (PyStr.is_digit c || Ascii.eqb c "."%char) && digits_and_points r
  end.

(** Digits and decimal points only, with a digit among them. *)
Definition purely_numeric (t : string) : bool :=
  has_digit t && digits_and_points t.

Definition minus_folds (tokens : list string) (i : nat) : bool :=
  match nth_error tokens i, nth_error tokens (i + 1) with
  | Some t, Some n =>
      (t =? "-")
      && ((i =? 0)%nat
          || match nth_error tokens (i - 1) with
             | Some p => is_operator p || (p =? "(")
             | None => false
             end)
      && purely_numeric n
  | _, _ => false
  end.

(** What index [i] of the raw token list contributes to the result: the
    folded literal, nothing (the numeral was taken by the fold before
    it), or the token itself. *)
Definition folded_output (tokens : list string) (i : nat) : list string :=
  if minus_folds tokens i then ["-" ++ nth (i + 1) tokens ""]
  else if (0 <? i)%nat && minus_folds tokens (i - 1) then []
  else [nth i tokens ""].

(** An ASCII character the pattern has no use for: not a digit, a
    decimal point, an operator character or a parenthesis. *)
Definition unrecognized (c : ascii) : bool :=
  PyStr.is_ascii_char c
  && negb (PyStr.is_digit c
           || existsb (Ascii.eqb c)
                ["."%char; "+"%char; "-"%char; "*"%char; "/"%char; "("%char;
                 ")"%char]).

(** The token list after folding, index by index. *)
Definition fold_minus (tokens : list string) : list string :=
  flat_map (folded_output tokens) (seq 0 (List.length tokens)).

(** ** Reading the effects: dispatches, exchanges, counts *)

Open Scope list_scope.

(** One operation carried out for the IO agent. *)
Record Dispatch : Type := {
  d_agent : AgentClass;
  d_operand1 : float;
  d_operand2 : float;
  d_result : pyval
}.

(** The [Operation] message [request_operation] sends ... *)
Definition request_of (a : AgentClass) (x y : float) : Message :=
  {| sender := io_agent_id; receiver := unique_id a;
     content := Operands x y; msg_type := "operation" |}.

(** ... and the [Result] message [step] answers with. *)
Definition response_of (a : AgentClass) (r : pyval) : Message :=
  {| sender := unique_id a; receiver := io_agent_id;
     content := Result r; msg_type := "result" |}.

Definition exchange (d : Dispatch) : list Message :=
  [ request_of (d_agent d) (d_operand1 d) (d_operand2 d);
    response_of (d_agent d) (d_result d) ].

Definition exchanges (tr : list Dispatch) : list Message :=
  flat_map exchange tr.

Definition agent_eqb (a b : AgentClass) : bool :=
  match a, b with
  | SumaAgent, SumaAgent | RestaAgent, RestaAgent
  | MultiplicacionAgent, MultiplicacionAgent
  | DivisionAgent, DivisionAgent | PotenciaAgent, PotenciaAgent => true
  | _, _ => false
  end.

(** How many dispatches of a trace went to agent [a]. *)
Definition count_agent (a : AgentClass) (tr : list Dispatch) : nat :=
  List.length (filter (fun d => agent_eqb a (d_agent d)) tr).

(** How many tokens of a list are the operator of agent [a]. *)
Definition count_symbol (a : AgentClass) (tokens : list string) : nat :=
  List.length (filter (String.eqb (symbol a)) tokens).

(** How many [Result] messages of a history agent [a] sent. *)
Definition count_results (a : AgentClass) (h : list Message) : nat :=
  List.length
    (filter (fun x => (msg_type x =? "result") && (sender x =? unique_id a)) h).

(** A trace entry is sound when its result is what the agent's function
    returns on its operands. *)
Definition sound (d : Dispatch) : Prop :=
  operation_func (d_agent d) (d_operand1 d) (d_operand2 d)
  = inr (d_result d).

(** Between two requests the queue is empty, and the history is on. *)
Definition idle (m : CalculatorModel) : Prop :=
  message_queue (broker m) = [] /\ log_enabled (broker m) = true.

(** From [m] to [m']: the dispatches [tr] were completed and logged as
    exchanges, then [tl] (nothing, or a request left unanswered) was
    logged; every counter rose by its share of [tr]. *)
Definition advances (m : CalculatorModel) (tr : list Dispatch)
  (tl : list Message) (m' : CalculatorModel) : Prop :=
  idle m'
  /\ message_history (broker m')
     = message_history (broker m) ++ exchanges tr ++ tl
  /\ forall a, operations_performed (agent a m')
               = operations_performed (agent a m) + count_agent a tr.

(** A computation that, from any idle model, ends with [out] after
    the effects [tr], [tl]. *)
Definition behaves {A} (c : M A) (out : outcome A) (tr : list Dispatch)
  (tl : list Message) : Prop :=
  forall m, idle m -> exists m', c m = (out, m') /\ advances m tr tl m'.

(** What an exception may leave at the end of the history: nothing, or
    the request whose operation raised it. *)
Definition interrupted (e : exn) (tl : list Message) : Prop :=
  tl = []
  \/ exists a x y, tl = [request_of a x y] /\ operation_func a x y = inl e.

(** Characters that no operator or parenthesis token contains. *)
Definition is_word_char (c : ascii) : bool :=
  PyStr.is_digit c || Ascii.eqb c "."%char
  || ((97 <=? nat_of_ascii c) && (nat_of_ascii c <=? 122))%nat.

Fixpoint has_word_char (s : string) : bool :=
  match s with
  | EmptyString => false
  | String c r => is_word_char c || has_word_char r
  end.

(** What a pass of a tier leaves, in terms of its trace: on return the
    operator tokens that went are the dispatches that were made, one
    three-token window (two tokens fewer) each; an exception leaves at
    most an unanswered request. *)
Definition tier_post (tokens : list string) (out : outcome (list string))
  (tr : list Dispatch) (tl : list Message) : Prop :=
  Forall sound tr
  /\ match out with
     | Return tokens' =>
         tl = []
         /\ (forall a, count_symbol a tokens
                       = count_symbol a tokens' + count_agent a tr)
         /\ List.length tokens = List.length tokens' + 2 * List.length tr
     | Raise e => interrupted e tl
     | OutOfFuel => False
     end.

(** The same for a whole (sub-)expression, which returns a number. *)
Definition expression_post (tokens : list string) (out : outcome float)
  (tr : list Dispatch) (tl : list Message) : Prop :=
  Forall sound tr
  /\ match out with
     | Return _ =>
         tl = [] /\ forall a, count_symbol a tokens = count_agent a tr
     | Raise e => interrupted e tl
     | OutOfFuel => False
     end.

(** What [handle_parentheses] leaves: the operator tokens it consumed
    are the dispatches it made. *)
Definition paren_post (tokens : list string) (out : outcome (list string))
  (tr : list Dispatch) (tl : list Message) : Prop :=
  Forall sound tr
  /\ match out with
     | Return tokens' =>
         tl = []
         /\ forall a, count_symbol a tokens
                      = count_symbol a tokens' + count_agent a tr
     | Raise e => interrupted e tl
     | OutOfFuel => False
     end.

(** A computation that touches neither the broker nor the agents. *)
Definition quiet {A} (c : M A) (out : outcome A) : Prop :=
  forall m, exists m',
    c m = (out, m') /\ broker m' = broker m
    /\ forall a, agent a m' = agent a m.

(** The operations a history shows were asked for, in order: who was
    asked, and the operands. *)
Definition operations_requested (h : list Message)
  : list (string * float * float) :=
  flat_map (fun x =>
              match content x with
              | Operands a b => [(receiver x, a, b)]
              | Result _ => []
              end) h.

(** The models a session goes through: the initial one, and what
    [calculate] and [reset_statistics] make of a model. *)
Inductive reachable : CalculatorModel -> Prop :=
| reach_init : reachable CalculatorModel_init
| reach_calculate expression m :
    reachable m -> reachable (snd (calculate expression m))
| reach_reset m : reachable m -> reachable (reset_statistics m).

(** ** The rest of the broker and of the model *)

(** [MessageBroker.clear_queue] *)
Definition clear_queue : M unit :=
  modify (fun m =>
    let b := broker m in
    set_broker
      {| message_queue := []; message_history := message_history b;
         log_enabled := log_enabled b |} m).

(** [MessageBroker.get_history]: a copy of the history. *)
Definition get_history (m : CalculatorModel) : list Message :=
  message_history (broker m).

(** [CalculatorModel.get_logs]: a copy of the log. *)
Definition get_logs (m : CalculatorModel) : list string := log_messages m.

(** [sum(stats.values())], the total the statistics view shows. *)
Definition total_count (stats : list (string * nat)) : nat :=
  fold_right (fun p s => snd p + s) 0 stats.

(** ** Vocabulary for the further properties *)

(** How many tokens of a list are the token [p]. *)
Definition count_token (p : string) (tokens : list string) : nat :=
  List.length (filter (String.eqb p) tokens).

(** How many messages of a history have the type [ty]. *)
Definition count_type (ty : string) (h : list Message) : nat :=
  List.length (filter (fun x => msg_type x =? ty) h).

(** A parenthesis: not an operand, not a result and, in the three tiers,
    not an operator. *)
Definition parenthesis (p : string) : Prop := p = "("%string \/ p = ")"%string.

(** The operator and parenthesis tokens. *)
Definition is_symbol_token (t : string) : bool :=
  in_list t ["+"; "-"; "*"; "/"; "**"; "("; ")"].

(** What the numeral alternative of the pattern matches in full:
    digits, then possibly a point and more digits. *)
Definition is_numeral (t : string) : bool :=
  let (ip, r) := PyFloat.span_digits t in
  negb (ip =? "")%string
  && match r with
     | EmptyString => true
     | String c fp => Ascii.eqb c "."%char && PyStr.all_digits fp
     end.

(** A numeral, or a numeral with the minus sign folded into it. *)
Definition is_number_token (t : string) : bool :=
  is_numeral t
  || match t with
     | String c n => Ascii.eqb c "-"%char && is_numeral n
     | EmptyString => false
     end.

(** A computation that ends (with a value or an exception), only adds
    lines to the log and leaves the IO agent's attributes alone. *)
Definition tidy {A} (c : M A) : Prop :=
  forall m,
    fst (c m) <> OutOfFuel
    /\ (exists l, log_messages (snd (c m)) = log_messages m ++ l)
    /\ io_agent (snd (c m)) = io_agent m.

(** The three lines that open the log of an evaluation, and the line
    with the tokens. *)
Definition log_opening (expression : string) : list string :=
  [ (PyStr.newline ++ PyStr.repeat_str "=" 60)%string;
    ("[IO] Nueva expresión: " ++ expression)%string;
    PyStr.repeat_str "=" 60;
    ("[IO] Tokens: "
     ++ PyStr.repr_list (tokenize (PyStr.remove_char " "%char expression)))%string ].

(** The lines that close it. *)
Definition log_closing (out : outcome float) : list string :=
  match out with
  | Return result =>
      [ ("[IO] ✓ Resultado final: " ++ PyFloat.str_float result)%string;
        (PyStr.repeat_str "=" 60 ++ PyStr.newline)%string ]
  | Raise e => [ ("[IO] ✗ Error al procesar expresión: " ++ str_exn e)%string ]
  | OutOfFuel => []
  end.

(** [float(s)] once the sign is read: the part of [float_literal]
    that follows the split, for stating what it does on numerals. *)
Definition float_of_unsigned (neg : bool) (body : string) : option float :=
  let lb := PyStr.lower body in
  if ((lb =? "inf") || (lb =? "infinity"))%string
  then Some (if neg then neg_infinity else infinity)
  else if (lb =? "nan")%string then Some nan
  else
    let (ip, r1) := PyFloat.span_digits body in
    let (fp, r2) :=
      match r1 with
      | String "."%char r => PyFloat.span_digits r
      | _ => (EmptyString, r1)
      end in
    match (ip ++ fp)%string with
    | EmptyString => None
    | ds =>
        match PyFloat.parse_exponent r2 with
        | Some ex =>
            Some (PyFloat.round_decimal neg (PyFloat.digits_value 0 ds)
                    (ex - Z.of_nat (String.length fp)))
        | None => None
        end
    end.

(** A character [float] neither strips nor drops. *)
Definition kept_char (c : ascii) : bool :=
  negb (PyStr.is_space c) && negb (Ascii.eqb c "_"%char).

Fixpoint kept (s : string) : bool :=
  match s with
  | EmptyString => true
  | String c r => kept_char c && kept r
  end.

(** A [-] token that stands first, or right after an operator or
    ["("]: a unary minus the tokenizer has not folded. *)
Definition unary_at (tokens : list string) (i : nat) : Prop :=
  i < List.length tokens
  /\ nth i tokens "" = "-"
  /\ (i = 0
      \/ (is_operator (nth (i - 1) tokens "")
          || (nth (i - 1) tokens "" =? "("))%string = true).

(** ** The tokenizer *)

Lemma all_digits_remove_point t :
  PyStr.all_digits (PyStr.remove_char "."%char t) = digits_and_points t.
Proof.
  induction t as [|c r IH]; [reflexivity|]. simpl.
  destruct (Ascii.eqb_spec c "."%char) as [-> |Hc].
  - rewrite IH. reflexivity.
  - simpl. rewrite IH. now rewrite orb_false_r.
Qed.

Lemma isdigit_all_digits s :
  PyStr.isdigit s = negb (s =? "")%string && PyStr.all_digits s.
Proof. now destruct s. Qed.

Lemma isdigit_remove_point t :
  PyStr.isdigit (PyStr.remove_char "."%char t) = purely_numeric t.
Proof.
  unfold purely_numeric.
  induction t as [|c r IH]; [reflexivity|].
  simpl PyStr.remove_char. simpl has_digit. simpl digits_and_points.
  destruct (Ascii.eqb_spec c "."%char) as [-> |Hc].
  - rewrite IH. reflexivity.
  - rewrite orb_false_r. unfold PyStr.isdigit.
    change (PyStr.all_digits (String c (PyStr.remove_char "."%char r)))
      with (PyStr.is_digit c && PyStr.all_digits (PyStr.remove_char "."%char r)).
    rewrite all_digits_remove_point.
    destruct (PyStr.is_digit c); [reflexivity|]. simpl.
    now rewrite andb_false_r.
Qed.

Lemma fold_context_spec p :
  in_list p fold_context = is_operator p || (p =? "(").
Proof.
  unfold in_list, fold_context, is_operator. simpl.
  destruct (p =? "("), (p =? "+"), (p =? "-"), (p =? "*"), (p =? "/"),
    (p =? "**"); reflexivity.
Qed.

Lemma nth_error_nth_string (l : list string) i :
  i < List.length l -> nth_error l i = Some (nth i l "").
Proof.
  revert i. induction l as [|t l IH]; intros i H; simpl in H; [lia|].
  destruct i as [|i]; [reflexivity|]. simpl. apply IH. lia.
Qed.

(** The loop's test is the described condition. *)
Lemma folds_at_spec tokens i : folds_at tokens i = minus_folds tokens i.
Proof.
  unfold folds_at, minus_folds.
  destruct (Nat.ltb_spec (i + 1) (List.length tokens)) as [H|H].
  - rewrite (nth_error_nth_string tokens i) by lia.
    rewrite (nth_error_nth_string tokens (i + 1)) by lia.
    rewrite isdigit_remove_point, fold_context_spec.
    destruct (Nat.eqb_spec i 0) as [-> |Hi]; [reflexivity|].
    now rewrite (nth_error_nth_string tokens (i - 1)) by lia.
  - rewrite andb_false_r.
    destruct (nth_error tokens i); [|reflexivity].
    now rewrite (proj2 (nth_error_None tokens (i + 1))) by lia.
Qed.

Lemma numeric_is_not_minus t : purely_numeric t = true -> (t =? "-") = false.
Proof.
  intros H. destruct (String.eqb_spec t "-") as [-> |]; [discriminate|reflexivity].
Qed.

(** The numeral a fold has taken cannot itself start a fold. *)
Lemma no_fold_after_fold tokens i :
  minus_folds tokens i = true -> minus_folds tokens (i + 1) = false.
Proof.
  unfold minus_folds. intros H.
  destruct (nth_error tokens i) as [t|]; [|discriminate].
  destruct (nth_error tokens (i + 1)) as [n|]; [|discriminate].
  apply andb_prop in H. destruct H as [_ H].
  destruct (nth_error tokens (i + 1 + 1)); [|reflexivity].
  now rewrite (numeric_is_not_minus n H).
Qed.

Lemma tokenize_loop_folds tokens fuel :
  forall i acc,
    List.length tokens <= fuel + i ->
    (i = 0 \/ minus_folds tokens (i - 1) = false) ->
    tokenize_loop fuel tokens i acc
    = acc ++ flat_map (folded_output tokens)
               (seq i (List.length tokens - i)).
Proof.
  induction fuel as [|f IH]; intros i acc Hlen Hprev.
  - replace (List.length tokens - i) with 0 by lia. simpl.
    now rewrite app_nil_r.
  - simpl. destruct (Nat.ltb_spec i (List.length tokens)) as [Hi|Hi].
    2:{ replace (List.length tokens - i) with 0 by lia. simpl.
        now rewrite app_nil_r. }
    rewrite folds_at_spec.
    destruct (minus_folds tokens i) eqn:Hfold.
    + assert (Hi1 : i + 1 < List.length tokens).
      { unfold minus_folds in Hfold.
        destruct (nth_error tokens i); [|discriminate].
        destruct (nth_error tokens (i + 1)) eqn:E; [|discriminate].
        apply nth_error_Some. congruence. }
      rewrite IH; [|lia|right; replace (i + 2 - 1) with (i + 1) by lia;
                          now apply no_fold_after_fold].
      replace (List.length tokens - i)
        with (S (S (List.length tokens - (i + 2)))) by lia.
      simpl seq. simpl flat_map.
      unfold folded_output at 2 3. rewrite Hfold.
      replace (S i) with (i + 1) by lia.
      rewrite (no_fold_after_fold tokens i Hfold).
      replace (i + 1 - 1) with i by lia. rewrite Hfold.
      replace (0 <? i + 1)%nat with true by (symmetry; apply Nat.ltb_lt; lia).
      simpl. replace (S (i + 1)) with (i + 2) by lia.
      now rewrite <- app_assoc.
    + rewrite IH; [|lia|right; now replace (i + 1 - 1) with i by lia].
      replace (List.length tokens - i)
        with (S (List.length tokens - (i + 1))) by lia.
      simpl seq. simpl flat_map. unfold folded_output at 2. rewrite Hfold.
      replace (S i) with (i + 1) by lia.
      assert (Hnp : ((0 <? i)%nat && minus_folds tokens (i - 1)) = false).
      { destruct Hprev as [-> | ->]; [reflexivity | apply andb_false_r]. }
      rewrite Hnp. now rewrite <- app_assoc.
Qed.

Lemma tokenize_fold_minus expression :
  tokenize expression = fold_minus (findall expression).
Proof.
  unfold tokenize, fold_minus.
  rewrite tokenize_loop_folds by (lia || now left).
  now rewrite Nat.sub_0_r.
Qed.

(** ** The scan *)

Lemma string_length_app (s t : string) :
  String.length (s ++ t)%string = String.length s + String.length t.
Proof. induction s as [|c s IH]; simpl; [reflexivity | now rewrite IH]. Qed.

Lemma span_digits_length s :
  String.length s
  = String.length (fst (PyFloat.span_digits s))
    + String.length (snd (PyFloat.span_digits s)).
Proof.
  induction s as [|c s IH]; [reflexivity|]. simpl.
  destruct (PyStr.is_digit c); [|reflexivity].
  destruct (PyFloat.span_digits s) as [d r]. simpl in *. now rewrite IH.
Qed.

(** A match takes at least one character. *)
Lemma match_token_shorter s tok rest :
  match_token s = Some (tok, rest) -> String.length rest < String.length s.
Proof.
  destruct s as [|c r]; [discriminate|]. unfold match_token.
  destruct (PyStr.is_digit c) eqn:Hd.
  - pose proof (span_digits_length (String c r)) as Hl.
    destruct (PyFloat.span_digits (String c r)) as [ip r1] eqn:Hsp.
    assert (Hip : 0 < String.length ip).
    { simpl in Hsp. rewrite Hd in Hsp.
      destruct (PyFloat.span_digits r). injection Hsp as <- _. simpl. lia. }
    simpl fst in Hl. simpl snd in Hl.
    destruct r1 as [|c1 r2].
    + intros H. injection H as _ <-. simpl in *. lia.
    + destruct (Ascii.eqb c1 "."%char).
      * pose proof (span_digits_length r2) as Hl2.
        destruct (PyFloat.span_digits r2) as [fp r3]. simpl in Hl2.
        intros H. injection H as _ <-. simpl in *. lia.
      * intros H. injection H as _ <-. simpl in *. lia.
  - repeat match goal with
           | |- (if ?b then _ else _) = _ -> _ => destruct b
           end;
      try discriminate;
      try (intros H; injection H as _ <-; simpl; lia).
    destruct r as [|c1 r2].
    + intros H; injection H as _ <-; simpl; lia.
    + destruct (Ascii.eqb c1 "*"%char);
        intros H; injection H as _ <-; simpl; lia.
Qed.

Lemma findall_from_enough f1 :
  forall f2 s,
    String.length s <= f1 -> String.length s <= f2 ->
    findall_from f1 s = findall_from f2 s.
Proof.
  induction f1 as [|f1 IH]; intros f2 s H1 H2.
  - destruct s; [|simpl in H1; lia]. now destruct f2.
  - destruct f2 as [|f2]; [destruct s; [reflexivity | simpl in H2; lia]|].
    destruct s as [|c r]; [reflexivity|].
    change (findall_from (S f1) (String c r))
      with (match match_token (String c r) with
            | Some (tok, rest) => tok :: findall_from f1 rest
            | None => findall_from f1 r
            end).
    change (findall_from (S f2) (String c r))
      with (match match_token (String c r) with
            | Some (tok, rest) => tok :: findall_from f2 rest
            | None => findall_from f2 r
            end).
    simpl in H1, H2.
    destruct (match_token (String c r)) as [[tok rest]|] eqn:Hm.
    + apply match_token_shorter in Hm. simpl in Hm.
      f_equal. apply IH; lia.
    + apply IH; lia.
Qed.

Lemma span_digits_app s c t :
  PyStr.is_digit c = false ->
  PyFloat.span_digits (s ++ String c t)%string
  = (fst (PyFloat.span_digits s),
     (snd (PyFloat.span_digits s) ++ String c t)%string).
Proof.
  intros Hc. induction s as [|d s IH]; simpl.
  - now rewrite Hc.
  - destruct (PyStr.is_digit d); [|reflexivity].
    rewrite IH. now destruct (PyFloat.span_digits s).
Qed.

Lemma unrecognized_spec c :
  unrecognized c = true ->
  PyStr.is_digit c = false
  /\ Ascii.eqb c "."%char = false /\ Ascii.eqb c "+"%char = false
  /\ Ascii.eqb c "-"%char = false /\ Ascii.eqb c "*"%char = false
  /\ Ascii.eqb c "/"%char = false /\ Ascii.eqb c "("%char = false
  /\ Ascii.eqb c ")"%char = false.
Proof.
  unfold unrecognized. simpl. intros H.
  apply andb_prop in H. destruct H as [_ H]. apply negb_true_iff in H.
  repeat (apply orb_false_iff in H; destruct H as [? H]).
  repeat split; assumption.
Qed.

(** A match never reaches across an unrecognized character. *)
Lemma match_token_app s c t :
  unrecognized c = true ->
  match_token (s ++ String c t)%string
  = match match_token s with
    | Some (tok, rest) => Some (tok, (rest ++ String c t)%string)
    | None => None
    end.
Proof.
  intros Hc.
  destruct (unrecognized_spec c Hc)
    as (Hd & Hpt & Hpl & Hmi & Hst & Hsl & Hop & Hcl).
  destruct s as [|d r].
  - simpl. now rewrite Hd, Hpl, Hmi, Hst, Hsl, Hop, Hcl.
  - change (String d r ++ String c t)%string
      with (String d (r ++ String c t)%string).
    unfold match_token. destruct (PyStr.is_digit d) eqn:Hdd.
    + change (String d (r ++ String c t)%string)
        with (String d r ++ String c t)%string.
      rewrite (span_digits_app _ c t Hd).
      destruct (PyFloat.span_digits (String d r)) as [ip r1].
      simpl fst. simpl snd. destruct r1 as [|c1 r2].
      * simpl. now rewrite Hpt.
      * simpl. destruct (Ascii.eqb c1 "."%char); [|reflexivity].
        rewrite (span_digits_app _ c t Hd).
        now destruct (PyFloat.span_digits r2).
    + repeat match goal with
             | |- (if ?b then _ else _) = _ => destruct b
             end; try reflexivity.
      destruct r as [|c1 r2]; simpl; [now rewrite Hst|].
      now destruct (Ascii.eqb c1 "*"%char).
Qed.

Lemma match_token_unrecognized c t :
  unrecognized c = true -> match_token (String c t) = None.
Proof. intros Hc. exact (match_token_app "" c t Hc). Qed.

Lemma findall_from_step f s :
  findall_from (S f) s
  = match s with
    | EmptyString => []
    | String _ r =>
        match match_token s with
        | Some (tok, rest) => tok :: findall_from f rest
        | None => findall_from f r
        end
    end.
Proof. reflexivity. Qed.

Lemma findall_from_skips c s2 :
  unrecognized c = true ->
  forall n s1,
    String.length s1 <= n ->
    findall_from (n + S (String.length s2)) (s1 ++ String c s2)%string
    = findall_from n s1 ++ findall s2.
Proof.
  intros Hc. induction n as [|n IH]; intros s1 Hn.
  - destruct s1; [|simpl in Hn; lia].
    change (0 + S (String.length s2)) with (S (String.length s2)).
    change ("" ++ String c s2)%string with (String c s2).
    rewrite findall_from_step, (match_token_unrecognized c s2 Hc).
    reflexivity.
  - change (S n + S (String.length s2)) with (S (n + S (String.length s2))).
    rewrite findall_from_step.
    destruct s1 as [|d r].
    + change ("" ++ String c s2)%string with (String c s2).
      rewrite (match_token_unrecognized c s2 Hc). simpl.
      apply findall_from_enough; lia.
    + change (String d r ++ String c s2)%string
        with (String d (r ++ String c s2)%string) at 1.
      cbv iota.
      rewrite (match_token_app _ c s2 Hc), (findall_from_step n (String d r)).
      simpl in Hn.
      destruct (match_token (String d r)) as [[tok rest]|] eqn:Hm.
      * apply match_token_shorter in Hm. simpl in Hm.
        rewrite IH by lia. reflexivity.
      * apply IH. lia.
Qed.

Lemma findall_skips s1 c s2 :
  unrecognized c = true ->
  findall (s1 ++ String c s2)%string = findall s1 ++ findall s2.
Proof.
  intros Hc. unfold findall at 1 2.
  rewrite string_length_app. simpl String.length.
  now apply findall_from_skips.
Qed.

(** ** Basic facts *)

Lemma advances_quiet m m' :
  idle m -> broker m' = broker m -> (forall a, agent a m' = agent a m) ->
  advances m [] [] m'.
Proof.
  intros H Hb Ha. unfold advances, idle. rewrite Hb. split; [exact H|]. split.
  - simpl. now rewrite app_nil_r.
  - intros a. rewrite Ha. unfold count_agent. simpl. lia.
Qed.

Lemma advances_refl m : idle m -> advances m [] [] m.
Proof. intros H. now apply advances_quiet. Qed.

Lemma count_agent_app a tr1 tr2 :
  count_agent a (tr1 ++ tr2) = count_agent a tr1 + count_agent a tr2.
Proof. unfold count_agent. now rewrite filter_app, length_app. Qed.

Lemma count_symbol_app a l1 l2 :
  count_symbol a (l1 ++ l2) = count_symbol a l1 + count_symbol a l2.
Proof. unfold count_symbol. now rewrite filter_app, length_app. Qed.

Lemma count_results_app a h1 h2 :
  count_results a (h1 ++ h2) = count_results a h1 + count_results a h2.
Proof. unfold count_results. now rewrite filter_app, length_app. Qed.

Lemma exchanges_app tr1 tr2 :
  exchanges (tr1 ++ tr2) = exchanges tr1 ++ exchanges tr2.
Proof. unfold exchanges. apply flat_map_app. Qed.

Lemma advances_trans m tr1 m1 tr2 tl m2 :
  advances m tr1 [] m1 -> advances m1 tr2 tl m2 ->
  advances m (tr1 ++ tr2) tl m2.
Proof.
  intros (_ & H1 & C1) (I2 & H2 & C2). split; [exact I2|]. split.
  - rewrite H2, H1, exchanges_app, app_nil_r, !app_assoc. reflexivity.
  - intros a. rewrite C2, C1, count_agent_app. lia.
Qed.

(** *** Rules for [behaves] *)

Lemma behaves_ret {A} (a : A) : behaves (ret a) (Return a) [] [].
Proof. intros m Hm. exists m. split; [reflexivity|]. now apply advances_refl. Qed.

Lemma behaves_raise {A} (e : exn) : behaves (@raise A e) (Raise e) [] [].
Proof. intros m Hm. exists m. split; [reflexivity|]. now apply advances_refl. Qed.

Lemma behaves_bind {A B} (c : M A) (k : A -> M B) a tr1 out tr2 tl :
  behaves c (Return a) tr1 [] -> behaves (k a) out tr2 tl ->
  behaves (bind c k) out (tr1 ++ tr2) tl.
Proof.
  intros Hc Hk m Hm. destruct (Hc m Hm) as (m1 & E1 & A1).
  destruct (Hk m1 (proj1 A1)) as (m2 & E2 & A2).
  exists m2. split.
  - unfold bind. rewrite E1. exact E2.
  - eapply advances_trans; eassumption.
Qed.

Lemma behaves_bind_raise {A B} (c : M A) (k : A -> M B) e tr tl :
  behaves c (Raise e) tr tl -> behaves (bind c k) (Raise e) tr tl.
Proof.
  intros Hc m Hm. destruct (Hc m Hm) as (m1 & E1 & A1).
  exists m1. split; [|exact A1]. unfold bind. now rewrite E1.
Qed.

Lemma behaves_bind_out_of_fuel {A B} (c : M A) (k : A -> M B) tr tl :
  behaves c OutOfFuel tr tl -> behaves (bind c k) OutOfFuel tr tl.
Proof.
  intros Hc m Hm. destruct (Hc m Hm) as (m1 & E1 & A1).
  exists m1. split; [|exact A1]. unfold bind. now rewrite E1.
Qed.

(** A change of the log or of the IO agent's attributes is invisible to
    the broker and the counters. *)
Lemma behaves_add_log s : behaves (add_log s) (Return tt) [] [].
Proof.
  intros m Hm. eexists. split; [reflexivity|].
  apply advances_quiet; [exact Hm | reflexivity | now intros []].
Qed.

Lemma behaves_set_io f : behaves (set_io f) (Return tt) [] [].
Proof.
  intros m Hm. eexists. split; [reflexivity|].
  apply advances_quiet; [exact Hm | reflexivity | now intros []].
Qed.

Lemma behaves_lift {A} (r : exn + A) :
  behaves (lift r)
    (match r with inl e => Raise e | inr a => Return a end) [] [].
Proof. destruct r; [apply behaves_raise | apply behaves_ret]. Qed.

Lemma behaves_bind_lift {A B} (a : A) (k : A -> M B) out tr tl :
  behaves (k a) out tr tl -> behaves (bind (lift (inr a)) k) out tr tl.
Proof. intros H. exact (behaves_bind _ _ a [] out tr tl (behaves_ret a) H). Qed.

(** *** The operator table *)

Lemma operator_map_symbol a : operator_map (symbol a) = Some (unique_id a).
Proof. destruct a; reflexivity. Qed.

Lemma operator_map_inv op id :
  operator_map op = Some id -> exists a, op = symbol a /\ id = unique_id a.
Proof.
  unfold operator_map. intros H.
  destruct (String.eqb_spec op "+");
    [exists SumaAgent; split; [assumption | now inversion H]|].
  destruct (String.eqb_spec op "-");
    [exists RestaAgent; split; [assumption | now inversion H]|].
  destruct (String.eqb_spec op "*");
    [exists MultiplicacionAgent; split; [assumption | now inversion H]|].
  destruct (String.eqb_spec op "/");
    [exists DivisionAgent; split; [assumption | now inversion H]|].
  destruct (String.eqb_spec op "**");
    [exists PotenciaAgent; split; [assumption | now inversion H]|].
  discriminate.
Qed.

Lemma schedule_agents_get_id a :
  schedule_agents_get (unique_id a) = Some (Some a).
Proof. destruct a; reflexivity. Qed.

(** *** One request, one answer *)

Local Opaque String.append PyFloat.str_float str_value operation_func.

(** Runs [request_operation (symbol a) x y] on an idle model up to the
    call of the agent's function, whose value [Hf] gives. *)
Ltac run_request a Hf :=
  unfold request_operation; rewrite operator_map_symbol;
  unfold bind at 1;
  cbn [send_message modify set_broker broker message_queue
    message_history log_enabled log_messages suma_agent resta_agent
    multiplicacion_agent division_agent potencia_agent io_agent app];
  unfold bind at 1;
  cbn [add_log modify set_log_messages broker message_queue
    message_history log_enabled log_messages suma_agent resta_agent
    multiplicacion_agent division_agent potencia_agent io_agent];
  rewrite schedule_agents_get_id;
  destruct a;
    cbv -[String.append PyFloat.str_float str_value str_exn operation_func app Nat.add];
    rewrite Hf;
    cbv -[String.append PyFloat.str_float str_value str_exn operation_func app Nat.add].

Lemma request_operation_returns a x y r :
  operation_func a x y = inr r ->
  behaves (request_operation (symbol a) x y) (Return r)
    [ {| d_agent := a; d_operand1 := x; d_operand2 := y; d_result := r |} ]
    [].
Proof.
  intros Hf m [Hq Hl].
  destruct m as [[q h le] lg sa ra ma da pa io]. simpl in Hq, Hl. subst q le.
  run_request a Hf;
    (eexists; split; [reflexivity|]);
    (split; [split; reflexivity|]);
    (split; [cbn; rewrite <- app_assoc; reflexivity|]);
    intros []; cbn; lia.
Qed.

Lemma request_operation_raises a x y e :
  operation_func a x y = inl e ->
  behaves (request_operation (symbol a) x y) (Raise e) [] [request_of a x y].
Proof.
  intros Hf m [Hq Hl].
  destruct m as [[q h le] lg sa ra ma da pa io]. simpl in Hq, Hl. subst q le.
  run_request a Hf;
    (eexists; split; [reflexivity|]);
    (split; [split; reflexivity|]);
    (split; [reflexivity|]);
    intros []; cbn; lia.
Qed.

Lemma request_operation_unsupported op x y :
  operator_map op = None ->
  behaves (request_operation op x y)
    (Raise (ValueError ("Operador no soportado: " ++ op)%string)) [] [].
Proof.
  intros H. unfold request_operation. rewrite H. apply behaves_raise.
Qed.

Local Transparent String.append PyFloat.str_float str_value operation_func.

(** *** What a substituted token can and cannot be *)

Lemma has_word_char_app s t :
  has_word_char (s ++ t)%string = has_word_char s || has_word_char t.
Proof.
  induction s as [|c s IH]; simpl; [reflexivity|].
  now rewrite IH, orb_assoc.
Qed.

Lemma layout_has_word_char ds decpt :
  has_word_char (PyFloat.layout true ds decpt) = true.
Proof.
  unfold PyFloat.layout.
  destruct ((decpt <=? -4)%Z || (16 <? decpt)%Z).
  - destruct ds as [|c r]; [reflexivity|].
    change (String c (match r with EmptyString => "" | _ => ("." ++ r)%string end))
      with (String c "" ++ match r with EmptyString => "" | _ => ("." ++ r)%string end)%string.
    rewrite !has_word_char_app. simpl (has_word_char "e").
    now rewrite !orb_true_r.
  - destruct (decpt <=? 0)%Z; [reflexivity|].
    destruct (Z.of_nat (String.length ds) <=? decpt)%Z;
      rewrite !has_word_char_app; simpl; now rewrite !orb_true_r.
Qed.

Lemma str_float_has_word_char x :
  has_word_char (PyFloat.str_float x) = true.
Proof.
  unfold PyFloat.str_float, PyFloat.format_float.
  destruct (Prim2SF x) as [s|s| |s m e].
  - destruct s; reflexivity.
  - destruct s; reflexivity.
  - reflexivity.
  - destruct (PyFloat.shortest _ _ _ _ _) as [d e10].
    destruct (PyFloat.strip_zeros _) as [ds z].
    rewrite has_word_char_app, layout_has_word_char. apply orb_true_r.
Qed.

Lemma str_value_has_word_char v : has_word_char (str_value v) = true.
Proof.
  destruct v as [x|re im]; [apply str_float_has_word_char|].
  unfold str_value.
  destruct (is_zero re && negb (get_sign re));
    rewrite !has_word_char_app; simpl; now rewrite !orb_true_r.
Qed.

Lemma symbol_has_no_word_char a : has_word_char (symbol a) = false.
Proof. destruct a; reflexivity. Qed.

Lemma word_token_not_symbol s a :
  has_word_char s = true -> (symbol a =? s) = false.
Proof.
  intros H. destruct (String.eqb_spec (symbol a) s) as [E|]; [|reflexivity].
  rewrite <- E, symbol_has_no_word_char in H. discriminate.
Qed.

Lemma float_token_not_symbol s x a :
  float_of_token s = inr x -> (symbol a =? s) = false.
Proof.
  intros H. destruct (String.eqb_spec (symbol a) s) as [E|]; [|reflexivity].
  subst s. destruct a; vm_compute in H; discriminate.
Qed.

(** ** One tier *)

Lemma skipn_nth_cons (l : list string) j :
  j < List.length l -> skipn j l = nth j l "" :: skipn (S j) l.
Proof.
  revert j. induction l as [|t l IH]; intros j Hj; simpl in Hj; [lia|].
  destruct j as [|j]; [reflexivity|]. simpl. apply IH. lia.
Qed.

(** The window around an operator at index [i]. *)
Lemma window_split (tokens : list string) i :
  0 < i -> i + 1 < List.length tokens ->
  tokens = firstn (i - 1) tokens
           ++ nth (i - 1) tokens "" :: nth i tokens ""
              :: nth (i + 1) tokens "" :: skipn (i + 2) tokens.
Proof.
  intros H0 H1.
  rewrite <- (firstn_skipn (i - 1) tokens) at 1. f_equal.
  rewrite (skipn_nth_cons tokens (i - 1)) by lia.
  replace (S (i - 1)) with i by lia.
  rewrite (skipn_nth_cons tokens i) by lia.
  rewrite (skipn_nth_cons tokens (S i)) by lia.
  now replace (i + 1) with (S i) by lia; replace (i + 2) with (S (S i)) by lia.
Qed.

Lemma count_symbol_cons a t l :
  count_symbol a (t :: l)
  = (if symbol a =? t then 1 else 0) + count_symbol a l.
Proof. unfold count_symbol. simpl. now destruct (symbol a =? t). Qed.

Lemma symbol_eqb a b : (symbol a =? symbol b) = agent_eqb a b.
Proof. destruct a, b; reflexivity. Qed.

Lemma count_agent_cons a d tr :
  count_agent a (d :: tr)
  = (if agent_eqb a (d_agent d) then 1 else 0) + count_agent a tr.
Proof. unfold count_agent. simpl. now destruct (agent_eqb a (d_agent d)). Qed.

(** Replacing the window [x, symbol b, y] by a result token takes away
    one occurrence of the operator of [b] and nothing else. *)
Lemma count_symbol_window a b pre x y s post fx fy :
  float_of_token x = inr fx -> float_of_token y = inr fy ->
  has_word_char s = true ->
  count_symbol a (pre ++ x :: symbol b :: y :: post)
  = count_symbol a (pre ++ [s] ++ post)
    + (if agent_eqb a b then 1 else 0).
Proof.
  intros Hx Hy Hs.
  rewrite !count_symbol_app, !count_symbol_cons.
  rewrite (float_token_not_symbol _ _ a Hx), (float_token_not_symbol _ _ a Hy).
  rewrite (word_token_not_symbol _ a Hs), symbol_eqb.
  change (count_symbol a []) with 0.
  destruct (agent_eqb a b); lia.
Qed.

Lemma evaluate_operator_from_eq fuel tokens operators i :
  evaluate_operator_from fuel tokens operators i
  = if (i <? List.length tokens)%nat then
      match fuel with
      | O => out_of_fuel
      | S f =>
          let tok := nth i tokens "" in
          if in_list tok operators then
            if ((i =? 0) || (i =? List.length tokens - 1))%nat then
              raise (ValueError
                       ("Operador " ++ tok ++ " en posición inválida")%string)
            else
              operand1 <- lift (float_of_token (nth (i - 1) tokens "")) ;;
              operand2 <- lift (float_of_token (nth (i + 1) tokens "")) ;;
              result <- request_operation tok operand1 operand2 ;;
              evaluate_operator_from f
                (firstn (i - 1) tokens ++ [str_value result]
                 ++ skipn (i + 2) tokens)
                operators i
          else evaluate_operator_from f tokens operators (i + 1)
      end
    else ret tokens.
Proof. destruct fuel; reflexivity. Qed.

Lemma spliced_length (tokens : list string) i s :
  0 < i -> i + 1 < List.length tokens ->
  List.length (firstn (i - 1) tokens ++ [s] ++ skipn (i + 2) tokens) + 2
  = List.length tokens.
Proof.
  intros H0 H1. rewrite !length_app, length_firstn, length_skipn. simpl. lia.
Qed.

Lemma evaluate_operator_from_behaves fuel :
  forall tokens operators i,
    List.length tokens <= fuel + i ->
    exists out tr tl,
      behaves (evaluate_operator_from fuel tokens operators i) out tr tl
      /\ tier_post tokens out tr tl.
Proof.
  induction fuel as [|f IH]; intros tokens operators i Hlen;
    rewrite evaluate_operator_from_eq.
  - replace (i <? List.length tokens)%nat with false
      by (symmetry; apply Nat.ltb_ge; lia).
    exists (Return tokens), [], []. split; [apply behaves_ret|].
    split; [constructor|]. repeat split; unfold count_agent; simpl; lia.
  - destruct (Nat.ltb_spec i (List.length tokens)) as [Hi|Hi].
    2:{ exists (Return tokens), [], []. split; [apply behaves_ret|].
        split; [constructor|]. repeat split; unfold count_agent; simpl; lia. }
    cbv zeta.
    destruct (in_list (nth i tokens "") operators).
    2:{ apply IH. lia. }
    destruct ((i =? 0) || (i =? List.length tokens - 1))%nat eqn:Hpos.
    { eexists (Raise _), [], []. split; [apply behaves_raise|].
      split; [constructor | now left]. }
    apply orb_false_iff in Hpos. destruct Hpos as [H0 H1].
    apply Nat.eqb_neq in H0, H1.
    destruct (float_of_token (nth (i - 1) tokens "")) as [e1|x] eqn:Hx.
    { exists (Raise e1), [], []. split.
      - apply behaves_bind_raise. apply (behaves_lift (inl e1)).
      - split; [constructor | now left]. }
    destruct (float_of_token (nth (i + 1) tokens "")) as [e2|y] eqn:Hy.
    { exists (Raise e2), [], []. split.
      - apply behaves_bind_lift.
        apply behaves_bind_raise. apply (behaves_lift (inl e2)).
      - split; [constructor | now left]. }
    destruct (operator_map (nth i tokens "")) as [id|] eqn:Hop.
    2:{ eexists (Raise _), [], []. split.
        - apply behaves_bind_lift.
          apply behaves_bind_lift.
          apply behaves_bind_raise.
          apply request_operation_unsupported. exact Hop.
        - split; [constructor | now left]. }
    apply operator_map_inv in Hop. destruct Hop as (a & Ha & _).
    rewrite Ha.
    destruct (operation_func a x y) as [e|r] eqn:Hf.
    { exists (Raise e), [], [request_of a x y]. split.
      - apply behaves_bind_lift.
        apply behaves_bind_lift.
        apply behaves_bind_raise. now apply request_operation_raises.
      - split; [constructor|]. right. now exists a, x, y. }
    pose proof (spliced_length tokens i (str_value r)) as Hsp.
    destruct (IH (firstn (i - 1) tokens ++ [str_value r]
                  ++ skipn (i + 2) tokens) operators i)
      as (out & tr & tl & Hb & Hs & Hpost); [lia|].
    set (d := {| d_agent := a; d_operand1 := x; d_operand2 := y;
                 d_result := r |}).
    exists out, (d :: tr), tl. split.
    + apply behaves_bind_lift.
      apply behaves_bind_lift.
      apply (behaves_bind _ _ r [d] _ tr tl);
        [now apply request_operation_returns | exact Hb].
    + split; [constructor; [exact Hf | exact Hs]|].
      destruct out as [tokens'| |]; [|exact Hpost|exact Hpost].
      destruct Hpost as (Htl & Hc & Hl). split; [exact Htl|]. split.
      * intros c. rewrite count_agent_cons. simpl (d_agent d).
        rewrite (window_split tokens i) at 1 by lia. rewrite Ha.
        rewrite (count_symbol_window c a _ _ _ (str_value r) _ x y Hx Hy
                   (str_value_has_word_char r)).
        rewrite (Hc c). destruct (agent_eqb c a); lia.
      * simpl (List.length (d :: tr)). lia.
Qed.

(** ** The three tiers *)

Lemma advances_then_quiet m tr tl m1 m2 :
  advances m tr tl m1 -> broker m2 = broker m1 ->
  (forall a, agent a m2 = agent a m1) -> advances m tr tl m2.
Proof.
  intros (I & H & C) Hb Ha. unfold advances, idle. rewrite Hb.
  split; [exact I|]. split; [exact H|]. intros a. rewrite Ha. apply C.
Qed.

Lemma behaves_try_except_return {A} (c : M A) h a tr tl :
  behaves c (Return a) tr tl -> behaves (try_except c h) (Return a) tr tl.
Proof.
  intros Hc m Hm. destruct (Hc m Hm) as (m1 & E & Ad). exists m1.
  split; [|exact Ad]. unfold try_except. now rewrite E.
Qed.

Lemma behaves_try_except_out_of_fuel {A} (c : M A) h tr tl :
  behaves c OutOfFuel tr tl -> behaves (try_except c h) OutOfFuel tr tl.
Proof.
  intros Hc m Hm. destruct (Hc m Hm) as (m1 & E & Ad). exists m1.
  split; [|exact Ad]. unfold try_except. now rewrite E.
Qed.

Lemma behaves_try_except_raise {A} (c : M A) h e out tr tl :
  behaves c (Raise e) tr tl -> quiet (h e) out ->
  behaves (try_except c h) out tr tl.
Proof.
  intros Hc Hh m Hm. destruct (Hc m Hm) as (m1 & E & Ad).
  destruct (Hh m1) as (m2 & E2 & Hb & Ha). exists m2. split.
  - unfold try_except. now rewrite E.
  - eapply advances_then_quiet; eassumption.
Qed.

Lemma behaves_try_finally {A} (c : M A) f out tr tl :
  behaves c out tr tl ->
  (forall m, broker (f m) = broker m /\ forall a, agent a (f m) = agent a m) ->
  behaves (try_finally c f) out tr tl.
Proof.
  intros Hc Hf m Hm. destruct (Hc m Hm) as (m1 & E & Ad).
  exists (f m1). split.
  - unfold try_finally. now rewrite E.
  - eapply advances_then_quiet; [exact Ad | apply Hf | apply Hf].
Qed.

(** A pass of a tier followed by [k]: what has to be shown of [k] to
    conclude [Q] of the whole. *)
Lemma tier_bind {B} tokens operators (k : list string -> M B)
  (Q : outcome B -> list Dispatch -> list Message -> Prop) :
  (forall tokens' tr1,
      Forall sound tr1 ->
      (forall a, count_symbol a tokens
                 = count_symbol a tokens' + count_agent a tr1) ->
      exists out tr tl,
        behaves (k tokens') out tr tl /\ Q out (tr1 ++ tr) tl) ->
  (forall e tr tl, Forall sound tr -> interrupted e tl -> Q (Raise e) tr tl) ->
  exists out tr tl,
    behaves (bind (evaluate_operator tokens operators) k) out tr tl
    /\ Q out tr tl.
Proof.
  intros Hk Hraise.
  destruct (evaluate_operator_from_behaves (List.length tokens) tokens
              operators 0) as (out1 & tr1 & tl1 & Hb & Hs & Hpost); [lia|].
  destruct out1 as [tokens'|e|]; [|exact (ex_intro _ (Raise e) (ex_intro _ tr1
    (ex_intro _ tl1 (conj (behaves_bind_raise _ _ _ _ _ Hb)
                          (Hraise _ _ _ Hs Hpost)))))|contradiction].
  destruct Hpost as (Htl & Hc & _). subst tl1.
  destruct (Hk tokens' tr1 Hs Hc) as (out & tr & tl & Hbk & HQ).
  exists out, (tr1 ++ tr), tl. split; [|exact HQ].
  eapply behaves_bind; eassumption.
Qed.

Lemma Forall_sound_app tr1 tr2 :
  Forall sound tr1 -> Forall sound tr2 -> Forall sound (tr1 ++ tr2).
Proof. intros. apply Forall_app. now split. Qed.

Lemma evaluate_tiers_behaves tokens :
  exists out tr tl,
    behaves (evaluate_tiers tokens) out tr tl
    /\ expression_post tokens out tr tl.
Proof.
  unfold evaluate_tiers.
  apply tier_bind; [|intros e tr tl Hs Hi; now split].
  intros t1 tr1 Hs1 Hc1.
  apply (tier_bind t1 _ _ (fun out tr tl =>
           expression_post tokens out (tr1 ++ tr) tl));
    [|intros e tr tl Hs Hi; split; [now apply Forall_sound_app | exact Hi]].
  intros t2 tr2 Hs2 Hc2.
  apply (tier_bind t2 _ _ (fun out tr tl =>
           expression_post tokens out (tr1 ++ tr2 ++ tr) tl));
    [|intros e tr tl Hs Hi; split;
      [now repeat apply Forall_sound_app | exact Hi]].
  intros t3 tr3 Hs3 Hc3.
  assert (Hall : Forall sound (tr1 ++ tr2 ++ tr3 ++ []))
    by (rewrite app_nil_r; now repeat apply Forall_sound_app).
  destruct t3 as [|t [|t' rest]].
  - eexists (Raise _), [], []. split; [apply behaves_raise|].
    split; [exact Hall | now left].
  - destruct (float_of_token t) as [e|v] eqn:Ht.
    + exists (Raise e), [], []. split; [apply (behaves_lift (inl e))|].
      split; [exact Hall | now left].
    + exists (Return v), [], []. split; [apply (behaves_lift (inr v))|].
      split; [exact Hall|]. split; [reflexivity|]. intros a.
      rewrite (Hc1 a), (Hc2 a), (Hc3 a), !count_agent_app.
      rewrite count_symbol_cons, (float_token_not_symbol _ _ a Ht).
      unfold count_symbol, count_agent. simpl. lia.
  - eexists (Raise _), [], []. split; [apply behaves_raise|].
    split; [exact Hall | now left].
Qed.

(** ** Parentheses *)

Lemma last_open_spec l :
  forall i acc s,
    last_open l i acc = Some s ->
    (acc = Some s /\ forall j, j < List.length l -> nth j l "" <> "(")
    \/ (i <= s /\ s - i < List.length l /\ nth (s - i) l "" = "("
        /\ forall j, s - i < j -> j < List.length l -> nth j l "" <> "(").
Proof.
  induction l as [|t l IH]; intros i acc s H; simpl in H.
  - left. split; [exact H|]. intros j Hj. simpl in Hj. lia.
  - apply IH in H. destruct H as [[Hacc Hno]|(Hi & Hlt & Hn & Hno)].
    + destruct (String.eqb_spec t "(") as [Et|Et].
      * right. injection Hacc as <-. rewrite Nat.sub_diag. simpl.
        repeat split; [lia | lia | exact Et |].
        intros [|j] Hj Hj'; [lia|]. simpl. apply Hno. lia.
      * left. split; [exact Hacc|]. intros [|j] Hj; simpl; [exact Et|].
        apply Hno. simpl in Hj. lia.
    + right. replace (s - i) with (S (s - S i)) by lia. simpl.
      repeat split; [lia | lia | exact Hn |].
      intros [|j] Hj Hj'; [lia|]. simpl. apply Hno; lia.
Qed.

Lemma first_close_spec l :
  forall i e,
    first_close l i = Some e ->
    i <= e /\ e - i < List.length l /\ nth (e - i) l "" = ")"
    /\ forall j, j < e - i -> nth j l "" <> ")".
Proof.
  induction l as [|t l IH]; intros i e H; simpl in H; [discriminate|].
  destruct (String.eqb_spec t ")") as [Et|Et].
  - injection H as <-. rewrite Nat.sub_diag. simpl.
    repeat split; [lia | lia | exact Et |]. intros j Hj. lia.
  - apply IH in H. destruct H as (Hi & Hlt & Hn & Hno).
    replace (e - i) with (S (e - S i)) by lia. simpl.
    repeat split; [lia | lia | exact Hn |].
    intros [|j] Hj; simpl; [exact Et|]. apply Hno. lia.
Qed.

Lemma first_close_none l :
  forall i, first_close l i = None ->
            forall j, j < List.length l -> nth j l "" <> ")".
Proof.
  induction l as [|t l IH]; intros i H j Hj; simpl in *; [lia|].
  destruct (String.eqb_spec t ")") as [Et|Et]; [discriminate|].
  destruct j as [|j]; [exact Et|]. apply (IH (S i) H). lia.
Qed.

Lemma nth_skipn_string n (l : list string) j :
  nth j (skipn n l) "" = nth (n + j) l "".
Proof.
  revert l. induction n as [|n IH]; intros l; [reflexivity|].
  destruct l as [|t l]; [now destruct j|]. simpl. apply IH.
Qed.

(** Where the parenthesis scan stops: the last ["("] and the first
    [")"] after it. *)
Lemma paren_scan tokens start end_ :
  last_open tokens 0 None = Some start ->
  first_close (skipn (start + 1) tokens) (start + 1) = Some end_ ->
  start < end_ /\ end_ < List.length tokens
  /\ nth start tokens "" = "(" /\ nth end_ tokens "" = ")".
Proof.
  intros Hs He.
  apply last_open_spec in Hs. destruct Hs as [[Hs _]|(_ & Hlt & Hn & _)];
    [discriminate|].
  rewrite Nat.sub_0_r in Hlt, Hn.
  apply first_close_spec in He. destruct He as (Hi & Hlt' & Hn' & _).
  rewrite length_skipn in Hlt'. rewrite nth_skipn_string in Hn'.
  replace (start + 1 + (end_ - (start + 1))) with end_ in Hn' by lia.
  repeat split; [lia | lia | exact Hn | exact Hn'].
Qed.

Lemma paren_split (tokens : list string) start end_ :
  start < end_ -> end_ < List.length tokens ->
  tokens = firstn start tokens
           ++ nth start tokens "" :: slice (start + 1) end_ tokens
           ++ nth end_ tokens "" :: skipn (end_ + 1) tokens.
Proof.
  intros H1 H2.
  rewrite <- (firstn_skipn start tokens) at 1. f_equal.
  rewrite (skipn_nth_cons tokens start) by lia. f_equal.
  replace (S start) with (start + 1) by lia. unfold slice.
  rewrite <- (firstn_skipn (end_ - (start + 1)) (skipn (start + 1) tokens))
    at 1.
  f_equal. rewrite skipn_skipn.
  replace (end_ - (start + 1) + (start + 1)) with end_ by lia.
  rewrite (skipn_nth_cons tokens end_) by lia.
  now replace (S end_) with (end_ + 1) by lia.
Qed.

Lemma slice_length (tokens : list string) start end_ :
  start < end_ -> end_ < List.length tokens ->
  List.length (slice (start + 1) end_ tokens) = end_ - start - 1.
Proof.
  intros H1 H2. unfold slice. rewrite length_firstn, length_skipn. lia.
Qed.

Lemma paren_spliced_length (tokens : list string) start end_ s :
  start < end_ -> end_ < List.length tokens ->
  List.length (firstn start tokens ++ [s] ++ skipn (end_ + 1) tokens)
  = start + 1 + (List.length tokens - end_ - 1).
Proof.
  intros H1 H2. rewrite !length_app, length_firstn, length_skipn. simpl. lia.
Qed.

Lemma paren_not_symbol a : (symbol a =? "(") = false /\ (symbol a =? ")") = false.
Proof. destruct a; split; reflexivity. Qed.

(** Splicing the value of a parenthesised group: the operator tokens
    outside the group stay, those inside are the group's. *)
Lemma count_symbol_paren a (tokens : list string) start end_ s :
  start < end_ -> end_ < List.length tokens ->
  nth start tokens "" = "(" -> nth end_ tokens "" = ")" ->
  has_word_char s = true ->
  count_symbol a tokens
  = count_symbol a (firstn start tokens ++ [s] ++ skipn (end_ + 1) tokens)
    + count_symbol a (slice (start + 1) end_ tokens).
Proof.
  intros H1 H2 Ho Hc Hs.
  rewrite (paren_split tokens start end_ H1 H2) at 1. rewrite Ho, Hc.
  rewrite !count_symbol_app, !count_symbol_cons, !count_symbol_app,
    !count_symbol_cons.
  destruct (paren_not_symbol a) as [-> ->].
  rewrite (word_token_not_symbol _ a Hs).
  change (count_symbol a []) with 0. lia.
Qed.

Lemma evaluate_expression_fuel_eq f tokens :
  evaluate_expression_fuel (S f) tokens
  = bind (handle_parentheses_fuel f tokens) evaluate_tiers.
Proof. reflexivity. Qed.

Lemma handle_parentheses_fuel_eq fuel tokens :
  handle_parentheses_fuel fuel tokens
  = if in_list "(" tokens then
      match fuel with
      | O => out_of_fuel
      | S f =>
          match last_open tokens 0 None with
          | None => ret tokens
          | Some start =>
              match first_close (skipn (start + 1) tokens) (start + 1) with
              | None => raise (ValueError "Paréntesis no balanceados")
              | Some end_ =>
                  let sub_tokens := slice (start + 1) end_ tokens in
                  add_log ("[IO] Evaluando paréntesis: "
                           ++ PyStr.join " " sub_tokens)%string ;;;
                  result <- evaluate_expression_fuel f sub_tokens ;;
                  handle_parentheses_fuel f
                    (firstn start tokens ++ [PyFloat.str_float result]
                     ++ skipn (end_ + 1) tokens)
              end
          end
      end
    else ret tokens.
Proof. destruct fuel; reflexivity. Qed.

Lemma paren_post_ret tokens : paren_post tokens (Return tokens) [] [].
Proof.
  split; [constructor|]. split; [reflexivity|].
  intros a. unfold count_agent. simpl. lia.
Qed.

Lemma expression_behaves fuel :
  (forall tokens,
      2 * List.length tokens + 2 <= fuel ->
      exists out tr tl,
        behaves (evaluate_expression_fuel fuel tokens) out tr tl
        /\ expression_post tokens out tr tl)
  /\ (forall tokens,
         2 * List.length tokens + 1 <= fuel ->
         exists out tr tl,
           behaves (handle_parentheses_fuel fuel tokens) out tr tl
           /\ paren_post tokens out tr tl).
Proof.
  induction fuel as [|f [IHE IHH]]; [split; intros tokens H; lia|].
  split; intros tokens Hfuel.
  - rewrite evaluate_expression_fuel_eq.
    destruct (IHH tokens) as (out1 & tr1 & tl1 & Hb1 & Hs1 & Hp1); [lia|].
    destruct out1 as [tokens'|e|]; [| |contradiction].
    + destruct Hp1 as (-> & Hc1).
      destruct (evaluate_tiers_behaves tokens')
        as (out2 & tr2 & tl2 & Hb2 & Hs2 & Hp2).
      exists out2, (tr1 ++ tr2), tl2. split; [eapply behaves_bind; eassumption|].
      split; [now apply Forall_sound_app|].
      destruct out2 as [v|e|]; [|exact Hp2|exact Hp2].
      destruct Hp2 as (-> & Hc2). split; [reflexivity|]. intros a.
      rewrite (Hc1 a), (Hc2 a), count_agent_app. lia.
    + exists (Raise e), tr1, tl1. split; [now apply behaves_bind_raise|].
      now split.
  - rewrite handle_parentheses_fuel_eq.
    destruct (in_list "(" tokens);
      [|exists (Return tokens), [], []; split;
        [apply behaves_ret | apply paren_post_ret]].
    destruct (last_open tokens 0 None) as [start|] eqn:Hstart;
      [|exists (Return tokens), [], []; split;
        [apply behaves_ret | apply paren_post_ret]].
    destruct (first_close (skipn (start + 1) tokens) (start + 1))
      as [end_|] eqn:Hend.
    2:{ eexists (Raise _), [], []. split; [apply behaves_raise|].
        split; [constructor | now left]. }
    destruct (paren_scan tokens start end_ Hstart Hend) as (H1 & H2 & Ho & Hc).
    cbv zeta.
    pose proof (slice_length tokens start end_ H1 H2) as Hsl.
    destruct (IHE (slice (start + 1) end_ tokens))
      as (out1 & tr1 & tl1 & Hb1 & Hs1 & Hp1); [lia|].
    destruct out1 as [v|e|]; [| |contradiction].
    + destruct Hp1 as (-> & Hc1).
      pose proof (paren_spliced_length tokens start end_
                    (PyFloat.str_float v) H1 H2) as Hpl.
      destruct (IHH (firstn start tokens ++ [PyFloat.str_float v]
                     ++ skipn (end_ + 1) tokens))
        as (out2 & tr2 & tl2 & Hb2 & Hs2 & Hp2); [lia|].
      exists out2, (tr1 ++ tr2), tl2. split.
      * apply (behaves_bind _ _ tt [] out2 (tr1 ++ tr2) tl2);
          [apply behaves_add_log|].
        eapply behaves_bind; eassumption.
      * split; [now apply Forall_sound_app|].
        destruct out2 as [tokens'|e|]; [|exact Hp2|exact Hp2].
        destruct Hp2 as (-> & Hc2). split; [reflexivity|]. intros a.
        rewrite (count_symbol_paren a tokens start end_ (PyFloat.str_float v)
                   H1 H2 Ho Hc (str_float_has_word_char v)).
        rewrite (Hc1 a), (Hc2 a), count_agent_app. lia.
    + exists (Raise e), tr1, tl1. split.
      * apply (behaves_bind _ _ tt [] (Raise e) tr1 tl1);
          [apply behaves_add_log|].
        now apply behaves_bind_raise.
      * now split.
Qed.

(** ** A whole evaluation *)

Lemma behaves_after_add_log {A} s (k : M A) out tr tl :
  behaves k out tr tl -> behaves (add_log s ;;; k) out tr tl.
Proof.
  intros H. exact (behaves_bind _ _ tt [] out tr tl (behaves_add_log s) H).
Qed.

Lemma behaves_after_set_io {A} f (k : M A) out tr tl :
  behaves k out tr tl -> behaves (set_io f ;;; k) out tr tl.
Proof.
  intros H. exact (behaves_bind _ _ tt [] out tr tl (behaves_set_io f) H).
Qed.

Lemma evaluate_expression_behaves tokens :
  exists out tr tl,
    behaves (evaluate_expression tokens) out tr tl
    /\ expression_post tokens out tr tl.
Proof.
  apply (proj1 (expression_behaves (expression_fuel tokens))).
  unfold expression_fuel. lia.
Qed.

(** What [evaluate_expression] does on the tokens is what
    [process_expression] and [calculate] do on the string. *)
Lemma process_expression_transfers expression out tr tl :
  behaves (evaluate_expression
             (tokenize (PyStr.remove_char " "%char expression))) out tr tl ->
  (forall v, out = Return v -> tl = []) ->
  behaves (process_expression expression) out tr tl.
Proof.
  intros Hb Htl. unfold process_expression.
  apply behaves_after_set_io. do 3 apply behaves_after_add_log.
  apply behaves_try_finally; [|intros m; split; [reflexivity | now intros []]].
  cbv zeta.
  destruct out as [v|e|].
  - rewrite (Htl v eq_refl) in *.
    apply behaves_try_except_return. apply behaves_after_add_log.
    rewrite <- (app_nil_r tr). eapply behaves_bind; [exact Hb|].
    apply behaves_after_set_io. do 2 apply behaves_after_add_log.
    apply behaves_ret.
  - apply (behaves_try_except_raise _ _ e).
    + apply behaves_after_add_log. now apply behaves_bind_raise.
    + intros m. eexists. split; [reflexivity|].
      split; [reflexivity | now intros []].
  - apply behaves_try_except_out_of_fuel. apply behaves_after_add_log.
    now apply behaves_bind_out_of_fuel.
Qed.

Lemma calculate_transfers expression out tr tl :
  behaves (evaluate_expression
             (tokenize (PyStr.remove_char " "%char expression))) out tr tl ->
  (forall v, out = Return v -> tl = []) ->
  forall m, idle m ->
    exists m',
      calculate expression m = (out, m') /\ idle m'
      /\ message_history (broker m') = exchanges tr ++ tl
      /\ forall a, operations_performed (agent a m')
                   = operations_performed (agent a m) + count_agent a tr.
Proof.
  intros Hb Htl m [Hq Hl].
  set (m0 := set_broker
               {| message_queue := message_queue (broker m);
                  message_history := [];
                  log_enabled := log_enabled (broker m) |}
               (set_log_messages [] m)).
  assert (I0 : idle m0) by (split; [exact Hq | exact Hl]).
  destruct (process_expression_transfers expression out tr tl Hb Htl m0 I0)
    as (m' & E & I' & Hh & Hc).
  exists m'. split; [exact E|]. split; [exact I'|]. split; [exact Hh|].
  intros a. rewrite (Hc a). now destruct a.
Qed.

(** The outcome of [calculate], the dispatches it completes and what it
    may leave unanswered depend on the expression alone; from any idle
    model the history is rebuilt from empty and the counters move on by
    the dispatches. *)
Lemma calculate_behaves expression :
  exists out tr tl,
    (forall m, idle m ->
       exists m',
         calculate expression m = (out, m') /\ idle m'
         /\ message_history (broker m') = exchanges tr ++ tl
         /\ forall a, operations_performed (agent a m')
                      = operations_performed (agent a m) + count_agent a tr)
    /\ expression_post (tokenize (PyStr.remove_char " "%char expression))
         out tr tl.
Proof.
  destruct (evaluate_expression_behaves
              (tokenize (PyStr.remove_char " "%char expression)))
    as (out & tr & tl & Hb & Hp).
  exists out, tr, tl. split; [|exact Hp].
  apply calculate_transfers; [exact Hb|].
  intros v ->. apply Hp.
Qed.

(** ** Enough fuel *)

Lemma calculate_never_out_of_fuel expression m :
  idle m -> fst (calculate expression m) <> OutOfFuel.
Proof.
  intros Hm.
  destruct (calculate_behaves expression) as (out & tr & tl & Hb & _ & Hp).
  destruct (Hb m Hm) as (m' & E & _). rewrite E. simpl.
  destruct out; [discriminate | discriminate | contradiction].
Qed.

(** ** The fuel is immaterial once it covers the token list *)

Lemma fuel_irrelevant f1 :
  forall f2 tokens m,
    (2 * List.length tokens + 2 <= f1 -> 2 * List.length tokens + 2 <= f2 ->
     evaluate_expression_fuel f1 tokens m
     = evaluate_expression_fuel f2 tokens m)
    /\ (2 * List.length tokens + 1 <= f1 -> 2 * List.length tokens + 1 <= f2 ->
        handle_parentheses_fuel f1 tokens m
        = handle_parentheses_fuel f2 tokens m).
Proof.
  induction f1 as [|f1 IH]; intros f2 tokens m; [split; intros; lia|].
  destruct f2 as [|f2]; [split; intros; lia|].
  split; intros H1 H2.
  - rewrite !evaluate_expression_fuel_eq. unfold bind.
    now rewrite (proj2 (IH f2 tokens m)) by lia.
  - rewrite !handle_parentheses_fuel_eq.
    destruct (in_list "(" tokens); [|reflexivity].
    destruct (last_open tokens 0 None) as [start|] eqn:Hstart; [|reflexivity].
    destruct (first_close (skipn (start + 1) tokens) (start + 1))
      as [end_|] eqn:Hend; [|reflexivity].
    destruct (paren_scan tokens start end_ Hstart Hend) as (Hlt & Hlen & _).
    pose proof (slice_length tokens start end_ Hlt Hlen) as Hsl.
    cbv zeta. unfold bind at 1 3.
    destruct (add_log _ m) as [[[]| |] m0]; try reflexivity.
    unfold bind. rewrite (proj1 (IH f2 _ m0)) by lia.
    destruct (evaluate_expression_fuel f2 _ m0) as [[v| |] m1];
      try reflexivity.
    pose proof (paren_spliced_length tokens start end_
                  (PyFloat.str_float v) Hlt Hlen) as Hpl.
    apply (proj2 (IH f2 _ m1)); lia.
Qed.

(** ** The scans find what they are meant to find *)

Lemma last_open_none l :
  forall i acc,
    (forall j, j < List.length l -> nth j l "" <> "(") ->
    last_open l i acc = acc.
Proof.
  induction l as [|t l IH]; intros i acc H; [reflexivity|]. simpl.
  destruct (String.eqb_spec t "(") as [E|E]; [now destruct (H 0 (Nat.lt_0_succ _))|].
  apply IH. intros j Hj. apply (H (S j)). simpl. lia.
Qed.

Lemma last_open_complete l :
  forall i acc k,
    k < List.length l -> nth k l "" = "(" ->
    (forall j, k < j -> j < List.length l -> nth j l "" <> "(") ->
    last_open l i acc = Some (i + k).
Proof.
  induction l as [|t l IH]; intros i acc k Hk Hn Hlast; simpl in Hk; [lia|].
  simpl. destruct k as [|k].
  - simpl in Hn. subst t. simpl. rewrite Nat.add_0_r.
    apply last_open_none. intros j Hj. apply (Hlast (S j)); simpl; lia.
  - rewrite (IH (S i) _ k); [f_equal; lia | lia | exact Hn |].
    intros j Hj Hj'. apply (Hlast (S j)); simpl; lia.
Qed.

Lemma first_close_complete l :
  forall i k,
    k < List.length l -> nth k l "" = ")" ->
    (forall j, j < k -> nth j l "" <> ")") ->
    first_close l i = Some (i + k).
Proof.
  induction l as [|t l IH]; intros i k Hk Hn Hfirst; simpl in Hk; [lia|].
  simpl. destruct k as [|k].
  - simpl in Hn. subst t. simpl. now rewrite Nat.add_0_r.
  - destruct (String.eqb_spec t ")") as [E|E];
      [now destruct (Hfirst 0 (Nat.lt_0_succ _))|].
    rewrite (IH (S i) k); [f_equal; lia | lia | exact Hn |].
    intros j Hj. apply (Hfirst (S j)). lia.
Qed.

Lemma first_close_absent l :
  forall i, (forall j, j < List.length l -> nth j l "" <> ")") ->
            first_close l i = None.
Proof.
  induction l as [|t l IH]; intros i H; [reflexivity|]. simpl.
  destruct (String.eqb_spec t ")") as [E|E];
    [now destruct (H 0 (Nat.lt_0_succ _))|].
  apply IH. intros j Hj. apply (H (S j)). simpl. lia.
Qed.

Lemma in_list_nth (l : list string) k s :
  k < List.length l -> nth k l "" = s -> in_list s l = true.
Proof.
  intros Hk Hn. unfold in_list. apply existsb_exists. exists s. split.
  - rewrite <- Hn. now apply nth_In.
  - apply String.eqb_refl.
Qed.

(** ** Following a tier step by step *)

Lemma idle_init : idle CalculatorModel_init.
Proof. split; reflexivity. Qed.

Lemma tier_done f tokens operators i :
  List.length tokens <= i ->
  evaluate_operator_from f tokens operators i = ret tokens.
Proof.
  intros H. rewrite evaluate_operator_from_eq.
  now replace (i <? List.length tokens)%nat with false
    by (symmetry; apply Nat.ltb_ge; lia).
Qed.

Lemma tier_skip f tokens operators i :
  i < List.length tokens ->
  in_list (nth i tokens "") operators = false ->
  evaluate_operator_from (S f) tokens operators i
  = evaluate_operator_from f tokens operators (i + 1).
Proof.
  intros Hi Hop. rewrite evaluate_operator_from_eq.
  replace (i <? List.length tokens)%nat with true
    by (symmetry; apply Nat.ltb_lt; lia).
  cbv zeta. now rewrite Hop.
Qed.

(** The step that substitutes: the window around index [i] is replaced
    and the scan goes on at the same [i]. *)
Lemma tier_substitute f tokens operators i a x y :
  0 < i -> i + 1 < List.length tokens ->
  nth i tokens "" = symbol a ->
  in_list (symbol a) operators = true ->
  float_of_token (nth (i - 1) tokens "") = inr x ->
  float_of_token (nth (i + 1) tokens "") = inr y ->
  evaluate_operator_from (S f) tokens operators i
  = (result <- request_operation (symbol a) x y ;;
     evaluate_operator_from f
       (firstn (i - 1) tokens ++ [str_value result] ++ skipn (i + 2) tokens)
       operators i).
Proof.
  intros H0 H1 Htok Hop Hx Hy. rewrite evaluate_operator_from_eq.
  replace (i <? List.length tokens)%nat with true
    by (symmetry; apply Nat.ltb_lt; lia).
  cbv zeta. rewrite Htok, Hop.
  replace ((i =? 0) || (i =? List.length tokens - 1))%nat with false.
  2:{ symmetry. apply orb_false_iff. split; apply Nat.eqb_neq; lia. }
  rewrite Hx, Hy. reflexivity.
Qed.

Lemma tier_substitute_behaves f tokens operators i a x y r out tr tl :
  0 < i -> i + 1 < List.length tokens ->
  nth i tokens "" = symbol a ->
  in_list (symbol a) operators = true ->
  float_of_token (nth (i - 1) tokens "") = inr x ->
  float_of_token (nth (i + 1) tokens "") = inr y ->
  operation_func a x y = inr r ->
  behaves
    (evaluate_operator_from f
       (firstn (i - 1) tokens ++ [str_value r] ++ skipn (i + 2) tokens)
       operators i) out tr tl ->
  behaves (evaluate_operator_from (S f) tokens operators i) out
    ({| d_agent := a; d_operand1 := x; d_operand2 := y; d_result := r |}
     :: tr) tl.
Proof.
  intros H0 H1 Htok Hop Hx Hy Hf Hb.
  rewrite (tier_substitute f tokens operators i a x y H0 H1 Htok Hop Hx Hy).
  apply (behaves_bind _ _ r [_] out tr tl);
    [now apply request_operation_returns | exact Hb].
Qed.

Lemma evaluate_expression_flat tokens :
  in_list "(" tokens = false ->
  evaluate_expression tokens = bind (ret tokens) evaluate_tiers.
Proof.
  intros H. unfold evaluate_expression, expression_fuel.
  replace (2 * List.length tokens + 2) with (S (2 * List.length tokens + 1))
    by lia.
  rewrite evaluate_expression_fuel_eq, handle_parentheses_fuel_eq, H.
  reflexivity.
Qed.

Lemma behaves_bind_ret {A B} (a : A) (k : A -> M B) out tr tl :
  behaves (k a) out tr tl -> behaves (bind (ret a) k) out tr tl.
Proof. intros H. exact (behaves_bind _ _ a [] out tr tl (behaves_ret a) H). Qed.

(** Computes the token list a tier is about to scan. *)
Ltac tier_tokens :=
  match goal with
  | |- behaves (evaluate_operator_from _ ?t _ _) _ _ _ =>
      let v := eval vm_compute in t in
      replace t with v by (vm_compute; reflexivity)
  end.

(** A tier that finds none of its operators in a one-token list. *)
Lemma tier_idle_on_single t operators :
  in_list t operators = false ->
  evaluate_operator [t] operators = ret [t].
Proof.
  intros H. unfold evaluate_operator. simpl List.length.
  rewrite tier_skip by (simpl; (lia || exact H)).
  apply tier_done. simpl. lia.
Qed.

(** ** Counting in the history *)

Lemma unique_id_eqb a b : (unique_id b =? unique_id a) = agent_eqb a b.
Proof. destruct a, b; reflexivity. Qed.

Lemma count_results_exchanges a tr :
  count_results a (exchanges tr) = count_agent a tr.
Proof.
  induction tr as [|d tr IH]; [reflexivity|].
  change (exchanges (d :: tr)) with (exchange d ++ exchanges tr).
  rewrite count_results_app, IH, count_agent_cons.
  unfold count_results, exchange. simpl.
  rewrite unique_id_eqb. now destruct (agent_eqb a (d_agent d)).
Qed.

Lemma count_results_interrupted a e tl :
  interrupted e tl -> count_results a tl = 0.
Proof. intros [-> | (b & x & y & -> & _)]; reflexivity. Qed.

(** Whatever the outcome, the history of an evaluation holds as many
    results of an agent as the agent's counter has risen by. *)
Lemma calculate_counts expression m :
  idle m ->
  forall a,
    operations_performed (agent a (snd (calculate expression m)))
    = operations_performed (agent a m)
      + count_results a
          (message_history (broker (snd (calculate expression m)))).
Proof.
  intros Hm a.
  destruct (calculate_behaves expression) as (out & tr & tl & Hb & Hs & Hp).
  destruct (Hb m Hm) as (m' & E & _ & Hh & Hc).
  rewrite E. simpl snd. rewrite Hh, (Hc a), count_results_app,
    count_results_exchanges.
  assert (Htl : count_results a tl = 0).
  { destruct out as [v|e|]; [|now apply (count_results_interrupted a e)
                             |contradiction].
    now destruct Hp as [-> _]. }
  rewrite Htl. lia.
Qed.

(** A successful evaluation completes one dispatch per operator token. *)
Lemma calculate_returns expression m r m' :
  idle m -> calculate expression m = (Return r, m') ->
  exists tr,
    idle m'
    /\ message_history (broker m') = exchanges tr
    /\ Forall sound tr
    /\ (forall a, count_agent a tr
                  = count_symbol a
                      (tokenize (PyStr.remove_char " "%char expression)))
    /\ (forall a, operations_performed (agent a m')
                  = operations_performed (agent a m) + count_agent a tr)
    /\ forall m0, idle m0 -> exists m1, calculate expression m0 = (Return r, m1)
         /\ idle m1
         /\ forall a, operations_performed (agent a m1)
                      = operations_performed (agent a m0) + count_agent a tr.
Proof.
  intros Hm E.
  destruct (calculate_behaves expression) as (out & tr & tl & Hb & Hs & Hp).
  destruct (Hb m Hm) as (m'' & E' & I' & Hh & Hc).
  rewrite E in E'. injection E' as <- <-.
  destruct Hp as (-> & Hcount). rewrite app_nil_r in Hh.
  exists tr. repeat split; try assumption; try apply I'.
  - intros a. symmetry. apply Hcount.
  - intros m0 Hm0. destruct (Hb m0 Hm0) as (m1 & E1 & I1 & _ & Hc1).
    exists m1. split; [exact E1 | split; [exact I1 | exact Hc1]].
Qed.

(** ** Sessions *)

(** Every model of a session is idle: the hypothesis of the statements
    below holds wherever the program can be. *)
Lemma reachable_idle m : reachable m -> idle m.
Proof.
  induction 1 as [|expression m _ IH|m _ IH].
  - split; reflexivity.
  - destruct (calculate_behaves expression) as (out & tr & tl & Hb & _).
    destruct (Hb m IH) as (m' & E & I' & _). now rewrite E.
  - destruct m. exact IH.
Qed.

(** The outcome of an evaluation is the same wherever in a session it
    is asked for. *)
Lemma evaluate_anywhere expression m :
  idle m -> fst (calculate expression m) = evaluate expression.
Proof.
  intros Hm.
  destruct (calculate_behaves expression) as (out & tr & tl & Hb & _).
  destruct (Hb m Hm) as (m' & E & _).
  destruct (Hb CalculatorModel_init (conj eq_refl eq_refl)) as (m0 & E0 & _).
  unfold evaluate. now rewrite E, E0.
Qed.

(** A pass of a tier that returns: each substitution took a window of
    three tokens for one and logged one exchange. *)
Lemma tier_pass_exchanges tokens operators m tokens' m' :
  idle m ->
  evaluate_operator tokens operators m = (Return tokens', m') ->
  exists tr,
    message_history (broker m') = message_history (broker m) ++ exchanges tr
    /\ Forall sound tr
    /\ List.length tokens = List.length tokens' + 2 * List.length tr.
Proof.
  intros Hm E.
  destruct (evaluate_operator_from_behaves (List.length tokens) tokens
              operators 0) as (out & tr & tl & Hb & Hs & Hp); [lia|].
  destruct (Hb m Hm) as (m'' & E' & _ & Hh & _).
  unfold evaluate_operator in E. rewrite E in E'. injection E' as <- <-.
  destruct Hp as (-> & _ & Hl). rewrite app_nil_r in Hh.
  exists tr. now repeat split.
Qed.

(** ** The properties of the specification *)

(** C1.  Precedence: [2+3*4] is 14, the product being asked for first;
    [(2+3)*4] is 20, the sum in parentheses first; [2**3**2] is 64, the
    power tier running left to right, [(2**3)**2], given that the
    library's [pow] maps (2, 3) to 8 and (8, 2) to 64. *)
Theorem precedence_examples :
  float_pow 2 3 = inr (PyFloat 8) ->
  float_pow 8 2 = inr (PyFloat 64) ->
  (evaluate "2+3*4" = Return 14%float
   /\ operations_requested
        (message_history
           (broker (snd (calculate "2+3*4" CalculatorModel_init))))
      = [("multiplicacion_agent", 3%float, 4%float);
         ("suma_agent", 2%float, 12%float)])
  /\ (evaluate "(2+3)*4" = Return 20%float
      /\ operations_requested
           (message_history
              (broker (snd (calculate "(2+3)*4" CalculatorModel_init))))
         = [("suma_agent", 2%float, 3%float);
            ("multiplicacion_agent", 5%float, 4%float)])
  /\ (evaluate "2**3**2" = Return 64%float
      /\ operations_requested
           (message_history
              (broker (snd (calculate "2**3**2" CalculatorModel_init))))
         = [("potencia_agent", 2%float, 3%float);
            ("potencia_agent", 8%float, 2%float)]).
Proof.
  intros H1 H2.
  split; [split; vm_compute; reflexivity|].
  split; [split; vm_compute; reflexivity|].
  set (d1 := {| d_agent := PotenciaAgent; d_operand1 := 2%float;
                d_operand2 := 3%float; d_result := PyFloat 8 |}).
  set (d2 := {| d_agent := PotenciaAgent; d_operand1 := 8%float;
                d_operand2 := 2%float; d_result := PyFloat 64 |}).
  assert (Hb : behaves
                 (evaluate_expression
                    (tokenize (PyStr.remove_char " "%char "2**3**2")))
                 (Return 64%float) [d1; d2] []).
  { change (tokenize (PyStr.remove_char " "%char "2**3**2"))
      with ["2"; "**"; "3"; "**"; "2"].
    rewrite evaluate_expression_flat by reflexivity.
    apply behaves_bind_ret. unfold evaluate_tiers.
    refine (behaves_bind _ _ ["64.0"] [d1; d2] _ [] [] _ _).
    - unfold evaluate_operator. simpl List.length.
      rewrite tier_skip by (simpl; (lia || reflexivity)).
      change (0 + 1) with 1.
      apply (tier_substitute_behaves _ _ _ 1 PotenciaAgent 2 3 (PyFloat 8));
        [lia | simpl; lia | reflexivity | reflexivity
        | vm_compute; reflexivity | vm_compute; reflexivity | exact H1 |].
      tier_tokens.
      apply (tier_substitute_behaves _ _ _ 1 PotenciaAgent 8 2 (PyFloat 64));
        [lia | simpl; lia | reflexivity | reflexivity
        | vm_compute; reflexivity | vm_compute; reflexivity | exact H2 |].
      tier_tokens.
      rewrite tier_done by (simpl; lia). apply behaves_ret.
    - rewrite tier_idle_on_single by reflexivity. apply behaves_bind_ret.
      rewrite tier_idle_on_single by reflexivity. apply behaves_bind_ret.
      replace (float_of_token "64.0") with (@inr exn float 64%float)
        by (vm_compute; reflexivity).
      apply behaves_ret. }
  destruct (calculate_transfers "2**3**2" _ _ _ Hb (fun _ _ => eq_refl)
              CalculatorModel_init idle_init) as (m' & E & _ & Hh & _).
  unfold evaluate. rewrite E. simpl fst. simpl snd. rewrite Hh.
  split; reflexivity.
Qed.

(** C2.  Inside a tier the scan is left to right and does not move on
    after a substitution: when the token at index [i] is an operator of
    the tier with numerals on both sides and the operation succeeds, the
    three-token window is replaced by the result and the loop goes on at
    the same index [i] of the shorter list.  So [8/4/2] asks for 8/4,
    then for 2/2, and is 1. *)
Theorem same_index_rescanned :
  (forall f tokens operators i a x y r m,
      idle m ->
      0 < i -> i + 1 < List.length tokens ->
      nth i tokens "" = symbol a ->
      in_list (symbol a) operators = true ->
      float_of_token (nth (i - 1) tokens "") = inr x ->
      float_of_token (nth (i + 1) tokens "") = inr y ->
      operation_func a x y = inr r ->
      exists m1,
        request_operation (symbol a) x y m = (Return r, m1)
        /\ evaluate_operator_from (S f) tokens operators i m
           = evaluate_operator_from f
               (firstn (i - 1) tokens ++ [str_value r]
                ++ skipn (i + 2) tokens)
               operators i m1)
  /\ evaluate "8/4/2" = Return 1%float
  /\ operations_requested
       (message_history
          (broker (snd (calculate "8/4/2" CalculatorModel_init))))
     = [("division_agent", 8%float, 4%float);
        ("division_agent", 2%float, 2%float)].
Proof.
  split; [|split; vm_compute; reflexivity].
  intros f tokens operators i a x y r m Hm H0 H1 Htok Hop Hx Hy Hf.
  destruct (request_operation_returns a x y r Hf m Hm) as (m1 & E & _).
  exists m1. split; [exact E|].
  rewrite (tier_substitute f tokens operators i a x y H0 H1 Htok Hop Hx Hy).
  unfold bind. now rewrite E.
Qed.

(** C3.  The tokenizer folds a [-] into the numeral after it exactly
    when the [-] is the first token or follows an operator or [(], and
    the next token is purely numeric: for an ASCII expression the
    result is, index by index of the scanned tokens, the folded literal
    where that condition holds, nothing for the numeral a fold has
    taken, and the token itself otherwise.  So [-3+5] is 2 and [4*-2]
    is -8. *)
Theorem unary_minus_folding :
  (forall expression,
      PyStr.is_ascii expression = true ->
      tokenize expression
      = flat_map (folded_output (findall expression))
          (seq 0 (List.length (findall expression))))
  /\ tokenize "-3+5" = ["-3"; "+"; "5"]
  /\ evaluate "-3+5" = Return 2%float
  /\ tokenize "4*-2" = ["4"; "*"; "-2"]
  /\ evaluate "4*-2" = Return (-8)%float.
Proof.
  split; [intros expression _; exact (tokenize_fold_minus expression)|].
  repeat split; vm_compute; reflexivity.
Qed.

(** C4.  The division agent's function raises the division-by-zero
    error exactly when the divisor equals zero and returns the quotient
    otherwise, and so does the agent's [perform_operation]; [5/0] fails
    with that error and no number is returned or kept as the result. *)
Theorem division_by_zero_raises :
  (forall a b,
      safe_div a b
      = if (b =? 0)%float
        then inl (ValueError "División por cero no permitida")
        else inr (PyFloat (a / b)%float))
  /\ (forall a b m,
         fst (perform_operation DivisionAgent a b m)
         = if (b =? 0)%float
           then Raise (ValueError "División por cero no permitida")
           else Return (PyFloat (a / b)%float))
  /\ evaluate "5/0" = Raise (ValueError "División por cero no permitida")
  /\ result_attr (io_agent (snd (calculate "5/0" CalculatorModel_init)))
     = None.
Proof.
  split; [reflexivity|]. split; [|split; vm_compute; reflexivity].
  intros a b m. unfold perform_operation, try_except, bind, lift.
  change (operation_func DivisionAgent a b) with (safe_div a b).
  unfold safe_div. destruct (b =? 0)%float; reflexivity.
Qed.

(** C5.  Resolving parentheses: with [start] the index of the last
    ["("], if no [")"] follows it the unbalanced-parentheses error is
    raised; if the first [")"] after it is at [end_] and the tokens in
    between evaluate to [r], the group is replaced by the one token
    [str(r)] and the resolution goes on with the shorter list, until
    no ["("] is left and the list is returned.  So [(2+3] fails with
    that error. *)
Theorem parenthesis_resolution :
  (forall tokens start m,
      start < List.length tokens -> nth start tokens "" = "(" ->
      (forall j, start < j -> j < List.length tokens ->
                 nth j tokens "" <> "(") ->
      ((forall j, start < j -> j < List.length tokens ->
                  nth j tokens "" <> ")") ->
       handle_parentheses tokens m
       = (Raise (ValueError "Paréntesis no balanceados"), m))
      /\ (forall end_ r m',
             start < end_ -> end_ < List.length tokens ->
             nth end_ tokens "" = ")" ->
             (forall j, start < j -> j < end_ -> nth j tokens "" <> ")") ->
             evaluate_expression (slice (start + 1) end_ tokens)
               (snd (add_log
                       ("[IO] Evaluando paréntesis: "
                        ++ PyStr.join " " (slice (start + 1) end_ tokens))%string
                       m))
             = (Return r, m') ->
             handle_parentheses tokens m
             = handle_parentheses
                 (firstn start tokens ++ [PyFloat.str_float r]
                  ++ skipn (end_ + 1) tokens) m'))
  /\ (forall tokens m,
         in_list "(" tokens = false ->
         handle_parentheses tokens m = (Return tokens, m))
  /\ evaluate "(2+3" = Raise (ValueError "Paréntesis no balanceados").
Proof.
  split; [|split; [|vm_compute; reflexivity]].
  2:{ intros tokens m H. unfold handle_parentheses.
      now rewrite handle_parentheses_fuel_eq, H. }
  intros tokens start m Hstart Hopen Hlast.
  assert (Hin : in_list "(" tokens = true) by now apply (in_list_nth _ start).
  assert (Hlo : last_open tokens 0 None = Some start)
    by now apply (last_open_complete tokens 0 None start).
  unfold handle_parentheses at 1 2, expression_fuel.
  replace (2 * List.length tokens + 2) with (S (2 * List.length tokens + 1))
    by lia.
  rewrite handle_parentheses_fuel_eq, Hin, Hlo. split.
  - intros Hnone. rewrite first_close_absent; [reflexivity|].
    intros j Hj. rewrite length_skipn in Hj. rewrite nth_skipn_string.
    apply Hnone; lia.
  - intros end_ r m' H1 H2 Hclose Hfirst Heval.
    replace (first_close (skipn (start + 1) tokens) (start + 1))
      with (Some end_).
    2:{ symmetry.
        rewrite (first_close_complete _ (start + 1) (end_ - (start + 1))).
        - f_equal. lia.
        - rewrite length_skipn. lia.
        - rewrite nth_skipn_string.
          now replace (start + 1 + (end_ - (start + 1))) with end_ by lia.
        - intros j Hj. rewrite nth_skipn_string. apply Hfirst; lia. }
    cbv zeta. unfold bind at 1.
    change (add_log ?s m) with (Return tt, snd (add_log s m)).
    cbv iota. unfold bind.
    pose proof (slice_length tokens start end_ H1 H2) as Hsl.
    rewrite (proj1 (fuel_irrelevant _
               (expression_fuel (slice (start + 1) end_ tokens)) _ _))
      by (unfold expression_fuel; lia).
    fold (evaluate_expression (slice (start + 1) end_ tokens)).
    rewrite Heval.
    pose proof (paren_spliced_length tokens start end_
                  (PyFloat.str_float r) H1 H2) as Hpl.
    apply (proj2 (fuel_irrelevant _ _ _ _)); unfold expression_fuel; lia.
Qed.

(** C7.  A pass of a tier that returns has logged one exchange, the
    operation message from the IO agent to the handler and the
    handler's result message back, for each substitution it made, a
    substitution being what takes the list from three tokens to one.
    After a successful evaluation the broker's history is, in order,
    exactly these exchanges, the result of each being what the
    handler's function returns on the operands; there is one for every
    operator token of the tokenized expression, and the queue is
    empty. *)
Theorem successful_evaluation_exchanges :
  (forall tokens operators m tokens' m',
      idle m ->
      evaluate_operator tokens operators m = (Return tokens', m') ->
      exists tr,
        message_history (broker m')
        = message_history (broker m) ++ exchanges tr
        /\ Forall sound tr
        /\ List.length tokens = List.length tokens' + 2 * List.length tr)
  /\ (forall expression m r m',
         idle m ->
         calculate expression m = (Return r, m') ->
         exists tr,
           message_history (broker m') = exchanges tr
           /\ Forall sound tr
           /\ (forall a, count_agent a tr
                         = count_symbol a
                             (tokenize
                                (PyStr.remove_char " "%char expression)))
           /\ message_queue (broker m') = []).
Proof.
  split; [exact tier_pass_exchanges|].
  intros expression m r m' Hm E.
  destruct (calculate_returns expression m r m' Hm E)
    as (tr & I' & Hh & Hs & Hc & _).
  exists tr. repeat split; try assumption. apply I'.
Qed.

(** C8.  An agent's counter changes only when its own operation
    succeeds: [perform_operation] adds one to the counter of the agent
    that performs when its function returns, nothing when it raises,
    and never touches another agent's counter.  An evaluation starts
    from the counters as they are and, whatever its outcome, leaves each
    higher by the number of results the agent sent. *)
Theorem counters_follow_successful_applications :
  (forall self x y m a,
      operations_performed (agent a (snd (perform_operation self x y m)))
      = operations_performed (agent a m)
        + (if agent_eqb a self
           then match operation_func self x y with
                | inr _ => 1
                | inl _ => 0
                end
           else 0))
  /\ (forall expression m,
         idle m ->
         forall a,
           operations_performed (agent a (snd (calculate expression m)))
           = operations_performed (agent a m)
             + count_results a
                 (message_history (broker (snd (calculate expression m))))).
Proof.
  split; [|exact calculate_counts].
  intros self x y m a. unfold perform_operation, try_except, bind, lift.
  destruct (operation_func self x y) as [e|r];
    destruct self, a; simpl; lia.
Qed.

(** C9, as amended.  An evaluation that succeeds raises each agent's
    counter by the number of tokens of the tokenized expression that
    are the agent's operator (a [-] folded into a negative literal is
    not one); evaluating the same expression again succeeds with the
    same value and raises them by as much again.
    [reset_statistics] followed by [get_statistics] gives zero for
    every operator. *)
Theorem successful_evaluations_count_operators :
  (forall expression m r m1,
      idle m ->
      calculate expression m = (Return r, m1) ->
      exists m2,
        calculate expression m1 = (Return r, m2)
        /\ forall a,
             let n := count_symbol a
                        (tokenize (PyStr.remove_char " "%char expression)) in
             operations_performed (agent a m1)
             = operations_performed (agent a m) + n
             /\ operations_performed (agent a m2)
                = operations_performed (agent a m) + 2 * n)
  /\ (forall m,
         get_statistics (reset_statistics m)
         = [("Sumas", 0); ("Restas", 0); ("Multiplicaciones", 0);
            ("Divisiones", 0); ("Potencias", 0)]).
Proof.
  split; [|reflexivity].
  intros expression m r m1 Hm E.
  destruct (calculate_returns expression m r m1 Hm E)
    as (tr & I1 & _ & _ & Hn & Hc1 & Hagain).
  destruct (Hagain m1 I1) as (m2 & E2 & _ & Hc2).
  exists m2. split; [exact E2|]. intros a n. subst n.
  rewrite <- (Hn a). split; [apply Hc1|]. rewrite (Hc2 a), (Hc1 a). lia.
Qed.

(** ** Further properties: the broker *)

Lemma filter_partition_permutation {A} (f : A -> bool) (l : list A) :
  Permutation (filter f l ++ filter (fun x => negb (f x)) l) l.
Proof.
  induction l as [|x l IH]; [constructor|]. simpl.
  destruct (f x); simpl.
  - now constructor.
  - apply Permutation_sym, Permutation_cons_app, Permutation_sym, IH.
Qed.

Lemma filter_negb_filter {A} (f : A -> bool) (l : list A) :
  filter f (filter (fun x => negb (f x)) l) = [].
Proof.
  induction l as [|x l IH]; [reflexivity|]. simpl.
  destruct (f x) eqn:E; simpl; [exact IH | now rewrite E].
Qed.

Lemma filter_idempotent {A} (f : A -> bool) (l : list A) :
  filter f (filter f l) = filter f l.
Proof.
  induction l as [|x l IH]; [reflexivity|]. simpl.
  destruct (f x) eqn:E; simpl; [rewrite E; now f_equal | exact IH].
Qed.

(** X1.  [get_messages_for] hands over, in the order they were queued,
    exactly the pending messages addressed to the agent, and takes them
    off the queue: together with those that stay they make up the queue
    as it was, each message once; the history is not touched; asking
    again hands over nothing and changes nothing. *)
Theorem get_messages_for_delivers_once :
  forall agent_id m,
    let m' := snd (get_messages_for agent_id m) in
    (exists delivered,
        fst (get_messages_for agent_id m) = Return delivered
        /\ Forall (fun x => receiver x = agent_id) delivered
        /\ Forall (fun x => receiver x <> agent_id) (message_queue (broker m'))
        /\ Permutation (delivered ++ message_queue (broker m'))
             (message_queue (broker m)))
    /\ message_history (broker m') = message_history (broker m)
    /\ get_messages_for agent_id m' = (Return [], m').
Proof.
  intros agent_id m m'. subst m'.
  destruct m as [[q h le] lg sa ra ma da pa io]. cbn.
  split; [|split; [reflexivity|]].
  - eexists. split; [reflexivity|]. split; [|split].
    + apply Forall_forall. intros x Hx. apply filter_In in Hx.
      now apply String.eqb_eq.
    + apply Forall_forall. intros x Hx. apply filter_In in Hx.
      destruct Hx as [_ Hx]. apply negb_true_iff in Hx.
      now apply String.eqb_neq.
    + apply filter_partition_permutation.
  - unfold get_messages_for. cbn.
    rewrite (filter_negb_filter (fun x => receiver x =? agent_id)).
    now rewrite (filter_idempotent (fun x => negb (receiver x =? agent_id))).
Qed.

(** X2.  A message sent is queued behind those already pending: the
    next delivery to its receiver ends with it, a delivery to anyone
    else does not hold it.  It is added to the history when logging is
    on, and the history is left as it was when logging is off. *)
Theorem send_message_then_delivery :
  forall msg agent_id m,
    let m1 := snd (send_message msg m) in
    fst (get_messages_for agent_id m1)
    = Return (filter (fun x => receiver x =? agent_id)
                (message_queue (broker m))
              ++ (if receiver msg =? agent_id then [msg] else []))
    /\ message_history (broker m1)
       = (if log_enabled (broker m)
          then message_history (broker m) ++ [msg]
          else message_history (broker m))
    /\ message_history (broker (snd (get_messages_for agent_id m1)))
       = message_history (broker m1).
Proof.
  intros msg agent_id m m1. subst m1.
  destruct m as [[q h le] lg sa ra ma da pa io]. cbn.
  split; [|split; reflexivity].
  rewrite filter_app. cbn. now destruct (receiver msg =? agent_id).
Qed.

Lemma count_agent_single b a x y r :
  count_agent b
    [ {| d_agent := a; d_operand1 := x; d_operand2 := y; d_result := r |} ]
  = if agent_eqb b a then 1 else 0.
Proof. unfold count_agent. simpl. now destruct (agent_eqb b a). Qed.

(** X3.  One dispatch, from a model with nothing pending: the IO agent
    gets back what the handler's function gives on the operands, its
    value or its exception; the request is in the history, followed by
    the handler's answer if there is one; the queue is empty again; the
    handler's counter has gone up by one if it answered, and no other
    counter has moved.  An operator without a handler is refused before
    anything is sent. *)
Theorem request_operation_contract :
  (forall a x y m,
      idle m ->
      let out := request_operation (symbol a) x y m in
      fst out
      = match operation_func a x y with
        | inr r => Return r
        | inl e => Raise e
        end
      /\ message_queue (broker (snd out)) = []
      /\ message_history (broker (snd out))
         = message_history (broker m)
           ++ request_of a x y
              :: match operation_func a x y with
                 | inr r => [response_of a r]
                 | inl _ => []
                 end
      /\ forall b,
           operations_performed (agent b (snd out))
           = operations_performed (agent b m)
             + (if agent_eqb b a
                then match operation_func a x y with
                     | inr _ => 1
                     | inl _ => 0
                     end
                else 0))
  /\ (forall op x y m,
         operator_map op = None ->
         request_operation op x y m
         = (Raise (ValueError ("Operador no soportado: " ++ op)%string), m)).
Proof.
  split.
  - intros a x y m Hm out. subst out.
    destruct (operation_func a x y) as [e|r] eqn:Hf.
    + destruct (request_operation_raises a x y e Hf m Hm)
        as (m' & E & (Hq & _) & Hh & Hc).
      rewrite E. simpl fst. simpl snd.
      split; [reflexivity|]. split; [exact Hq|]. split; [exact Hh|].
      intros b. rewrite (Hc b). unfold count_agent. simpl.
      now destruct (agent_eqb b a).
    + destruct (request_operation_returns a x y r Hf m Hm)
        as (m' & E & (Hq & _) & Hh & Hc).
      rewrite E. simpl fst. simpl snd.
      split; [reflexivity|]. split; [exact Hq|].
      split; [rewrite Hh; reflexivity|].
      intros b. rewrite (Hc b). now rewrite count_agent_single.
  - intros op x y m H. unfold request_operation. now rewrite H.
Qed.

Lemma step_messages_ignores a msgs m :
  Forall (fun x => msg_type x <> "operation") msgs ->
  step_messages a msgs m = (Return tt, m).
Proof.
  induction 1 as [|x msgs Hx _ IH]; [reflexivity|].
  simpl. apply String.eqb_neq in Hx. rewrite Hx.
  unfold bind. simpl. exact IH.
Qed.

(** X4.  An operation agent answers operation messages only: when none
    of the pending messages addressed to it is of type ["operation"],
    its [step] takes them off the queue and does nothing else; no
    reply, no count, no line in the log. *)
Theorem step_ignores_other_messages :
  forall a m,
    Forall (fun x => receiver x = unique_id a -> msg_type x <> "operation")
      (message_queue (broker m)) ->
    step a m
    = (Return tt,
       set_broker
         {| message_queue :=
              filter (fun x => negb (receiver x =? unique_id a))
                (message_queue (broker m));
            message_history := message_history (broker m);
            log_enabled := log_enabled (broker m) |} m).
Proof.
  intros a m H. unfold step, bind. cbn [get_messages_for].
  apply step_messages_ignores.
  apply Forall_forall. intros x Hx. apply filter_In in Hx.
  destruct Hx as [Hin Hr]. apply String.eqb_eq in Hr.
  rewrite Forall_forall in H. now apply H.
Qed.

(** ** Further properties: the tokens *)

Lemma span_digits_fst_digits s :
  PyStr.all_digits (fst (PyFloat.span_digits s)) = true.
Proof.
  induction s as [|c s IH]; [reflexivity|]. simpl.
  destruct (PyStr.is_digit c) eqn:Hc; [|reflexivity].
  destruct (PyFloat.span_digits s). simpl in *. now rewrite Hc.
Qed.

Lemma span_digits_all_digits d :
  PyStr.all_digits d = true -> PyFloat.span_digits d = (d, ""%string).
Proof.
  induction d as [|c d IH]; [reflexivity|]. simpl. intros H.
  apply andb_prop in H. destruct H as [Hc Hd].
  now rewrite Hc, (IH Hd).
Qed.

Lemma span_digits_before_point d r :
  PyStr.all_digits d = true ->
  PyFloat.span_digits (d ++ String "."%char r)%string
  = (d, String "."%char r).
Proof.
  intros Hd. rewrite span_digits_app by reflexivity.
  now rewrite (span_digits_all_digits d Hd).
Qed.

Lemma span_digits_head c r :
  PyStr.is_digit c = true ->
  exists ip' r1, PyFloat.span_digits (String c r) = (String c ip', r1).
Proof.
  intros Hc. simpl. rewrite Hc.
  destruct (PyFloat.span_digits r) as [d rest]. now exists d, rest.
Qed.

Lemma is_numeral_digits c d :
  PyStr.all_digits (String c d) = true -> is_numeral (String c d) = true.
Proof.
  intros H. unfold is_numeral. now rewrite (span_digits_all_digits _ H).
Qed.

Lemma is_numeral_point c d fp :
  PyStr.all_digits (String c d) = true -> PyStr.all_digits fp = true ->
  is_numeral (String c d ++ "." ++ fp)%string = true.
Proof.
  intros Hd Hfp. unfold is_numeral.
  change (String c d ++ "." ++ fp)%string
    with (String c d ++ String "."%char fp)%string.
  rewrite (span_digits_before_point _ fp Hd). simpl. exact Hfp.
Qed.

(** What the pattern matches is a numeral, an operator or a
    parenthesis. *)
Lemma match_token_shape s tok rest :
  match_token s = Some (tok, rest) ->
  is_symbol_token tok = true \/ is_numeral tok = true.
Proof.
  destruct s as [|c r]; [discriminate|]. unfold match_token.
  destruct (PyStr.is_digit c) eqn:Hd.
  - intros H. right.
    pose proof (span_digits_fst_digits (String c r)) as Hall.
    destruct (span_digits_head c r Hd) as (ip' & r1 & Hsp).
    rewrite Hsp in *. simpl fst in Hall.
    destruct r1 as [|c1 r2];
      [injection H as <- _; now apply is_numeral_digits|].
    destruct (Ascii.eqb_spec c1 "."%char) as [-> | Hc1];
      [|injection H as <- _; now apply is_numeral_digits].
    pose proof (span_digits_fst_digits r2) as Hfp.
    destruct (PyFloat.span_digits r2) as [fp r3]. simpl in Hfp.
    injection H as <- _. now apply is_numeral_point.
  - intros H. left.
    repeat match goal with
           | H : (if ?b then _ else _) = _ |- _ => destruct b
           end;
      try discriminate; try (now injection H as <- _).
    destruct r as [|c1 r2]; [now injection H as <- _|].
    destruct (Ascii.eqb c1 "*"%char); now injection H as <- _.
Qed.

Lemma findall_from_shape fuel :
  forall s,
    Forall (fun t => is_symbol_token t = true \/ is_numeral t = true)
      (findall_from fuel s).
Proof.
  induction fuel as [|f IH]; intros s; [constructor|].
  rewrite findall_from_step. destruct s as [|c r]; [constructor|].
  destruct (match_token (String c r)) as [[tok rest]|] eqn:Hm; [|apply IH].
  constructor; [exact (match_token_shape _ _ _ Hm) | apply IH].
Qed.

Lemma symbol_token_not_numeric t :
  is_symbol_token t = true -> purely_numeric t = false.
Proof.
  unfold is_symbol_token, in_list. intros H. apply existsb_exists in H.
  destruct H as (x & Hin & Hx). apply String.eqb_eq in Hx. subst x.
  simpl in Hin. repeat (destruct Hin as [<- | Hin]; [reflexivity|]).
  contradiction.
Qed.

Lemma nth_Forall_string (P : string -> Prop) (l : list string) i :
  Forall P l -> i < List.length l -> P (nth i l ""%string).
Proof.
  intros H Hi. rewrite Forall_forall in H. apply H. now apply nth_In.
Qed.

Lemma minus_folds_next tokens i :
  minus_folds tokens i = true ->
  i + 1 < List.length tokens
  /\ purely_numeric (nth (i + 1) tokens ""%string) = true.
Proof.
  unfold minus_folds. intros H.
  destruct (nth_error tokens i) as [t|]; [|discriminate].
  destruct (nth_error tokens (i + 1)) as [n|] eqn:E; [|discriminate].
  apply andb_prop in H. destruct H as [_ H].
  assert (Hlt : i + 1 < List.length tokens)
    by (apply nth_error_Some; congruence).
  split; [exact Hlt|].
  rewrite (nth_error_nth_string tokens (i + 1) Hlt) in E.
  now injection E as ->.
Qed.

Lemma tokenize_shapes expression :
  Forall (fun t => is_symbol_token t = true \/ is_number_token t = true)
    (tokenize expression).
Proof.
  rewrite tokenize_fold_minus. unfold fold_minus.
  pose proof (findall_from_shape (String.length expression) expression)
    as Hraw. fold (findall expression) in Hraw.
  apply Forall_flat_map. apply Forall_forall. intros i Hi.
  apply in_seq in Hi. simpl in Hi. unfold folded_output.
  destruct (minus_folds (findall expression) i) eqn:Hfold.
  - destruct (minus_folds_next _ _ Hfold) as [Hlt Hnum].
    constructor; [|constructor]. right.
    destruct (nth_Forall_string _ _ (i + 1) Hraw Hlt) as [Hs | Hn].
    + rewrite (symbol_token_not_numeric _ Hs) in Hnum. discriminate.
    + unfold is_number_token. simpl. rewrite Hn.
      first [reflexivity | apply orb_true_r].
  - destruct ((0 <? i)%nat && minus_folds (findall expression) (i - 1));
      [constructor|].
    constructor; [|constructor].
    destruct (nth_Forall_string _ _ i Hraw (proj2 Hi)) as [Hs | Hn];
      [now left | right].
    unfold is_number_token. now rewrite Hn.
Qed.

(** X5.  Every token of [tokenize], for an ASCII string whatever, is
    an operator, a parenthesis or a number: digits, possibly a point
    and more digits, possibly with the minus sign folded in front.
    Nothing else reaches the evaluator. *)
Theorem tokenize_token_shapes :
  forall expression,
    PyStr.is_ascii expression = true ->
    Forall (fun t => is_symbol_token t = true \/ is_number_token t = true)
      (tokenize expression).
Proof. intros expression _. exact (tokenize_shapes expression). Qed.

Lemma float_literal_minus n :
  PyFloat.float_literal (String "-"%char n) = float_of_unsigned true n.
Proof. reflexivity. Qed.

Lemma float_literal_digit c r :
  PyStr.is_digit c = true ->
  PyFloat.float_literal (String c r) = float_of_unsigned false (String c r).
Proof.
  intros Hc. destruct c as [[] [] [] [] [] [] [] []];
    try discriminate Hc; reflexivity.
Qed.

Lemma kept_app a b : kept (a ++ b)%string = kept a && kept b.
Proof.
  induction a as [|c a IH]; [reflexivity|]. simpl.
  now rewrite IH, andb_assoc.
Qed.

Lemma kept_lstrip s : kept s = true -> PyStr.lstrip s = s.
Proof.
  destruct s as [|c r]; [reflexivity|]. simpl. unfold kept_char.
  destruct (PyStr.is_space c); [discriminate | reflexivity].
Qed.

Lemma kept_rstrip s : kept s = true -> PyStr.rstrip s = s.
Proof.
  induction s as [|c r IH]; [reflexivity|]. simpl. intros H.
  apply andb_prop in H. destruct H as [Hc Hr]. rewrite (IH Hr).
  unfold kept_char in Hc. destruct r; [|reflexivity].
  destruct (PyStr.is_space c); [discriminate | reflexivity].
Qed.

Lemma kept_remove_underscore s :
  kept s = true -> PyStr.remove_char "_"%char s = s.
Proof.
  induction s as [|c r IH]; [reflexivity|]. simpl. intros H.
  apply andb_prop in H. destruct H as [Hc Hr]. rewrite (IH Hr).
  unfold kept_char in Hc. destruct (Ascii.eqb c "_"%char);
    [now rewrite andb_false_r in Hc | reflexivity].
Qed.

Lemma kept_underscores s :
  forall prev,
    Ascii.eqb prev "_"%char = false -> kept s = true ->
    PyFloat.underscores_between_digits prev s = true.
Proof.
  induction s as [|c r IH]; intros prev Hp H; simpl; [now rewrite Hp|].
  simpl in H. apply andb_prop in H. destruct H as [Hc Hr].
  assert (Hu : Ascii.eqb c "_"%char = false).
  { unfold kept_char in Hc. destruct (Ascii.eqb c "_"%char);
      [now rewrite andb_false_r in Hc | reflexivity]. }
  rewrite Hu, Hp. simpl. now apply IH.
Qed.

(** Without whitespace and underscores [float] reads the string as it
    is. *)
Lemma float_of_string_kept s :
  kept s = true -> PyFloat.float_of_string s = PyFloat.float_literal s.
Proof.
  intros H. unfold PyFloat.float_of_string, PyStr.strip.
  rewrite (kept_lstrip s H), (kept_rstrip s H).
  rewrite (kept_underscores s Ascii.zero eq_refl H).
  now rewrite (kept_remove_underscore s H).
Qed.

Lemma digit_kept c : PyStr.is_digit c = true -> kept_char c = true.
Proof.
  intros Hc. destruct c as [[] [] [] [] [] [] [] []];
    try discriminate Hc; reflexivity.
Qed.

Lemma all_digits_kept s : PyStr.all_digits s = true -> kept s = true.
Proof.
  induction s as [|c r IH]; [reflexivity|]. simpl. intros H.
  apply andb_prop in H. destruct H as [Hc Hr].
  now rewrite (digit_kept c Hc), (IH Hr).
Qed.

Lemma span_digits_concat s :
  s = (fst (PyFloat.span_digits s) ++ snd (PyFloat.span_digits s))%string.
Proof.
  induction s as [|c r IH]; [reflexivity|]. simpl.
  destruct (PyStr.is_digit c); [|reflexivity].
  destruct (PyFloat.span_digits r) as [d rest]. simpl in *. now rewrite <- IH.
Qed.

Lemma numeral_kept t : is_numeral t = true -> kept t = true.
Proof.
  unfold is_numeral. intros H.
  pose proof (span_digits_fst_digits t) as Hall.
  pose proof (span_digits_concat t) as Hcat.
  destruct (PyFloat.span_digits t) as [ip r1]. simpl in Hall, Hcat.
  apply andb_prop in H. destruct H as [_ Hr1].
  rewrite Hcat, kept_app, (all_digits_kept ip Hall). simpl.
  destruct r1 as [|c fp]; [reflexivity|].
  apply andb_prop in Hr1. destruct Hr1 as [Hc Hfp].
  apply Ascii.eqb_eq in Hc. subst c. simpl.
  now apply all_digits_kept.
Qed.

Lemma number_token_kept t : is_number_token t = true -> kept t = true.
Proof.
  unfold is_number_token. intros H. apply orb_prop in H.
  destruct H as [H | H]; [now apply numeral_kept|].
  destruct t as [|c n]; [discriminate|].
  apply andb_prop in H. destruct H as [Hc Hn].
  apply Ascii.eqb_eq in Hc. subst c. simpl. now apply numeral_kept.
Qed.

Lemma lower_digit_head c r (w : string) :
  PyStr.is_digit c = true ->
  (w = "inf" \/ w = "infinity" \/ w = "nan")%string ->
  (PyStr.lower (String c r) =? w)%string = false.
Proof.
  intros Hc Hw. destruct c as [[] [] [] [] [] [] [] []];
    try discriminate Hc; destruct Hw as [-> | [-> | ->]]; reflexivity.
Qed.

Lemma float_of_unsigned_numeral neg t :
  is_numeral t = true -> exists x, float_of_unsigned neg t = Some x.
Proof.
  unfold is_numeral. intros H.
  pose proof (span_digits_fst_digits t) as Hall.
  destruct (PyFloat.span_digits t) as [ip r1] eqn:Hsp. simpl in Hall.
  apply andb_prop in H. destruct H as [Hip Hr1].
  destruct ip as [|d ip']; [discriminate|].
  destruct t as [|c r]; [discriminate|].
  assert (Hc : PyStr.is_digit c = true).
  { simpl in Hsp. destruct (PyStr.is_digit c); [reflexivity|discriminate]. }
  unfold float_of_unsigned.
  rewrite !(lower_digit_head c r) by (assumption || tauto).
  cbv zeta. simpl orb. cbv iota. rewrite Hsp.
  destruct r1 as [|c1 fp].
  - simpl. eexists. reflexivity.
  - apply andb_prop in Hr1. destruct Hr1 as [Hc1 Hfp].
    apply Ascii.eqb_eq in Hc1. subst c1.
    rewrite (span_digits_all_digits fp Hfp). simpl. eexists. reflexivity.
Qed.

Lemma number_token_converts t :
  is_number_token t = true -> exists x, float_of_token t = inr x.
Proof.
  intros Hn.
  assert (Hx : exists x, PyFloat.float_of_string t = Some x).
  { rewrite (float_of_string_kept t (number_token_kept t Hn)).
    unfold is_number_token in Hn. apply orb_prop in Hn.
    destruct Hn as [Hn | Hn].
    - assert (Hd : exists c r, t = String c r /\ PyStr.is_digit c = true).
      { unfold is_numeral in Hn. destruct t as [|c r]; [discriminate|].
        exists c, r. split; [reflexivity|]. simpl in Hn.
        destruct (PyStr.is_digit c); [reflexivity | discriminate]. }
      destruct Hd as (c & r & -> & Hc).
      rewrite (float_literal_digit c r Hc).
      now apply float_of_unsigned_numeral.
    - destruct t as [|c n]; [discriminate|].
      apply andb_prop in Hn. destruct Hn as [Hc Hn].
      apply Ascii.eqb_eq in Hc. subst c.
      rewrite float_literal_minus. now apply float_of_unsigned_numeral. }
  destruct Hx as (x & Hx). exists x. unfold float_of_token. now rewrite Hx.
Qed.

(** X6.  The tokenizer and [float] agree on what a number is: for an
    ASCII string, every token of [tokenize] that is not an operator or
    a parenthesis is a number token, and [float] accepts it. *)
Theorem number_tokens_convert :
  forall expression t,
    PyStr.is_ascii expression = true ->
    In t (tokenize expression) ->
    is_symbol_token t = false ->
    is_number_token t = true /\ exists x, float_of_token t = inr x.
Proof.
  intros expression t _ Hin Hsym.
  pose proof (tokenize_shapes expression) as Hall.
  rewrite Forall_forall in Hall. pose proof (Hall t Hin) as Hshape.
  destruct Hshape as [Hs | Hn]; [congruence|].
  split; [exact Hn|]. now apply number_token_converts.
Qed.

(** X19.  The scan has no failure: in an ASCII string, a character that
    is not a digit, a decimal point, an operator character or a
    parenthesis is passed over, and only separates what is scanned
    before it from what is scanned after it. *)
Theorem tokenize_skips_unrecognized :
  forall s1 c s2,
    PyStr.is_ascii s1 = true ->
    PyStr.is_ascii s2 = true ->
    unrecognized c = true ->
    findall (s1 ++ String c s2)%string = findall s1 ++ findall s2
    /\ tokenize (s1 ++ String c s2)%string
       = fold_minus (findall s1 ++ findall s2).
Proof.
  intros s1 c s2 _ _ Hc. split; [now apply findall_skips|].
  now rewrite tokenize_fold_minus, findall_skips.
Qed.

(** ** Further properties: the evaluator *)

Lemma Forall_firstn_string (P : string -> Prop) n (l : list string) :
  Forall P l -> Forall P (firstn n l).
Proof.
  intros H. revert n. induction H as [|x l Hx _ IH]; intros [|n]; simpl;
    constructor; [exact Hx | apply IH].
Qed.

Lemma firstn_succ_nth (l : list string) i :
  i < List.length l -> firstn (S i) l = firstn i l ++ [nth i l ""%string].
Proof.
  revert i. induction l as [|t l IH]; intros i Hi; simpl in Hi; [lia|].
  destruct i as [|i]; [reflexivity|]. simpl. f_equal. apply IH. lia.
Qed.

Lemma firstn_spliced (tokens : list string) i s :
  0 < i -> i + 1 < List.length tokens ->
  firstn i (firstn (i - 1) tokens ++ [s] ++ skipn (i + 2) tokens)
  = firstn (i - 1) tokens ++ [s].
Proof.
  intros H0 H1. rewrite firstn_app, length_firstn.
  replace (Init.Nat.min (i - 1) (List.length tokens)) with (i - 1) by lia.
  replace (i - (i - 1)) with 1 by lia.
  rewrite firstn_firstn. now replace (Init.Nat.min i (i - 1)) with (i - 1) by lia.
Qed.

Lemma word_token_not_in_list s operators :
  (forall op, In op operators -> has_word_char op = false) ->
  has_word_char s = true -> in_list s operators = false.
Proof.
  intros Hops Hs. unfold in_list.
  destruct (existsb (String.eqb s) operators) eqn:E; [|reflexivity].
  apply existsb_exists in E. destruct E as (op & Hin & Heq).
  apply String.eqb_eq in Heq. subst op.
  rewrite (Hops s Hin) in Hs. discriminate.
Qed.

Lemma tier_clears fuel :
  forall tokens operators i m tokens' m',
    (forall op, In op operators -> has_word_char op = false) ->
    Forall (fun t => in_list t operators = false) (firstn i tokens) ->
    evaluate_operator_from fuel tokens operators i m = (Return tokens', m') ->
    Forall (fun t => in_list t operators = false) tokens'.
Proof.
  induction fuel as [|f IH]; intros tokens operators i m tokens' m' Hops Hpre;
    rewrite evaluate_operator_from_eq;
    destruct (Nat.ltb_spec i (List.length tokens)) as [Hi|Hi];
    try (intros E; injection E as <- _;
         now rewrite firstn_all2 in Hpre by lia);
    [discriminate|].
  cbv zeta. destruct (in_list (nth i tokens "") operators) eqn:Hop.
  2:{ apply IH; [exact Hops|]. replace (i + 1) with (S i) by lia.
      rewrite firstn_succ_nth by lia. apply Forall_app. split; [exact Hpre|].
      now constructor. }
  destruct ((i =? 0) || (i =? List.length tokens - 1))%nat eqn:Hpos;
    [discriminate|].
  apply orb_false_iff in Hpos. destruct Hpos as [H0 H1].
  apply Nat.eqb_neq in H0, H1.
  unfold bind at 1.
  destruct (float_of_token (nth (i - 1) tokens "")) as [e1|x];
    [discriminate|].
  cbn [lift ret]. unfold bind at 1.
  destruct (float_of_token (nth (i + 1) tokens "")) as [e2|y];
    [discriminate|].
  cbn [lift ret]. unfold bind at 1.
  destruct (request_operation (nth i tokens "") x y m) as [[r|e|] m1];
    [|discriminate|discriminate].
  apply IH; [exact Hops|]. rewrite firstn_spliced by lia.
  apply Forall_app. split.
  - assert (E : firstn (i - 1) tokens = firstn (i - 1) (firstn i tokens))
      by (rewrite firstn_firstn; f_equal; lia).
    rewrite E. now apply Forall_firstn_string.
  - constructor; [|constructor].
    apply word_token_not_in_list; [exact Hops|].
    apply str_value_has_word_char.
Qed.

(** X8.  A pass of a tier that returns leaves none of the tier's
    operators in the list, whatever the model it runs from; this holds
    for any list of operators that hold no digit, point or lowercase
    letter, as the three tiers are. *)
Theorem tier_leaves_no_operator :
  forall tokens operators m tokens' m',
    (forall op, In op operators -> has_word_char op = false) ->
    evaluate_operator tokens operators m = (Return tokens', m') ->
    Forall (fun t => in_list t operators = false) tokens'.
Proof.
  intros tokens operators m tokens' m' Hops E.
  apply (tier_clears _ _ _ 0 _ _ _ Hops (Forall_nil _) E).
Qed.

Lemma tier_without_operators fuel :
  forall tokens operators i m,
    List.length tokens <= fuel + i ->
    Forall (fun t => in_list t operators = false) (skipn i tokens) ->
    evaluate_operator_from fuel tokens operators i m = (Return tokens, m).
Proof.
  induction fuel as [|f IH]; intros tokens operators i m Hlen Hnone;
    rewrite evaluate_operator_from_eq;
    destruct (Nat.ltb_spec i (List.length tokens)) as [Hi|Hi];
    try reflexivity; [lia|].
  cbv zeta. rewrite (skipn_nth_cons tokens i Hi) in Hnone.
  inversion Hnone as [|? ? Hhead Htail]; subst. rewrite Hhead.
  apply IH; [lia|]. now replace (i + 1) with (S i) by lia.
Qed.

Lemma not_symbol_token t s :
  is_symbol_token t = false ->
  In s ["+"; "-"; "*"; "/"; "**"; "("; ")"]%string ->
  (t =? s)%string = false.
Proof.
  unfold is_symbol_token, in_list. intros H Hin.
  destruct (String.eqb_spec t s) as [->|]; [|reflexivity].
  assert (E : existsb (String.eqb s) ["+"; "-"; "*"; "/"; "**"; "("; ")"]%string
              = true).
  { apply existsb_exists. exists s. split; [exact Hin | apply String.eqb_refl]. }
  congruence.
Qed.

Lemma numbers_not_in (tokens operators : list string) :
  Forall (fun t => is_symbol_token t = false) tokens ->
  (forall op, In op operators ->
              In op ["+"; "-"; "*"; "/"; "**"; "("; ")"]%string) ->
  Forall (fun t => in_list t operators = false) tokens.
Proof.
  intros H Hops. apply Forall_forall. intros t Ht.
  rewrite Forall_forall in H. unfold in_list.
  destruct (existsb (String.eqb t) operators) eqn:E; [|reflexivity].
  apply existsb_exists in E. destruct E as (op & Hin & Heq).
  rewrite (not_symbol_token t op (H t Ht) (Hops op Hin)) in Heq. discriminate.
Qed.

Lemma numbers_evaluate :
  forall tokens m,
    Forall (fun t => is_symbol_token t = false) tokens ->
    evaluate_expression tokens m
    = (match tokens with
       | [t] =>
           match float_of_token t with
           | inr x => Return x
           | inl e => Raise e
           end
       | _ =>
           Raise (ValueError
                    ("Error en evaluación: tokens restantes = "
                     ++ PyStr.repr_list tokens)%string)
       end, m).
Proof.
  intros tokens m H.
  assert (Hno : forall ops,
             (forall op, In op ops ->
                         In op ["+"; "-"; "*"; "/"; "**"; "("; ")"]%string) ->
             evaluate_operator tokens ops m = (Return tokens, m)).
  { intros ops Hops. unfold evaluate_operator.
    apply tier_without_operators; [lia|]. now apply numbers_not_in. }
  assert (Hopen : in_list "(" tokens = false).
  { unfold in_list. destruct (existsb (String.eqb "(") tokens) eqn:E;
      [|reflexivity].
    apply existsb_exists in E. destruct E as (t & Hin & Heq).
    rewrite Forall_forall in H. rewrite String.eqb_sym in Heq.
    rewrite (not_symbol_token t "(" (H t Hin)) in Heq; [discriminate|].
    simpl. tauto. }
  rewrite evaluate_expression_flat by exact Hopen.
  unfold bind at 1. cbn [ret]. unfold evaluate_tiers, bind.
  rewrite !Hno by (simpl; intros op Hop; tauto).
  destruct tokens as [|t [|t' rest]]; try reflexivity.
  unfold lift. now destruct (float_of_token t).
Qed.

Lemma number_token_not_symbol t :
  is_number_token t = true -> is_symbol_token t = false.
Proof.
  intros H. unfold is_symbol_token, in_list.
  destruct (existsb (String.eqb t) ["+"; "-"; "*"; "/"; "**"; "("; ")"]%string)
    eqn:E; [|reflexivity].
  apply existsb_exists in E. destruct E as (s & Hin & Heq).
  apply String.eqb_eq in Heq. subst s. simpl in Hin.
  repeat (destruct Hin as [<- | Hin]; [now vm_compute in H|]).
  elim Hin.
Qed.

(** X9.  With number tokens only (numerals, a folded minus sign in
    front or not) nothing is dispatched and the model stays as it is:
    one token is converted with [float], which accepts it, and its
    value is returned; none (an empty expression) or several raise the
    remaining-tokens error. *)
Theorem numbers_only :
  forall tokens m,
    Forall (fun t => is_number_token t = true) tokens ->
    match tokens with
    | [t] =>
        exists x,
          float_of_token t = inr x
          /\ evaluate_expression tokens m = (Return x, m)
    | _ =>
        evaluate_expression tokens m
        = (Raise (ValueError
                    ("Error en evaluación: tokens restantes = "
                     ++ PyStr.repr_list tokens)%string), m)
    end.
Proof.
  intros tokens m H.
  assert (Hs : Forall (fun t => is_symbol_token t = false) tokens).
  { apply Forall_forall. intros t Ht. rewrite Forall_forall in H.
    apply number_token_not_symbol. now apply H. }
  pose proof (numbers_evaluate tokens m Hs) as E.
  destruct tokens as [|t [|t' rest]]; [exact E | | exact E].
  inversion H as [|? ? Ht _]; subst.
  destruct (number_token_converts t Ht) as (x & Hx).
  exists x. split; [exact Hx|]. now rewrite Hx in E.
Qed.

(** *** Parentheses are counted *)

Lemma count_token_app p l1 l2 :
  count_token p (l1 ++ l2) = count_token p l1 + count_token p l2.
Proof. unfold count_token. now rewrite filter_app, length_app. Qed.

Lemma count_token_cons p t l :
  count_token p (t :: l) = (if (p =? t)%string then 1 else 0) + count_token p l.
Proof. unfold count_token. simpl. now destruct (p =? t)%string. Qed.

Lemma parenthesis_not_float p t x :
  parenthesis p -> float_of_token t = inr x -> (p =? t)%string = false.
Proof.
  intros Hp Ht. destruct (String.eqb_spec p t) as [<-|]; [|reflexivity].
  destruct Hp as [-> | ->]; vm_compute in Ht; discriminate.
Qed.

Lemma parenthesis_not_word p s :
  parenthesis p -> has_word_char s = true -> (p =? s)%string = false.
Proof.
  intros Hp Hs. destruct (String.eqb_spec p s) as [<-|]; [|reflexivity].
  destruct Hp as [-> | ->]; discriminate.
Qed.

Lemma not_in_list_neq p t operators :
  in_list p operators = false -> in_list t operators = true ->
  (p =? t)%string = false.
Proof.
  intros Hp Ht. destruct (String.eqb_spec p t) as [<-|]; [congruence|reflexivity].
Qed.

Lemma tier_keeps_parentheses p fuel :
  parenthesis p ->
  forall tokens operators i m tokens' m',
    in_list p operators = false ->
    evaluate_operator_from fuel tokens operators i m = (Return tokens', m') ->
    count_token p tokens' = count_token p tokens.
Proof.
  intros Hp.
  induction fuel as [|f IH]; intros tokens operators i m tokens' m' Hops;
    rewrite evaluate_operator_from_eq;
    destruct (Nat.ltb_spec i (List.length tokens)) as [Hi|Hi];
    try (intros E; now injection E as <- _);
    [discriminate|].
  cbv zeta. destruct (in_list (nth i tokens "") operators) eqn:Hop;
    [|now apply IH].
  destruct ((i =? 0) || (i =? List.length tokens - 1))%nat eqn:Hpos;
    [discriminate|].
  apply orb_false_iff in Hpos. destruct Hpos as [H0 H1].
  apply Nat.eqb_neq in H0, H1.
  unfold bind at 1.
  destruct (float_of_token (nth (i - 1) tokens "")) as [e1|x] eqn:Hx;
    [discriminate|].
  cbn [lift ret]. unfold bind at 1.
  destruct (float_of_token (nth (i + 1) tokens "")) as [e2|y] eqn:Hy;
    [discriminate|].
  cbn [lift ret]. unfold bind at 1.
  destruct (request_operation (nth i tokens "") x y m) as [[r|e|] m1];
    [|discriminate|discriminate].
  intros E. rewrite (IH _ _ _ _ _ _ Hops E).
  replace (count_token p tokens)
    with (count_token p
            (firstn (i - 1) tokens
             ++ nth (i - 1) tokens "" :: nth i tokens ""
                :: nth (i + 1) tokens "" :: skipn (i + 2) tokens))
    by (now rewrite <- window_split by lia).
  rewrite !count_token_app, !count_token_cons.
  rewrite (parenthesis_not_float p _ x Hp Hx),
    (parenthesis_not_float p _ y Hp Hy),
    (not_in_list_neq p _ _ Hops Hop),
    (parenthesis_not_word p _ Hp (str_value_has_word_char r)).
  change (count_token p []) with 0. lia.
Qed.

Lemma evaluate_tiers_no_parenthesis p tokens m v m' :
  parenthesis p ->
  evaluate_tiers tokens m = (Return v, m') -> count_token p tokens = 0.
Proof.
  intros Hp. unfold evaluate_tiers, bind, evaluate_operator.
  assert (Hops : forall ops, In ops [["**"]; ["*"; "/"]; ["+"; "-"]]%string ->
                             in_list p ops = false).
  { intros ops Hin. simpl in Hin.
    destruct Hp as [-> | ->];
      repeat (destruct Hin as [<- | Hin]; [reflexivity|]); contradiction. }
  destruct (evaluate_operator_from _ tokens _ 0 m) as [[t1| |] m1] eqn:E1;
    try discriminate.
  destruct (evaluate_operator_from _ t1 _ 0 m1) as [[t2| |] m2] eqn:E2;
    try discriminate.
  destruct (evaluate_operator_from _ t2 _ 0 m2) as [[t3| |] m3] eqn:E3;
    try discriminate.
  apply (tier_keeps_parentheses p _ Hp) in E1, E2, E3;
    try (apply Hops; simpl; tauto).
  rewrite <- E1, <- E2, <- E3.
  destruct t3 as [|t [|t' rest]]; try discriminate.
  unfold lift. destruct (float_of_token t) as [e|x] eqn:Ht; [discriminate|].
  intros _. rewrite count_token_cons, (parenthesis_not_float p t x Hp Ht).
  reflexivity.
Qed.

Lemma sub_expression_split (tokens : list string) start end_ :
  last_open tokens 0 None = Some start ->
  first_close (skipn (start + 1) tokens) (start + 1) = Some end_ ->
  tokens = firstn start tokens
           ++ "("%string :: slice (start + 1) end_ tokens
           ++ ")"%string :: skipn (end_ + 1) tokens.
Proof.
  intros Hs He.
  destruct (paren_scan tokens start end_ Hs He) as (H1 & H2 & Ho & Hc).
  rewrite (paren_split tokens start end_ H1 H2) at 1. now rewrite Ho, Hc.
Qed.

Lemma parentheses_balance fuel :
  (forall tokens m v m',
      evaluate_expression_fuel fuel tokens m = (Return v, m') ->
      count_token "(" tokens = count_token ")" tokens)
  /\ (forall tokens m tokens' m',
         handle_parentheses_fuel fuel tokens m = (Return tokens', m') ->
         count_token "(" tokens + count_token ")" tokens'
         = count_token ")" tokens + count_token "(" tokens').
Proof.
  induction fuel as [|f [IHE IHH]].
  - split; [discriminate|]. intros tokens m tokens' m'.
    rewrite handle_parentheses_fuel_eq.
    destruct (in_list "(" tokens); [discriminate|].
    intros E. injection E as <- _. lia.
  - split.
    + intros tokens m v m'. rewrite evaluate_expression_fuel_eq. unfold bind.
      destruct (handle_parentheses_fuel f tokens m) as [[t1| |] m1] eqn:E1;
        try discriminate.
      intros E2. apply IHH in E1.
      rewrite (evaluate_tiers_no_parenthesis "(" _ _ _ _ (or_introl eq_refl) E2),
        (evaluate_tiers_no_parenthesis ")" _ _ _ _ (or_intror eq_refl) E2) in E1.
      lia.
    + intros tokens m tokens' m'. rewrite handle_parentheses_fuel_eq.
      destruct (in_list "(" tokens);
        [|intros E; injection E as <- _; lia].
      destruct (last_open tokens 0 None) as [start|] eqn:Hstart;
        [|intros E; injection E as <- _; lia].
      destruct (first_close (skipn (start + 1) tokens) (start + 1))
        as [end_|] eqn:Hend; [|discriminate].
      cbv zeta. unfold bind at 1.
      destruct (add_log _ m) as [[[]| |] m0]; try discriminate.
      unfold bind.
      destruct (evaluate_expression_fuel f _ m0) as [[v| |] m1] eqn:Esub;
        try discriminate.
      intros E. apply IHE in Esub. apply IHH in E.
      rewrite (sub_expression_split tokens start end_ Hstart Hend) at 1 2.
      rewrite !count_token_app, !count_token_cons, !count_token_app,
        !count_token_cons in *.
      rewrite (parenthesis_not_word "(" _ (or_introl eq_refl)
                 (str_float_has_word_char v)),
        (parenthesis_not_word ")" _ (or_intror eq_refl)
                 (str_float_has_word_char v)) in E.
      change (count_token ?p []) with 0 in E. simpl in *. lia.
Qed.

(** What [calculate] returns, [evaluate_expression] has returned on the
    tokens. *)
Lemma calculate_returns_inv expression m r m' :
  calculate expression m = (Return r, m') ->
  exists m0 m1,
    evaluate_expression (tokenize (PyStr.remove_char " "%char expression)) m0
    = (Return r, m1).
Proof.
  unfold calculate, process_expression.
  cbv [bind try_finally try_except clear_logs clear_history add_log set_io
       modify ret raise].
  match goal with
  | |- context [evaluate_expression ?t ?m0] =>
      destruct (evaluate_expression t m0) as [[v|e|] m1] eqn:E
  end; try discriminate.
  intros H. injection H as <- _. eexists. exists m1. exact E.
Qed.

(** X10.  An evaluation never returns a number for unbalanced
    parentheses: when [calculate] returns, the tokens held as many
    ["("] as [")"]. *)
Theorem returned_value_means_balanced :
  forall expression m r m',
    calculate expression m = (Return r, m') ->
    count_token "(" (tokenize (PyStr.remove_char " "%char expression))
    = count_token ")" (tokenize (PyStr.remove_char " "%char expression)).
Proof.
  intros expression m r m' H.
  destruct (calculate_returns_inv expression m r m' H) as (m0 & m1 & E).
  exact (proj1 (parentheses_balance _) _ _ _ _ E).
Qed.

Lemma tier_edge fuel :
  forall tokens operators j front op rest m,
    tokens = front ++ op :: rest ->
    Forall (fun t => in_list t operators = false) front ->
    in_list op operators = true ->
    front = [] \/ rest = [] ->
    j <= List.length front ->
    List.length tokens <= fuel + j ->
    evaluate_operator_from fuel tokens operators j m
    = (Raise (ValueError ("Operador " ++ op ++ " en posición inválida")%string),
       m).
Proof.
  induction fuel as [|f IH];
    intros tokens operators j front op rest m Ht Hfront Hop Hedge Hj Hfuel;
    assert (Hlen : List.length tokens = List.length front + S (List.length rest))
      by (rewrite Ht, length_app; reflexivity);
    [lia|].
  rewrite evaluate_operator_from_eq.
  replace (j <? List.length tokens)%nat with true
    by (symmetry; apply Nat.ltb_lt; lia).
  cbv zeta.
  destruct (Nat.eq_dec j (List.length front)) as [->|Hne].
  - assert (Hn : nth (List.length front) tokens ""%string = op)
      by (rewrite Ht; apply nth_middle).
    rewrite Hn, Hop.
    replace ((List.length front =? 0) || (List.length front =? List.length tokens - 1))%nat
      with true; [reflexivity|].
    symmetry. apply orb_true_iff.
    destruct Hedge as [-> | ->]; [left; reflexivity|].
    right. apply Nat.eqb_eq. simpl in Hlen. lia.
  - assert (Hn : nth j tokens ""%string = nth j front ""%string)
      by (rewrite Ht; apply app_nth1; lia).
    rewrite Hn.
    assert (Hno : in_list (nth j front ""%string) operators = false).
    { rewrite Forall_forall in Hfront. apply Hfront, nth_In. lia. }
    rewrite Hno. apply (IH tokens operators (j + 1) front op rest m);
      try assumption; lia.
Qed.

(** X18.  An operator with no operand on one side: when the first
    operator of the tier in the list stands at its first or at its
    last index, [evaluate_operator] raises the invalid-position error
    for it; nothing has been sent by then and the model is as before. *)
Theorem operator_at_an_edge_raises :
  forall front op rest operators m,
    Forall (fun t => in_list t operators = false) front ->
    in_list op operators = true ->
    front = [] \/ rest = [] ->
    evaluate_operator (front ++ op :: rest) operators m
    = (Raise (ValueError ("Operador " ++ op ++ " en posición inválida")%string),
       m).
Proof.
  intros front op rest operators m Hfront Hop Hedge. unfold evaluate_operator.
  apply (tier_edge _ _ operators 0 front op rest m eq_refl Hfront Hop Hedge);
    lia.
Qed.

(** ** Further properties: termination and the log *)

Lemma tidy_ret {A} (a : A) : tidy (ret a).
Proof.
  intros m. split; [discriminate|]. split; [|reflexivity].
  exists []. simpl. now rewrite app_nil_r.
Qed.

Lemma tidy_raise {A} e : tidy (@raise A e).
Proof.
  intros m. split; [discriminate|]. split; [|reflexivity].
  exists []. simpl. now rewrite app_nil_r.
Qed.

Lemma tidy_lift {A} (r : exn + A) : tidy (lift r).
Proof. destruct r; [apply tidy_raise | apply tidy_ret]. Qed.

Lemma tidy_modify f :
  (forall m, (exists l, log_messages (f m) = log_messages m ++ l)
             /\ io_agent (f m) = io_agent m) ->
  tidy (modify f).
Proof. intros H m. split; [discriminate | apply H]. Qed.

Lemma tidy_add_log s : tidy (add_log s).
Proof. apply tidy_modify. intros m. split; [now exists [s] | reflexivity]. Qed.

Lemma tidy_send_message msg : tidy (send_message msg).
Proof.
  apply tidy_modify. intros m. split; [|reflexivity].
  exists []. simpl. now rewrite app_nil_r.
Qed.

Lemma tidy_get_messages_for agent_id : tidy (get_messages_for agent_id).
Proof.
  intros m. split; [discriminate|]. split; [|reflexivity].
  exists []. simpl. now rewrite app_nil_r.
Qed.

Lemma tidy_bind {A B} (c : M A) (k : A -> M B) :
  tidy c -> (forall a, tidy (k a)) -> tidy (bind c k).
Proof.
  intros Hc Hk m. unfold bind.
  destruct (Hc m) as (Hoof & (l1 & Hl1) & Hio1).
  destruct (c m) as [[a|e|] m1]; simpl in *.
  - destruct (Hk a m1) as (Hoof2 & (l2 & Hl2) & Hio2).
    split; [exact Hoof2|]. split.
    + exists (l1 ++ l2). now rewrite Hl2, Hl1, app_assoc.
    + now rewrite Hio2.
  - split; [discriminate|]. split; [now exists l1 | exact Hio1].
  - now elim Hoof.
Qed.

Lemma tidy_try_except {A} (c : M A) h :
  tidy c -> (forall e, tidy (h e)) -> tidy (try_except c h).
Proof.
  intros Hc Hh m. unfold try_except.
  destruct (Hc m) as (Hoof & (l1 & Hl1) & Hio1).
  destruct (c m) as [[a|e|] m1]; simpl in *.
  - split; [discriminate|]. split; [now exists l1 | exact Hio1].
  - destruct (Hh e m1) as (Hoof2 & (l2 & Hl2) & Hio2).
    split; [exact Hoof2|]. split.
    + exists (l1 ++ l2). now rewrite Hl2, Hl1, app_assoc.
    + now rewrite Hio2.
  - now elim Hoof.
Qed.

Lemma tidy_perform_operation self x y : tidy (perform_operation self x y).
Proof.
  unfold perform_operation. apply tidy_try_except.
  - apply tidy_bind; [apply tidy_lift|]. intros r.
    apply tidy_bind.
    + apply tidy_modify. intros m. split; [|now destruct self].
      exists []. rewrite app_nil_r. now destruct self.
    + intros _. apply tidy_bind; [apply tidy_add_log|].
      intros _. apply tidy_ret.
  - intros e. apply tidy_bind; [apply tidy_add_log|].
    intros _. apply tidy_raise.
Qed.

Lemma tidy_step_messages self messages : tidy (step_messages self messages).
Proof.
  induction messages as [|msg rest IH]; [apply tidy_ret|].
  simpl. apply tidy_bind; [|intros _; exact IH].
  destruct (msg_type msg =? "operation")%string; [|apply tidy_ret].
  destruct (content msg); [|apply tidy_raise].
  apply tidy_bind; [apply tidy_perform_operation|].
  intros r. apply tidy_send_message.
Qed.

Lemma tidy_step self : tidy (step self).
Proof.
  unfold step. apply tidy_bind; [apply tidy_get_messages_for|].
  intros messages. apply tidy_step_messages.
Qed.

Lemma tidy_request_operation operator x y :
  tidy (request_operation operator x y).
Proof.
  unfold request_operation.
  destruct (operator_map operator) as [agent_id|]; [|apply tidy_raise].
  apply tidy_bind; [apply tidy_send_message|]. intros _.
  apply tidy_bind; [apply tidy_add_log|]. intros _.
  apply tidy_bind.
  { destruct (schedule_agents_get agent_id) as [[a|]|];
      [apply tidy_step | apply tidy_ret | apply tidy_ret]. }
  intros _. apply tidy_bind; [apply tidy_get_messages_for|].
  intros [|r0 response]; [apply tidy_raise|].
  destruct (content r0); [apply tidy_raise|].
  apply tidy_bind; [apply tidy_add_log|]. intros _. apply tidy_ret.
Qed.

Lemma tidy_evaluate_operator_from fuel :
  forall tokens operators i,
    List.length tokens <= fuel + i ->
    tidy (evaluate_operator_from fuel tokens operators i).
Proof.
  induction fuel as [|f IH]; intros tokens operators i Hlen;
    rewrite evaluate_operator_from_eq;
    destruct (Nat.ltb_spec i (List.length tokens)) as [Hi|Hi];
    try apply tidy_ret; [lia|].
  cbv zeta. destruct (in_list (nth i tokens "") operators);
    [|apply IH; lia].
  destruct ((i =? 0) || (i =? List.length tokens - 1))%nat eqn:Hpos;
    [apply tidy_raise|].
  apply orb_false_iff in Hpos. destruct Hpos as [H0 H1].
  apply Nat.eqb_neq in H0, H1.
  apply tidy_bind; [apply tidy_lift|]. intros x.
  apply tidy_bind; [apply tidy_lift|]. intros y.
  apply tidy_bind; [apply tidy_request_operation|]. intros r.
  apply IH. pose proof (spliced_length tokens i (str_value r)). lia.
Qed.

Lemma tidy_evaluate_operator tokens operators :
  tidy (evaluate_operator tokens operators).
Proof. apply tidy_evaluate_operator_from. lia. Qed.

Lemma tidy_evaluate_tiers tokens : tidy (evaluate_tiers tokens).
Proof.
  unfold evaluate_tiers.
  apply tidy_bind; [apply tidy_evaluate_operator|]. intros t1.
  apply tidy_bind; [apply tidy_evaluate_operator|]. intros t2.
  apply tidy_bind; [apply tidy_evaluate_operator|]. intros t3.
  destruct t3 as [|t [|t' rest]];
    [apply tidy_raise | apply tidy_lift | apply tidy_raise].
Qed.

Lemma tidy_expression fuel :
  (forall tokens,
      2 * List.length tokens + 2 <= fuel ->
      tidy (evaluate_expression_fuel fuel tokens))
  /\ (forall tokens,
         2 * List.length tokens + 1 <= fuel ->
         tidy (handle_parentheses_fuel fuel tokens)).
Proof.
  induction fuel as [|f [IHE IHH]]; [split; intros; lia|].
  split; intros tokens Hfuel.
  - rewrite evaluate_expression_fuel_eq.
    apply tidy_bind; [apply IHH; lia|]. intros t. apply tidy_evaluate_tiers.
  - rewrite handle_parentheses_fuel_eq.
    destruct (in_list "(" tokens); [|apply tidy_ret].
    destruct (last_open tokens 0 None) as [start|] eqn:Hstart;
      [|apply tidy_ret].
    destruct (first_close (skipn (start + 1) tokens) (start + 1))
      as [end_|] eqn:Hend; [|apply tidy_raise].
    destruct (paren_scan tokens start end_ Hstart Hend) as (H1 & H2 & _).
    pose proof (slice_length tokens start end_ H1 H2) as Hsl.
    cbv zeta. apply tidy_bind; [apply tidy_add_log|]. intros _.
    apply tidy_bind; [apply IHE; lia|]. intros v.
    apply IHH.
    pose proof (paren_spliced_length tokens start end_
                  (PyFloat.str_float v) H1 H2). lia.
Qed.

Lemma tidy_evaluate_expression tokens : tidy (evaluate_expression tokens).
Proof.
  apply (proj1 (tidy_expression _)). unfold expression_fuel. lia.
Qed.

(** The log and the IO agent after [calculate], in terms of the outcome. *)
Lemma calculate_log expression m :
  fst (calculate expression m) <> OutOfFuel
  /\ (exists body,
         log_messages (snd (calculate expression m))
         = log_opening expression ++ body
           ++ log_closing (fst (calculate expression m)))
  /\ io_agent (snd (calculate expression m))
     = {| current_expression := Some expression;
          result_attr :=
            match fst (calculate expression m) with
            | Return result => Some result
            | _ => None
            end;
          processing := false |}.
Proof.
  unfold calculate, process_expression.
  cbv [bind try_finally try_except clear_logs clear_history add_log set_io
       modify ret raise].
  match goal with
  | |- context [evaluate_expression ?t ?m0] =>
      destruct (tidy_evaluate_expression t m0) as (Hoof & (l & Hl) & Hio);
      destruct (evaluate_expression t m0) as [[v|e|] m1]
  end; [| |now elim Hoof];
    cbn [fst snd log_messages set_log_messages set_io_agent set_broker
         io_agent broker message_queue message_history log_enabled
         current_expression result_attr processing app] in Hl, Hio |- *;
    (split; [discriminate|]); (split; [|now rewrite Hio]);
    exists l; rewrite Hl; unfold log_opening, log_closing;
    rewrite <- ?app_assoc; reflexivity.
Qed.

(** X11.  Every evaluation ends, from any model whatever: [calculate]
    gives a value or raises an exception, the loops never being cut
    short. *)
Theorem calculate_terminates :
  forall expression m, fst (calculate expression m) <> OutOfFuel.
Proof. intros expression m. apply calculate_log. Qed.

(** X12.  The log after [calculate] is the log of this evaluation
    alone: it opens with the three header lines and the token line,
    and closes with the result line and a rule when a value is
    returned, with the error line (the last line) when an exception is
    raised.  The IO agent then holds the expression as given, the
    value as its result, or none after an exception, and is no longer
    processing. *)
Theorem calculate_log_and_attributes :
  forall expression m,
    (exists body,
        get_logs (snd (calculate expression m))
        = log_opening expression ++ body
          ++ log_closing (fst (calculate expression m)))
    /\ io_agent (snd (calculate expression m))
       = {| current_expression := Some expression;
            result_attr :=
              match fst (calculate expression m) with
              | Return result => Some result
              | _ => None
              end;
            processing := false |}.
Proof. intros expression m. apply calculate_log. Qed.

(** ** Further properties: sessions *)

(** X13.  Nothing stays pending between evaluations: in every model a
    session reaches, by evaluations that return or raise and by
    resets, the queue is empty and the history is being kept. *)
Theorem session_leaves_nothing_pending :
  forall m,
    reachable m ->
    message_queue (broker m) = [] /\ log_enabled (broker m) = true.
Proof. intros m H. exact (reachable_idle m H). Qed.

(** X14.  What an evaluation gives does not depend on what was
    evaluated before, nor on resets: anywhere in a session [calculate]
    gives for an expression what it gives on a fresh calculator. *)
Theorem outcome_independent_of_session :
  forall expression m,
    reachable m -> fst (calculate expression m) = evaluate expression.
Proof.
  intros expression m H. apply evaluate_anywhere. now apply reachable_idle.
Qed.

(** X15.  The history after an evaluation, whatever its outcome: the
    exchanges of the dispatches that were completed, each a request
    followed by its answer, and after them at most one request without
    an answer; there is one exactly when the handler's function raised
    the exception the evaluation ends with, and none when a value is
    returned. *)
Theorem history_after_any_outcome :
  forall expression m,
    idle m ->
    exists tr tl,
      get_history (snd (calculate expression m)) = exchanges tr ++ tl
      /\ Forall sound tr
      /\ match fst (calculate expression m) with
         | Return _ => tl = []
         | Raise e =>
             tl = []
             \/ exists a x y,
                  tl = [request_of a x y] /\ operation_func a x y = inl e
         | OutOfFuel => False
         end.
Proof.
  intros expression m Hm.
  destruct (calculate_behaves expression) as (out & tr & tl & Hb & Hs & Hp).
  destruct (Hb m Hm) as (m' & E & _ & Hh & _).
  exists tr, tl. rewrite E. simpl fst. simpl snd.
  split; [exact Hh|]. split; [exact Hs|].
  destruct out as [v|e|]; [apply Hp | exact Hp | exact Hp].
Qed.

Lemma count_type_app ty h1 h2 :
  count_type ty (h1 ++ h2) = count_type ty h1 + count_type ty h2.
Proof. unfold count_type. now rewrite filter_app, length_app. Qed.

Lemma count_type_result_exchanges tr :
  count_type "result" (exchanges tr) = List.length tr.
Proof.
  induction tr as [|d tr IH]; [reflexivity|].
  change (exchanges (d :: tr)) with (exchange d ++ exchanges tr).
  rewrite count_type_app, IH. reflexivity.
Qed.

Lemma count_agent_total tr :
  count_agent SumaAgent tr + count_agent RestaAgent tr
  + count_agent MultiplicacionAgent tr + count_agent DivisionAgent tr
  + count_agent PotenciaAgent tr
  = List.length tr.
Proof.
  induction tr as [|d tr IH]; [reflexivity|].
  rewrite !count_agent_cons. simpl List.length.
  destruct (d_agent d); simpl; lia.
Qed.

(** X16.  The total of the statistics follows the history: after an
    evaluation, whatever its outcome, the sum of the five counts has
    grown by the number of result messages in the history of that
    evaluation. *)
Theorem statistics_total_follows_history :
  forall expression m,
    idle m ->
    total_count (get_statistics (snd (calculate expression m)))
    = total_count (get_statistics m)
      + count_type "result" (get_history (snd (calculate expression m))).
Proof.
  intros expression m Hm.
  destruct (calculate_behaves expression) as (out & tr & tl & Hb & Hs & Hp).
  destruct (Hb m Hm) as (m' & E & _ & Hh & Hc).
  rewrite E. simpl snd. unfold get_history. rewrite Hh.
  rewrite count_type_app, count_type_result_exchanges.
  assert (Htl : count_type "result" tl = 0).
  { destruct out as [v|e|]; [now destruct Hp as [-> _]| |contradiction].
    destruct Hp as [-> | (a & x & y & -> & _)]; reflexivity. }
  rewrite Htl. unfold total_count, get_statistics. simpl.
  pose proof (Hc SumaAgent) as H1. pose proof (Hc RestaAgent) as H2.
  pose proof (Hc MultiplicacionAgent) as H3.
  pose proof (Hc DivisionAgent) as H4. pose proof (Hc PotenciaAgent) as H5.
  simpl in H1, H2, H3, H4, H5. rewrite H1, H2, H3, H4, H5.
  pose proof (count_agent_total tr). lia.
Qed.

Lemma remove_char_idempotent c s :
  PyStr.remove_char c (PyStr.remove_char c s) = PyStr.remove_char c s.
Proof.
  induction s as [|d s IH]; [reflexivity|]. simpl.
  destruct (Ascii.eqb d c) eqn:E; [exact IH|]. simpl. now rewrite E, IH.
Qed.

(** X7.  Spaces do not count: an expression and the same expression
    without its spaces give the same outcome, the same history and the
    same statistics (the digits on either side of a space are read as
    one numeral). *)
Theorem spaces_are_ignored :
  forall expression m,
    idle m ->
    let stripped := PyStr.remove_char " "%char expression in
    fst (calculate expression m) = fst (calculate stripped m)
    /\ get_history (snd (calculate expression m))
       = get_history (snd (calculate stripped m))
    /\ get_statistics (snd (calculate expression m))
       = get_statistics (snd (calculate stripped m)).
Proof.
  intros expression m Hm stripped. subst stripped.
  destruct (evaluate_expression_behaves
              (tokenize (PyStr.remove_char " "%char expression)))
    as (out & tr & tl & Hb & Hs & Hp).
  assert (Htl : forall v, out = Return v -> tl = [])
    by (intros v ->; apply Hp).
  destruct (calculate_transfers expression out tr tl Hb Htl m Hm)
    as (m1 & E1 & _ & Hh1 & Hc1).
  assert (Hb' : behaves
                  (evaluate_expression
                     (tokenize
                        (PyStr.remove_char " "%char
                           (PyStr.remove_char " "%char expression))))
                  out tr tl)
    by now rewrite remove_char_idempotent.
  destruct (calculate_transfers _ out tr tl Hb' Htl m Hm)
    as (m2 & E2 & _ & Hh2 & Hc2).
  rewrite E1, E2. simpl fst. simpl snd.
  split; [reflexivity|]. split; [unfold get_history; congruence|].
  unfold get_statistics.
  pose proof (Hc1 SumaAgent) as A1. pose proof (Hc2 SumaAgent) as B1.
  pose proof (Hc1 RestaAgent) as A2. pose proof (Hc2 RestaAgent) as B2.
  pose proof (Hc1 MultiplicacionAgent) as A3.
  pose proof (Hc2 MultiplicacionAgent) as B3.
  pose proof (Hc1 DivisionAgent) as A4. pose proof (Hc2 DivisionAgent) as B4.
  pose proof (Hc1 PotenciaAgent) as A5. pose proof (Hc2 PotenciaAgent) as B5.
  simpl in *. congruence.
Qed.

(** X17.  [clear_queue] drops what is pending and nothing else: after
    it no agent has anything to handle (a step of any operation agent
    returns and leaves the model as it is) and the history is as
    before; and when the history is being kept, the next evaluation
    gives what a fresh calculator gives. *)
Theorem clear_queue_discards_pending :
  forall m,
    let m' := snd (clear_queue m) in
    fst (clear_queue m) = Return tt
    /\ get_history m' = get_history m
    /\ (forall a, step a m' = (Return tt, m'))
    /\ (log_enabled (broker m) = true ->
        forall expression, fst (calculate expression m') = evaluate expression).
Proof.
  intros m m'. subst m'. split; [reflexivity|]. split; [reflexivity|].
  split.
  - intros a. destruct m as [[q h l] lg s r mu d p io]. reflexivity.
  - intros Hl expression. apply evaluate_anywhere. split; [reflexivity|].
    exact Hl.
Qed.

(** ** A minus sign left at the head of the tokens *)

Lemma findall_minus_open s :
  findall (String "-"%char (String "("%char s)) = "-" :: "(" :: findall s.
Proof. reflexivity. Qed.

Lemma tokenize_minus_open s :
  exists rest,
    tokenize (String "-"%char (String "("%char s)) = "-" :: "(" :: rest.
Proof.
  rewrite tokenize_fold_minus, findall_minus_open. unfold fold_minus.
  exists (flat_map (folded_output ("-" :: "(" :: findall s))
            (seq 2 (List.length (findall s)))).
  simpl List.length. simpl seq. cbn [flat_map].
  assert (H0 : folded_output ("-" :: "(" :: findall s) 0 = ["-"])
    by reflexivity.
  assert (H1 : folded_output ("-" :: "(" :: findall s) 1 = ["("])
    by (destruct (findall s); reflexivity).
  now rewrite H0, H1.
Qed.

Lemma head_minus_tier fuel :
  forall rest operators i m tokens' m',
    in_list "-" operators = false ->
    evaluate_operator_from fuel ("-" :: rest) operators i m
    = (Return tokens', m') ->
    exists rest', tokens' = "-" :: rest'.
Proof.
  induction fuel as [|f IH]; intros rest operators i m tokens' m' Hops;
    rewrite evaluate_operator_from_eq;
    destruct (Nat.ltb_spec i (List.length ("-" :: rest))) as [Hi|Hi];
    try (intros E; injection E as <- _; now exists rest);
    [discriminate|].
  cbv zeta. destruct (in_list (nth i ("-" :: rest) "") operators) eqn:Hop;
    [|now apply IH].
  destruct ((i =? 0) || (i =? List.length ("-" :: rest) - 1))%nat eqn:Hpos;
    [discriminate|].
  destruct i as [|[|i]].
  - simpl in Hop. congruence.
  - unfold bind at 1. discriminate.
  - unfold bind at 1.
    destruct (float_of_token (nth (S (S i) - 1) ("-" :: rest) ""))
      as [e1|x]; [discriminate|].
    cbn [lift ret]. unfold bind at 1.
    destruct (float_of_token (nth (S (S i) + 1) ("-" :: rest) ""))
      as [e2|y]; [discriminate|].
    cbn [lift ret]. unfold bind at 1.
    destruct (request_operation (nth (S (S i)) ("-" :: rest) "") x y m)
      as [[r|e|] m1]; [|discriminate|discriminate].
    intros E.
    exact (IH (firstn i rest ++ [str_value r]
               ++ skipn (S (S i) + 2) ("-" :: rest))
             operators (S (S i)) m1 tokens' m' Hops E).
Qed.

Lemma head_minus_parens fuel :
  forall rest m tokens' m',
    handle_parentheses_fuel fuel ("-" :: rest) m = (Return tokens', m') ->
    exists rest', tokens' = "-" :: rest'.
Proof.
  induction fuel as [|f IH]; intros rest m tokens' m';
    rewrite handle_parentheses_fuel_eq;
    (destruct (in_list "(" ("-" :: rest));
     [|intros E; injection E as <- _; now exists rest]);
    [discriminate|].
  destruct (last_open ("-" :: rest) 0 None) as [start|] eqn:Hstart;
    [|intros E; injection E as <- _; now exists rest].
  destruct (first_close (skipn (start + 1) ("-" :: rest)) (start + 1))
    as [end_|] eqn:Hend; [|discriminate].
  destruct (paren_scan _ start end_ Hstart Hend) as (_ & _ & Ho & _).
  destruct start as [|k]; [discriminate Ho|].
  cbv zeta. unfold bind at 1.
  destruct (add_log _ m) as [[[]| |] m0]; try discriminate.
  unfold bind.
  destruct (evaluate_expression_fuel f _ m0) as [[v| |] m1];
    try discriminate.
  intros E.
  exact (IH (firstn k rest ++ [PyFloat.str_float v]
             ++ skipn (end_ + 1) ("-" :: rest)) m1 tokens' m' E).
Qed.

Lemma head_minus_add_tier rest m :
  evaluate_operator ("-" :: rest) ["+"; "-"] m
  = (Raise (ValueError "Operador - en posición inválida"), m).
Proof.
  unfold evaluate_operator.
  apply (tier_edge _ _ _ 0 [] "-"%string rest m eq_refl).
  - apply Forall_nil.
  - reflexivity.
  - now left.
  - simpl. lia.
  - simpl. lia.
Qed.

(** *** A unary minus anywhere *)

Lemma not_an_operand p :
  (is_operator p || (p =? "("))%string = true ->
  exists e, float_of_token p = inl e.
Proof.
  intros H. apply orb_prop in H. destruct H as [H | H].
  - unfold is_operator, in_list in H. apply existsb_exists in H.
    destruct H as (s & Hin & Heq). apply String.eqb_eq in Heq. subst s.
    simpl in Hin.
    repeat (destruct Hin as [<- | Hin];
            [eexists; vm_compute; reflexivity|]).
    elim Hin.
  - apply String.eqb_eq in H. subst p. eexists. vm_compute. reflexivity.
Qed.

Lemma operand_not_minus t x : float_of_token t = inr x -> t <> "-"%string.
Proof. intros H ->. vm_compute in H. discriminate. Qed.

Lemma operand_not_operator t x :
  float_of_token t = inr x ->
  (is_operator t || (t =? "("))%string = false.
Proof.
  intros H. destruct (is_operator t || (t =? "("))%string eqn:E;
    [|reflexivity].
  destruct (not_an_operand t E) as (e & He). congruence.
Qed.

Lemma nth_spliced (l : list string) a b s k :
  a <= List.length l ->
  nth k (firstn a l ++ [s] ++ skipn b l) ""
  = if (k <? a)%nat then nth k l ""
    else if (k =? a)%nat then s
    else nth (k - a - 1 + b) l "".
Proof.
  intros Ha.
  assert (Hl : List.length (firstn a l) = a)
    by (rewrite length_firstn; lia).
  destruct (Nat.ltb_spec k a) as [Hk|Hk].
  - rewrite app_nth1 by lia. rewrite nth_firstn.
    now replace (k <? a)%nat with true by (symmetry; apply Nat.ltb_lt; lia).
  - rewrite app_nth2 by lia. rewrite Hl.
    destruct (Nat.eqb_spec k a) as [->|Hne].
    + now rewrite Nat.sub_diag.
    + replace (k - a) with (S (k - a - 1)) by lia. simpl.
      rewrite nth_skipn_string. f_equal. lia.
Qed.

Lemma nth_slice (l : list string) a b k :
  k < b - a -> nth k (slice a b l) "" = nth (a + k) l "".
Proof.
  intros Hk. unfold slice. rewrite nth_firstn.
  replace (k <? b - a)%nat with true by (symmetry; apply Nat.ltb_lt; lia).
  apply nth_skipn_string.
Qed.

Lemma unary_tier fuel :
  forall tokens operators j m tokens' m' i,
    unary_at tokens i ->
    evaluate_operator_from fuel tokens operators j m = (Return tokens', m') ->
    exists i', unary_at tokens' i'.
Proof.
  induction fuel as [|f IH]; intros tokens operators j m tokens' m' i Hu;
    rewrite evaluate_operator_from_eq;
    destruct (Nat.ltb_spec j (List.length tokens)) as [Hj|Hj];
    try (intros E; injection E as <- _; now exists i);
    [discriminate|].
  cbv zeta. destruct (in_list (nth j tokens "") operators) eqn:Hop;
    [|now apply (IH _ _ _ _ _ _ i)].
  destruct ((j =? 0) || (j =? List.length tokens - 1))%nat eqn:Hpos;
    [discriminate|].
  apply orb_false_iff in Hpos. destruct Hpos as [H0 H1].
  apply Nat.eqb_neq in H0, H1.
  unfold bind at 1.
  destruct (float_of_token (nth (j - 1) tokens "")) as [e1|x] eqn:Hx;
    [discriminate|].
  cbn [lift ret]. unfold bind at 1.
  destruct (float_of_token (nth (j + 1) tokens "")) as [e2|y] eqn:Hy;
    [discriminate|].
  cbn [lift ret]. unfold bind at 1.
  destruct (request_operation (nth j tokens "") x y m) as [[r|e|] m1];
    [|discriminate|discriminate].
  intros E.
  destruct Hu as (Hi & Hm & Hp).
  pose proof (operand_not_minus _ _ Hx) as Nx.
  pose proof (operand_not_minus _ _ Hy) as Ny.
  pose proof (operand_not_operator _ _ Hx) as Bx.
  pose proof (operand_not_operator _ _ Hy) as By.
  assert (Ni1 : i <> j - 1) by (intros ->; contradiction).
  assert (Ni2 : i <> j + 1) by (intros ->; contradiction).
  assert (Hlen : List.length (firstn (j - 1) tokens ++ [str_value r]
                              ++ skipn (j + 2) tokens)
                 = List.length tokens - 2)
    by (pose proof (spliced_length tokens j (str_value r)); lia).
  destruct (Nat.eq_dec i 0) as [->|Hi0].
  - apply (IH _ _ _ _ _ _ 0 ) in E; [exact E|].
    split; [lia|]. split; [|now left].
    rewrite nth_spliced by lia.
    now replace (0 <? j - 1)%nat with true
      by (symmetry; apply Nat.ltb_lt; lia).
  - destruct Hp as [-> | Hp]; [contradiction|].
    assert (Ni3 : i <> j).
    { intros ->. rewrite Bx in Hp. discriminate. }
    assert (Ni4 : i <> j + 2).
    { intros ->. replace (j + 2 - 1) with (j + 1) in Hp by lia.
      rewrite By in Hp. discriminate. }
    destruct (Nat.ltb_spec i (j - 1)) as [Hlt|Hge].
    + apply (IH _ _ _ _ _ _ i) in E; [exact E|].
      split; [lia|]. split; [|right]; rewrite nth_spliced by lia.
      * now replace (i <? j - 1)%nat with true
          by (symmetry; apply Nat.ltb_lt; lia).
      * now replace (i - 1 <? j - 1)%nat with true
          by (symmetry; apply Nat.ltb_lt; lia).
    + apply (IH _ _ _ _ _ _ (i - 2)) in E; [exact E|].
      split; [lia|]. split; [|right]; rewrite nth_spliced by lia.
      * replace (i - 2 <? j - 1)%nat with false
          by (symmetry; apply Nat.ltb_ge; lia).
        replace (i - 2 =? j - 1)%nat with false
          by (symmetry; apply Nat.eqb_neq; lia).
        now replace (i - 2 - (j - 1) - 1 + (j + 2)) with i by lia.
      * replace (i - 2 - 1 <? j - 1)%nat with false
          by (symmetry; apply Nat.ltb_ge; lia).
        replace (i - 2 - 1 =? j - 1)%nat with false
          by (symmetry; apply Nat.eqb_neq; lia).
        now replace (i - 2 - 1 - (j - 1) - 1 + (j + 2)) with (i - 1) by lia.
Qed.

Lemma unary_tiers tokens m v m' i :
  unary_at tokens i -> evaluate_tiers tokens m <> (Return v, m').
Proof.
  intros Hu. unfold evaluate_tiers, bind, evaluate_operator.
  destruct (evaluate_operator_from _ tokens _ 0 m) as [[t1| |] m1] eqn:E1;
    try discriminate.
  destruct (unary_tier _ _ _ _ _ _ _ i Hu E1) as (i1 & Hu1).
  destruct (evaluate_operator_from _ t1 _ 0 m1) as [[t2| |] m2] eqn:E2;
    try discriminate.
  destruct (unary_tier _ _ _ _ _ _ _ i1 Hu1 E2) as (i2 & Hu2).
  destruct (evaluate_operator_from _ t2 _ 0 m2) as [[t3| |] m3] eqn:E3;
    try discriminate.
  destruct (unary_tier _ _ _ _ _ _ _ i2 Hu2 E3) as (i3 & Hi3 & Hm3 & _).
  destruct t3 as [|t [|t' rest]]; try discriminate.
  simpl in Hi3. assert (i3 = 0) by lia. subst i3. simpl in Hm3. subst t.
  discriminate.
Qed.

Lemma unary_expression fuel :
  (forall tokens m v m' i,
      unary_at tokens i ->
      evaluate_expression_fuel fuel tokens m <> (Return v, m'))
  /\ (forall tokens m tokens' m' i,
         unary_at tokens i ->
         handle_parentheses_fuel fuel tokens m = (Return tokens', m') ->
         exists i', unary_at tokens' i').
Proof.
  induction fuel as [|f [IHE IHH]].
  - split; [discriminate|]. intros tokens m tokens' m' i Hu.
    rewrite handle_parentheses_fuel_eq.
    destruct (in_list "(" tokens); [discriminate|].
    intros E. injection E as <- _. now exists i.
  - split.
    + intros tokens m v m' i Hu. rewrite evaluate_expression_fuel_eq.
      unfold bind.
      destruct (handle_parentheses_fuel f tokens m) as [[t1| |] m1] eqn:E1;
        try discriminate.
      destruct (IHH _ _ _ _ i Hu E1) as (i1 & Hu1).
      now apply (unary_tiers t1 m1 v m' i1).
    + intros tokens m tokens' m' i Hu. rewrite handle_parentheses_fuel_eq.
      destruct (in_list "(" tokens);
        [|intros E; injection E as <- _; now exists i].
      destruct (last_open tokens 0 None) as [start|] eqn:Hstart;
        [|intros E; injection E as <- _; now exists i].
      destruct (first_close (skipn (start + 1) tokens) (start + 1))
        as [end_|] eqn:Hend; [|discriminate].
      destruct (paren_scan tokens start end_ Hstart Hend)
        as (H1 & H2 & Ho & Hc).
      cbv zeta. unfold bind at 1.
      destruct (add_log _ m) as [[[]| |] m0]; try discriminate.
      unfold bind.
      destruct (evaluate_expression_fuel f _ m0) as [[v| |] m1] eqn:Esub;
        try discriminate.
      intros E.
      destruct Hu as (Hi & Hm & Hp).
      assert (Ns : i <> start) by (intros ->; congruence).
      assert (Ne : i <> end_) by (intros ->; congruence).
      assert (Hlen : List.length (firstn start tokens ++ [PyFloat.str_float v]
                                  ++ skipn (end_ + 1) tokens)
                     = start + 1 + (List.length tokens - end_ - 1))
        by (now apply paren_spliced_length).
      destruct (Nat.ltb_spec i start) as [Hlt|Hge].
      { (* before the group *)
        apply (IHH _ _ _ _ i) in E; [exact E|].
        split; [lia|]. split.
        - rewrite nth_spliced by lia.
          now replace (i <? start)%nat with true
            by (symmetry; apply Nat.ltb_lt; lia).
        - destruct Hp as [-> | Hp]; [now left | right].
          rewrite nth_spliced by lia.
          now replace (i - 1 <? start)%nat with true
            by (symmetry; apply Nat.ltb_lt; lia). }
      destruct (Nat.ltb_spec i end_) as [Hin|Hout].
      { (* inside the group *)
        exfalso. apply (IHE _ m0 v m1 (i - start - 1)) in Esub; [exact Esub|].
        split; [rewrite slice_length by lia; lia|]. split.
        - rewrite nth_slice by lia.
          now replace (start + 1 + (i - start - 1)) with i by lia.
        - destruct (Nat.eq_dec (i - start - 1) 0) as [Hz|Hnz];
            [now left | right].
          destruct Hp as [-> | Hp]; [lia|].
          rewrite nth_slice by lia.
          now replace (start + 1 + (i - start - 1 - 1)) with (i - 1) by lia. }
      (* after the group *)
      destruct Hp as [-> | Hp]; [lia|].
      assert (Ne1 : i <> end_ + 1).
      { intros ->. replace (end_ + 1 - 1) with end_ in Hp by lia.
        rewrite Hc in Hp. discriminate. }
      apply (IHH _ _ _ _ (i - (end_ - start))) in E; [exact E|].
      split; [lia|]. split; [|right]; rewrite nth_spliced by lia.
      * replace (i - (end_ - start) <? start)%nat with false
          by (symmetry; apply Nat.ltb_ge; lia).
        replace (i - (end_ - start) =? start)%nat with false
          by (symmetry; apply Nat.eqb_neq; lia).
        now replace (i - (end_ - start) - start - 1 + (end_ + 1)) with i
          by lia.
      * replace (i - (end_ - start) - 1 <? start)%nat with false
          by (symmetry; apply Nat.ltb_ge; lia).
        replace (i - (end_ - start) - 1 =? start)%nat with false
          by (symmetry; apply Nat.eqb_neq; lia).
        now replace (i - (end_ - start) - 1 - start - 1 + (end_ + 1))
          with (i - 1) by lia.
Qed.

(** C10, as amended.  A minus sign before a parenthesis is not folded,
    the next token not being numeric.  With a [-] token that stands
    first, or right after an operator or ["("], the evaluation never
    returns a value: it raises.  For a [-] at the head of the tokens,
    when the parentheses and the two higher tiers go through, the
    add/subtract tier finds it at index 0 and raises the
    invalid-position error; otherwise the error raised before that is
    the outcome.  [-(2+3)] fails with the invalid-position error. *)
Theorem unary_minus_before_parenthesis :
  (forall s,
      PyStr.is_ascii s = true ->
      exists rest, tokenize ("-(" ++ s)%string = "-" :: "(" :: rest)
  /\ (forall expression i m,
         PyStr.is_ascii expression = true ->
         unary_at (tokenize (PyStr.remove_char " "%char expression)) i ->
         exists e, fst (calculate expression m) = Raise e)
  /\ (forall rest m t1 m1 t2 m2 t3 m3,
         handle_parentheses ("-" :: rest) m = (Return t1, m1) ->
         evaluate_operator t1 ["**"] m1 = (Return t2, m2) ->
         evaluate_operator t2 ["*"; "/"] m2 = (Return t3, m3) ->
         evaluate_expression ("-" :: rest) m
         = (Raise (ValueError "Operador - en posición inválida"), m3))
  /\ tokenize "-(2+3)" = ["-"; "("; "2"; "+"; "3"; ")"]
  /\ evaluate "-(2+3)" = Raise (ValueError "Operador - en posición inválida").
Proof.
  split; [intros s _; exact (tokenize_minus_open s)|].
  split.
  { intros expression i m _ Hu.
    destruct (calculate expression m) as [[r|e|] m'] eqn:E.
    - destruct (calculate_returns_inv expression m r m' E) as (m0 & m1 & E').
      now apply (proj1 (unary_expression _) _ _ _ _ i Hu) in E'.
    - now exists e.
    - pose proof (proj1 (calculate_log expression m)) as Hf.
      rewrite E in Hf. now elim Hf. }
  split; [|split; vm_compute; reflexivity].
  intros rest m t1 m1 t2 m2 t3 m3 E1 E2 E3.
  unfold handle_parentheses, expression_fuel in E1.
  unfold evaluate_expression, expression_fuel.
  replace (2 * List.length ("-" :: rest) + 2)
    with (S (2 * List.length ("-" :: rest) + 1)) by lia.
  rewrite evaluate_expression_fuel_eq. unfold bind.
  rewrite (proj2 (fuel_irrelevant _ (2 * List.length ("-" :: rest) + 2)
                    ("-" :: rest) m)) by lia.
  rewrite E1.
  destruct (head_minus_parens _ _ _ _ _ E1) as (r1 & ->).
  unfold evaluate_tiers, bind. rewrite E2.
  unfold evaluate_operator in E2.
  destruct (head_minus_tier _ _ ["**"]%string _ _ _ _ eq_refl E2)
    as (r2 & ->).
  rewrite E3. unfold evaluate_operator in E3.
  destruct (head_minus_tier _ _ ["*"; "/"]%string _ _ _ _ eq_refl E3)
    as (r3 & ->).
  now rewrite head_minus_add_tier.
Qed.

End Calculator.

Open Scope list_scope.

(** ** Instances

    The statements above at concrete inputs, with [repeated_product_pow]
    for [operator.pow]. *)

Lemma precedence_examples_witness :
  repeated_product_pow 2 3 = inr (PyFloat 8)
  /\ repeated_product_pow 8 2 = inr (PyFloat 64)
  /\ evaluate repeated_product_pow "2**3**2" = Return 64%float
  /\ operations_requested
       (message_history
          (broker (snd (calculate repeated_product_pow "2**3**2"
                          CalculatorModel_init))))
     = [("potencia_agent", 2%float, 3%float);
        ("potencia_agent", 8%float, 2%float)].
Proof.
  assert (H1 : repeated_product_pow 2 3 = inr (PyFloat 8))
    by (vm_compute; reflexivity).
  assert (H2 : repeated_product_pow 8 2 = inr (PyFloat 64))
    by (vm_compute; reflexivity).
  split; [exact H1|]. split; [exact H2|].
  exact (proj2 (proj2 (precedence_examples repeated_product_pow H1 H2))).
Defined.

Lemma same_index_rescanned_witness :
  idle CalculatorModel_init
  /\ exists m1,
       request_operation repeated_product_pow "/" 8 4 CalculatorModel_init
       = (Return (PyFloat 2), m1)
       /\ evaluate_operator_from repeated_product_pow 4
            ["8"; "/"; "4"; "/"; "2"] ["*"; "/"] 1 CalculatorModel_init
          = evaluate_operator_from repeated_product_pow 3
              ["2.0"; "/"; "2"] ["*"; "/"] 1 m1.
Proof.
  split; [exact idle_init|].
  apply (proj1 (same_index_rescanned repeated_product_pow)
           3 ["8"; "/"; "4"; "/"; "2"] ["*"; "/"] 1 DivisionAgent
           8%float 4%float (PyFloat 2) CalculatorModel_init idle_init);
    solve [simpl; lia | vm_compute; reflexivity].
Defined.

Lemma parenthesis_resolution_witness :
  handle_parentheses repeated_product_pow ["("; "2"; "+"; "3"]
    CalculatorModel_init
  = (Raise (ValueError "Paréntesis no balanceados"), CalculatorModel_init)
  /\ handle_parentheses repeated_product_pow
       ["("; "2"; "+"; "3"; ")"; "*"; "4"] CalculatorModel_init
     = handle_parentheses repeated_product_pow ["5.0"; "*"; "4"]
         (snd (evaluate_expression repeated_product_pow ["2"; "+"; "3"]
                 (snd (add_log "[IO] Evaluando paréntesis: 2 + 3"
                         CalculatorModel_init)))).
Proof.
  split.
  - apply (proj1 (proj1 (parenthesis_resolution repeated_product_pow)
                    ["("; "2"; "+"; "3"] 0 CalculatorModel_init
                    ltac:(simpl; lia) eq_refl
                    ltac:(intros j H0 H1;
                          do 4 (destruct j as [|j];
                                [simpl; (lia || discriminate)|]);
                          simpl in H1; lia))).
    intros j H0 H1.
    do 4 (destruct j as [|j]; [simpl; (lia || discriminate)|]).
    simpl in H1; lia.
  - apply (proj2 (proj1 (parenthesis_resolution repeated_product_pow)
                    ["("; "2"; "+"; "3"; ")"; "*"; "4"] 0
                    CalculatorModel_init
                    ltac:(simpl; lia) eq_refl
                    ltac:(intros j H0 H1;
                          do 7 (destruct j as [|j];
                                [simpl; (lia || discriminate)|]);
                          simpl in H1; lia))
             4 5%float).
    + lia.
    + simpl; lia.
    + reflexivity.
    + intros j H0 H1.
      do 4 (destruct j as [|j]; [simpl; (lia || discriminate)|]). lia.
    + vm_compute. reflexivity.
Defined.

(** C6.  The code at an input the claim rejects: [2a+3] is an ASCII
    string holding a character outside the recognized set; [tokenize]
    does not fail on it, the [a] is dropped, and the evaluation returns
    5. *)
Lemma unrecognized_character_is_accepted :
  PyStr.is_ascii "2a+3" = true
  /\ unrecognized "a"%char = true
  /\ tokenize "2a+3" = ["2"; "+"; "3"]
  /\ evaluate repeated_product_pow "2a+3" = Return 5%float.
Proof. repeat split; vm_compute; reflexivity. Qed.

Lemma unary_minus_folding_witness :
  PyStr.is_ascii "4*-2" = true
  /\ tokenize "4*-2"
     = flat_map (folded_output (findall "4*-2"))
         (seq 0 (List.length (findall "4*-2"))).
Proof.
  split; [reflexivity|].
  exact (proj1 (unary_minus_folding repeated_product_pow) "4*-2" eq_refl).
Defined.

(** C10, as stated, fails: with a minus sign before a parenthesis the
    evaluation does fail, but not always with the invalid-position
    error.  In [-(5/0)] the group fails first, with the
    division-by-zero error; in [3*-(2)] the multiplication tier reaches
    the [-] as an operand and [float] rejects it. *)
Lemma minus_before_parenthesis_other_errors :
  evaluate repeated_product_pow "-(5/0)"
  = Raise (ValueError "División por cero no permitida")
  /\ evaluate repeated_product_pow "-(5/0)"
     <> Raise (ValueError "Operador - en posición inválida")
  /\ evaluate repeated_product_pow "3*-(2)"
     = Raise (ValueError "could not convert string to float: '-'")
  /\ evaluate repeated_product_pow "3*-(2)"
     <> Raise (ValueError "Operador - en posición inválida").
Proof.
  repeat split; try (vm_compute; reflexivity); vm_compute; discriminate.
Qed.

Lemma unary_minus_before_parenthesis_witness :
  PyStr.is_ascii "3*-(2)" = true
  /\ unary_at (tokenize (PyStr.remove_char " "%char "3*-(2)")) 2
  /\ exists e,
       fst (calculate repeated_product_pow "3*-(2)" CalculatorModel_init)
       = Raise e.
Proof.
  assert (H : unary_at (tokenize (PyStr.remove_char " "%char "3*-(2)")) 2).
  { split; [vm_compute; lia|]. split; [reflexivity|]. right. reflexivity. }
  split; [reflexivity|]. split; [exact H|].
  exact (proj1 (proj2 (unary_minus_before_parenthesis repeated_product_pow))
           "3*-(2)"%string 2 CalculatorModel_init eq_refl H).
Defined.

Lemma successful_evaluation_exchanges_witness :
  idle CalculatorModel_init
  /\ exists tr,
       message_history
         (broker (snd (calculate repeated_product_pow "2+3*4"
                         CalculatorModel_init)))
       = exchanges tr
       /\ Forall (sound repeated_product_pow) tr
       /\ (forall a, count_agent a tr
                     = count_symbol a
                         (tokenize (PyStr.remove_char " "%char "2+3*4")))
       /\ message_queue
            (broker (snd (calculate repeated_product_pow "2+3*4"
                            CalculatorModel_init)))
          = [].
Proof.
  split; [exact idle_init|].
  apply (proj2 (successful_evaluation_exchanges repeated_product_pow)
           "2+3*4" CalculatorModel_init 14%float _ idle_init).
  vm_compute. reflexivity.
Defined.

Lemma counters_follow_successful_applications_witness :
  idle CalculatorModel_init
  /\ operations_performed
       (agent DivisionAgent
          (snd (calculate repeated_product_pow "8/4/0"
                  CalculatorModel_init)))
     = operations_performed (agent DivisionAgent CalculatorModel_init)
       + count_results DivisionAgent
           (message_history
              (broker (snd (calculate repeated_product_pow "8/4/0"
                              CalculatorModel_init)))).
Proof.
  split; [exact idle_init|].
  exact (proj2 (counters_follow_successful_applications repeated_product_pow)
           "8/4/0" CalculatorModel_init idle_init DivisionAgent).
Defined.

Lemma successful_evaluations_count_operators_witness :
  idle CalculatorModel_init
  /\ exists m2,
       calculate repeated_product_pow "2+3*4"
         (snd (calculate repeated_product_pow "2+3*4" CalculatorModel_init))
       = (Return 14%float, m2)
       /\ forall a,
            let n := count_symbol a
                       (tokenize (PyStr.remove_char " "%char "2+3*4")) in
            operations_performed
              (agent a (snd (calculate repeated_product_pow "2+3*4"
                               CalculatorModel_init)))
            = operations_performed (agent a CalculatorModel_init) + n
            /\ operations_performed (agent a m2)
               = operations_performed (agent a CalculatorModel_init) + 2 * n.
Proof.
  split; [exact idle_init|].
  apply (proj1 (successful_evaluations_count_operators repeated_product_pow)
           "2+3*4" CalculatorModel_init 14%float _ idle_init).
  vm_compute. reflexivity.
Defined.

(** C9, as stated, fails: [5/0] holds one division operator, and two
    evaluations of it leave the division counter where it was. *)
Lemma failed_division_is_not_counted :
  count_symbol DivisionAgent (tokenize (PyStr.remove_char " "%char "5/0")) = 1
  /\ operations_performed
       (division_agent
          (snd (calculate repeated_product_pow "5/0"
                  (snd (calculate repeated_product_pow "5/0"
                          CalculatorModel_init)))))
     <> operations_performed (division_agent CalculatorModel_init)
        + 2 * count_symbol DivisionAgent
                (tokenize (PyStr.remove_char " "%char "5/0")).
Proof. split; [vm_compute; reflexivity | vm_compute; discriminate]. Qed.

(** ** Instances of the further properties *)

Lemma request_operation_contract_witness :
  idle CalculatorModel_init
  /\ fst (request_operation repeated_product_pow "/" 1 0 CalculatorModel_init)
     = Raise (ValueError "División por cero no permitida")
  /\ message_history
       (broker (snd (request_operation repeated_product_pow "/" 1 0
                       CalculatorModel_init)))
     = [request_of DivisionAgent 1 0].
Proof.
  split; [exact idle_init|].
  pose proof (proj1 (request_operation_contract repeated_product_pow)
                DivisionAgent 1%float 0%float CalculatorModel_init idle_init)
    as (H1 & _ & H3 & _).
  split; [exact H1 | exact H3].
Defined.

Lemma step_ignores_other_messages_witness :
  Forall (fun x => receiver x = unique_id DivisionAgent ->
                   msg_type x <> "operation"%string)
    (message_queue
       (broker
          (set_broker
             {| message_queue :=
                  [ request_of SumaAgent 1 2;
                    {| sender := "io_agent"; receiver := "division_agent";
                       content := Result (PyFloat 1);
                       msg_type := "result" |} ];
                message_history := []; log_enabled := true |}
             CalculatorModel_init)))
  /\ step repeated_product_pow DivisionAgent
       (set_broker
          {| message_queue :=
               [ request_of SumaAgent 1 2;
                 {| sender := "io_agent"; receiver := "division_agent";
                    content := Result (PyFloat 1);
                    msg_type := "result" |} ];
             message_history := []; log_enabled := true |}
          CalculatorModel_init)
     = (Return tt,
        set_broker {| message_queue := [request_of SumaAgent 1 2];
                      message_history := []; log_enabled := true |}
          CalculatorModel_init).
Proof.
  assert (H : Forall (fun x => receiver x = unique_id DivisionAgent ->
                               msg_type x <> "operation"%string)
                (message_queue
                   (broker
                      (set_broker
                         {| message_queue :=
                              [ request_of SumaAgent 1 2;
                                {| sender := "io_agent";
                                   receiver := "division_agent";
                                   content := Result (PyFloat 1);
                                   msg_type := "result" |} ];
                            message_history := []; log_enabled := true |}
                         CalculatorModel_init)))).
  { repeat constructor.
    - intros E. discriminate E.
    - intros _. discriminate. }
  split; [exact H|].
  exact (step_ignores_other_messages repeated_product_pow DivisionAgent _ H).
Defined.

Lemma tokenize_token_shapes_witness :
  PyStr.is_ascii "4*-2.5" = true
  /\ Forall (fun t => is_symbol_token t = true \/ is_number_token t = true)
       (tokenize "4*-2.5").
Proof.
  split; [reflexivity|].
  exact (tokenize_token_shapes "4*-2.5" eq_refl).
Defined.

Lemma number_tokens_convert_witness :
  PyStr.is_ascii "4*-2" = true
  /\ In "-2"%string (tokenize "4*-2")
  /\ is_symbol_token "-2" = false
  /\ is_number_token "-2" = true
  /\ exists x, float_of_token "-2" = inr x.
Proof.
  assert (H : In "-2"%string (tokenize "4*-2"))
    by (right; right; left; reflexivity).
  split; [reflexivity|]. split; [exact H|]. split; [reflexivity|].
  exact (number_tokens_convert "4*-2" "-2" eq_refl H eq_refl).
Defined.

Lemma tier_leaves_no_operator_witness :
  (forall op, In op ["*"; "/"]%string -> has_word_char op = false)
  /\ evaluate_operator repeated_product_pow ["2"; "*"; "3"; "+"; "4"]
       ["*"; "/"] CalculatorModel_init
     = (Return ["6.0"; "+"; "4"]%string,
        snd (evaluate_operator repeated_product_pow ["2"; "*"; "3"; "+"; "4"]
               ["*"; "/"] CalculatorModel_init))
  /\ Forall (fun t => in_list t ["*"; "/"] = false) ["6.0"; "+"; "4"]%string.
Proof.
  assert (H1 : forall op, In op ["*"; "/"]%string -> has_word_char op = false).
  { intros op [<- | [<- | []]]; reflexivity. }
  assert (H2 : evaluate_operator repeated_product_pow
                 ["2"; "*"; "3"; "+"; "4"] ["*"; "/"] CalculatorModel_init
               = (Return ["6.0"; "+"; "4"]%string,
                  snd (evaluate_operator repeated_product_pow
                         ["2"; "*"; "3"; "+"; "4"] ["*"; "/"]
                         CalculatorModel_init)))
    by (vm_compute; reflexivity).
  split; [exact H1|]. split; [exact H2|].
  exact (tier_leaves_no_operator repeated_product_pow _ _ _ _ _ H1 H2).
Defined.

Lemma numbers_only_witness :
  Forall (fun t => is_number_token t = true) ["2"; "-3.5"]%string
  /\ evaluate_expression repeated_product_pow ["2"; "-3.5"]
       CalculatorModel_init
     = (Raise (ValueError
                 "Error en evaluación: tokens restantes = ['2', '-3.5']"),
        CalculatorModel_init).
Proof.
  assert (H : Forall (fun t => is_number_token t = true)
                ["2"; "-3.5"]%string)
    by (repeat constructor).
  split; [exact H|].
  exact (numbers_only repeated_product_pow ["2"; "-3.5"]%string
           CalculatorModel_init H).
Defined.

Lemma returned_value_means_balanced_witness :
  calculate repeated_product_pow "(2+3)*4" CalculatorModel_init
  = (Return 20%float,
     snd (calculate repeated_product_pow "(2+3)*4" CalculatorModel_init))
  /\ count_token "(" (tokenize (PyStr.remove_char " "%char "(2+3)*4"))
     = count_token ")" (tokenize (PyStr.remove_char " "%char "(2+3)*4")).
Proof.
  assert (H : calculate repeated_product_pow "(2+3)*4" CalculatorModel_init
              = (Return 20%float,
                 snd (calculate repeated_product_pow "(2+3)*4"
                        CalculatorModel_init)))
    by (vm_compute; reflexivity).
  split; [exact H|].
  exact (returned_value_means_balanced repeated_product_pow _ _ _ _ H).
Defined.

Lemma session_leaves_nothing_pending_witness :
  reachable repeated_product_pow
    (snd (calculate repeated_product_pow "5/0"
            (reset_statistics
               (snd (calculate repeated_product_pow "2+3"
                       CalculatorModel_init)))))
  /\ message_queue
       (broker
          (snd (calculate repeated_product_pow "5/0"
            (reset_statistics
               (snd (calculate repeated_product_pow "2+3"
                       CalculatorModel_init))))))
     = []
  /\ log_enabled
       (broker
          (snd (calculate repeated_product_pow "5/0"
            (reset_statistics
               (snd (calculate repeated_product_pow "2+3"
                       CalculatorModel_init))))))
     = true.
Proof.
  assert (H : reachable repeated_product_pow
                (snd (calculate repeated_product_pow "5/0"
            (reset_statistics
               (snd (calculate repeated_product_pow "2+3"
                       CalculatorModel_init)))))).
  { exact (reach_calculate _ _ _
             (reach_reset _ _
                (reach_calculate _ _ _ (reach_init _)))). }
  split; [exact H|].
  exact (session_leaves_nothing_pending repeated_product_pow _ H).
Defined.

Lemma outcome_independent_of_session_witness :
  reachable repeated_product_pow
    (snd (calculate repeated_product_pow "5/0"
            (reset_statistics
               (snd (calculate repeated_product_pow "2+3"
                       CalculatorModel_init)))))
  /\ fst (calculate repeated_product_pow "2+3*4"
            (snd (calculate repeated_product_pow "5/0"
            (reset_statistics
               (snd (calculate repeated_product_pow "2+3"
                       CalculatorModel_init))))))
     = evaluate repeated_product_pow "2+3*4".
Proof.
  assert (H : reachable repeated_product_pow
                (snd (calculate repeated_product_pow "5/0"
            (reset_statistics
               (snd (calculate repeated_product_pow "2+3"
                       CalculatorModel_init)))))).
  { exact (reach_calculate _ _ _
             (reach_reset _ _
                (reach_calculate _ _ _ (reach_init _)))). }
  split; [exact H|].
  exact (outcome_independent_of_session repeated_product_pow "2+3*4" _ H).
Defined.

Lemma history_after_any_outcome_witness :
  idle CalculatorModel_init
  /\ exists tr tl,
       get_history
         (snd (calculate repeated_product_pow "8/4/0" CalculatorModel_init))
       = exchanges tr ++ tl
       /\ Forall (sound repeated_product_pow) tr
       /\ match
            fst (calculate repeated_product_pow "8/4/0" CalculatorModel_init)
          with
          | Return _ => tl = []
          | Raise e =>
              tl = []
              \/ exists a x y,
                   tl = [request_of a x y]
                   /\ operation_func repeated_product_pow a x y = inl e
          | OutOfFuel => False
          end.
Proof.
  split; [exact idle_init|].
  exact (history_after_any_outcome repeated_product_pow "8/4/0"
           CalculatorModel_init idle_init).
Defined.

Lemma statistics_total_follows_history_witness :
  idle CalculatorModel_init
  /\ total_count
       (get_statistics
          (snd (calculate repeated_product_pow "2+3*4" CalculatorModel_init)))
     = total_count (get_statistics CalculatorModel_init)
       + count_type "result"
           (get_history
              (snd (calculate repeated_product_pow "2+3*4"
                      CalculatorModel_init))).
Proof.
  split; [exact idle_init|].
  exact (statistics_total_follows_history repeated_product_pow "2+3*4"
           CalculatorModel_init idle_init).
Defined.

Lemma spaces_are_ignored_witness :
  idle CalculatorModel_init
  /\ fst (calculate repeated_product_pow "1 2 + 3" CalculatorModel_init)
     = fst (calculate repeated_product_pow
              (PyStr.remove_char " "%char "1 2 + 3") CalculatorModel_init).
Proof.
  split; [exact idle_init|].
  exact (proj1 (spaces_are_ignored repeated_product_pow "1 2 + 3"
                  CalculatorModel_init idle_init)).
Defined.

Lemma clear_queue_discards_pending_witness :
  log_enabled
    (broker
       (set_broker {| message_queue := [request_of SumaAgent 1 2];
                      message_history := []; log_enabled := true |}
          CalculatorModel_init))
  = true
  /\ fst (calculate repeated_product_pow "2+3"
            (snd (clear_queue
                    (set_broker
                       {| message_queue := [request_of SumaAgent 1 2];
                          message_history := []; log_enabled := true |}
                       CalculatorModel_init))))
     = evaluate repeated_product_pow "2+3".
Proof.
  split; [reflexivity|].
  exact (proj2 (proj2 (proj2 (clear_queue_discards_pending
                                repeated_product_pow
                                (set_broker
                                   {| message_queue :=
                                        [request_of SumaAgent 1 2];
                                      message_history := [];
                                      log_enabled := true |}
                                   CalculatorModel_init))))
           eq_refl "2+3"%string).
Defined.

Lemma operator_at_an_edge_raises_witness :
  Forall (fun t => in_list t ["+"; "-"] = false) ["2"]%string
  /\ in_list "+" ["+"; "-"] = true
  /\ evaluate_operator repeated_product_pow (["2"] ++ ["+"])%list
       ["+"; "-"] CalculatorModel_init
     = (Raise (ValueError "Operador + en posición inválida"),
        CalculatorModel_init).
Proof.
  assert (H : Forall (fun t => in_list t ["+"; "-"] = false) ["2"]%string)
    by (repeat constructor).
  split; [exact H|]. split; [reflexivity|].
  exact (operator_at_an_edge_raises repeated_product_pow ["2"]%string "+" []
           ["+"; "-"]%string CalculatorModel_init H eq_refl
           (or_intror eq_refl)).
Defined.

Lemma tokenize_skips_unrecognized_witness :
  PyStr.is_ascii "2" = true
  /\ PyStr.is_ascii "+3" = true
  /\ unrecognized "a"%char = true
  /\ findall "2a+3" = findall "2" ++ findall "+3"
  /\ tokenize "2a+3" = fold_minus (findall "2" ++ findall "+3").
Proof.
  split; [reflexivity|]. split; [reflexivity|]. split; [reflexivity|].
  exact (tokenize_skips_unrecognized "2" "a"%char "+3" eq_refl eq_refl
           eq_refl).
Defined.
